(** * Annotation geometry and colour consistency of the TFCU procedure formatter

    A shallow embedding of the Python sources

    - [screenshot_processor.py] (the packaged skill, v4.3.2) and the older
      top-level copy of the same file,
    - [scripts/text_color_parser.py],
    - [scripts/validate_procedure.py],

    followed by the properties of the specification that concern them.

    Conventions of the embedding.
    - A Python [int] is a [Z]; a Python [float] is a primitive binary64
      [float]; a value that may be either is a [num].
    - A Python [str] is a [string] holding the UTF-8 bytes of the text.
      [len] and [s[:n]] count characters; offsets inside a line are byte
      offsets. Case mapping, [strip] and the regular-expression classes
      [\s], [\d], [\w] are the ASCII ones: the embedding is exact on ASCII
      text with, in addition, the circled digits the parser looks for.
    - A raised exception is an explicit [Raise] result.
    - A dictionary used as a map is a [gmap]; a dictionary whose iteration
      order is observed (the colour palette) is an association list. *)

From Stdlib Require Import ZArith String Ascii List Bool Lia.
From Stdlib Require Import Floats.PrimFloat Floats.FloatOps Floats.SpecFloat.
From stdpp Require Import gmap strings list pretty sorting.

Open Scope Z_scope.

(* ===================================================================== *)
(** * Python values: exceptions and numbers                               *)
(* ===================================================================== *)

Module Py.

(** The exceptions the modelled arithmetic can raise. *)
Inductive exn : Type :=
| OverflowError
| ValueError
| ZeroDivisionError.

Inductive result (A : Type) : Type :=
| Ok (a : A)
| Raise (e : exn).
Arguments Ok {A} a.
Arguments Raise {A} e.

Definition bind {A B : Type} (m : result A) (k : A -> result B) : result B :=
  match m with
  | Ok a => k a
  | Raise e => Raise e
  end.

(** A JSON number as Python loads it: [int] or [float]. *)
Inductive num : Type :=
| NInt (n : Z)
| NFloat (f : float).

Definition Z2SF (z : Z) : spec_float :=
  match z with
  | Z0 => S754_zero false
  | Zpos p => S754_finite false p 0
  | Zneg p => S754_finite true p 0
  end.

(** [float(n)] for an [int]: the nearest double, ties to even;
    [OverflowError] when it is out of range. *)
Definition float_of_int (z : Z) : result float :=
  let f := SF2Prim (binary_normalize prec emax z 0 false) in
  if is_infinity f then Raise OverflowError else Ok f.

Definition to_float (n : num) : result float :=
  match n with
  | NInt z => float_of_int z
  | NFloat f => Ok f
  end.

(** [a / b]: true division. Two ints give the correctly rounded quotient
    of the integers; otherwise both operands are converted to float. *)
Definition truediv (a b : num) : result float :=
  match a, b with
  | NInt x, NInt y =>
      if y =? 0 then Raise ZeroDivisionError
      else
        let q := SF2Prim (SFdiv prec emax (Z2SF x) (Z2SF y)) in
        if is_infinity q then Raise OverflowError else Ok q
  | _, _ =>
      match to_float a with
      | Raise e => Raise e
      | Ok fa =>
          match to_float b with
          | Raise e => Raise e
          | Ok fb =>
              if (fb =? 0)%float then Raise ZeroDivisionError
              else Ok (fa / fb)%float
          end
      end
  end.

(** [a + b] *)
Definition add (a b : num) : result num :=
  match a, b with
  | NInt x, NInt y => Ok (NInt (x + y))
  | _, _ =>
      bind (to_float a) (fun fa =>
      bind (to_float b) (fun fb => Ok (NFloat (fa + fb)%float)))
  end.

(** [f * n], [f + n], [n + f], [n - f], [n / f] for a float [f] and an
    int [n]: the int is converted first. *)
Definition mul_float_int (f : float) (n : Z) : result float :=
  bind (float_of_int n) (fun g => Ok (f * g)%float).

Definition mul_int_float (n : Z) (f : float) : result float :=
  bind (float_of_int n) (fun g => Ok (g * f)%float).

Definition add_float_int (f : float) (n : Z) : result float :=
  bind (float_of_int n) (fun g => Ok (f + g)%float).

Definition add_int_float (n : Z) (f : float) : result float :=
  bind (float_of_int n) (fun g => Ok (g + f)%float).

Definition sub_int_float (n : Z) (f : float) : result float :=
  bind (float_of_int n) (fun g => Ok (g - f)%float).

Definition div_int_float (n : Z) (f : float) : result float :=
  bind (float_of_int n) (fun g =>
    if (f =? 0)%float then Raise ZeroDivisionError else Ok (g / f)%float).

(** The integer nearest to [m * 2^e] ([m] positive), ties to even. *)
Definition round_half_even (m : positive) (e : Z) : Z :=
  match e with
  | Zneg k =>
      let d := Z.pow_pos 2 k in
      let q := Zpos m / d in
      let r := Zpos m mod d in
      match Z.compare (2 * r) d with
      | Lt => q
      | Gt => q + 1
      | Eq => if Z.even q then q else q + 1
      end
  | _ => Zpos m * 2 ^ e
  end.

(** [m * 2^e] cut towards zero. *)
Definition truncate (m : positive) (e : Z) : Z :=
  match e with
  | Zneg k => Zpos m / Z.pow_pos 2 k
  | _ => Zpos m * 2 ^ e
  end.

Definition signed (s : bool) (z : Z) : Z := if s then - z else z.

(** [round(f)] with one argument: an [int], ties to even. *)
Definition round (f : float) : result Z :=
  match Prim2SF f with
  | S754_nan => Raise ValueError
  | S754_infinity _ => Raise OverflowError
  | S754_zero _ => Ok 0
  | S754_finite s m e => Ok (signed s (round_half_even m e))
  end.

(** [int(f)]: truncation towards zero. *)
Definition int (f : float) : result Z :=
  match Prim2SF f with
  | S754_nan => Raise ValueError
  | S754_infinity _ => Raise OverflowError
  | S754_zero _ => Ok 0
  | S754_finite s m e => Ok (signed s (truncate m e))
  end.

(** [math.sqrt(n)] for a non-negative [int]. *)
Definition sqrt_int (n : Z) : result float :=
  if n <? 0 then Raise ValueError
  else bind (float_of_int n) (fun g => Ok (PrimFloat.sqrt g)).

(** [f < n] and [f > n] for a float and an int. Python compares the two
    exactly, without converting the int. *)
Definition float_cmp_int (f : float) (n : Z) : option comparison :=
  match Prim2SF f with
  | S754_nan => None
  | S754_infinity s => Some (if s then Lt else Gt)
  | S754_zero _ => Some (Z.compare 0 n)
  | S754_finite s m e =>
      match e with
      | Zneg k => Some (Z.compare (signed s (Zpos m)) (n * Z.pow_pos 2 k))
      | _ => Some (Z.compare (signed s (Zpos m * 2 ^ e)) n)
      end
  end.

Definition float_lt_int (f : float) (n : Z) : bool :=
  match float_cmp_int f n with Some Lt => true | _ => false end.

Definition float_gt_int (f : float) (n : Z) : bool :=
  match float_cmp_int f n with Some Gt => true | _ => false end.

(** [str(n)] for an [int]. *)
Definition str (n : Z) : string := pretty n.

End Py.

Notation "x <- m ;; k" := (Py.bind m (fun x => k))
  (at level 100, m at next level, right associativity, only parsing).

(* ===================================================================== *)
(** * Strings                                                             *)
(* ===================================================================== *)

Module Str.

Definition code (c : ascii) : nat := nat_of_ascii c.

(** [c.isspace()], which is also the class [\s]: tab to carriage return,
    the four separators 0x1c-0x1f, and the space. *)
Definition is_space (c : ascii) : bool :=
  let n := code c in
  ((9 <=? n) && (n <=? 13) || (28 <=? n) && (n <=? 32))%nat.

(** The class [\d]. *)
Definition is_digit (c : ascii) : bool :=
  let n := code c in ((48 <=? n) && (n <=? 57))%nat.

Definition is_upper (c : ascii) : bool :=
  let n := code c in ((65 <=? n) && (n <=? 90))%nat.

Definition is_lower (c : ascii) : bool :=
  let n := code c in ((97 <=? n) && (n <=? 122))%nat.

(** The class [\w]: letters, digits and the underscore; the circled
    digits, being numeric characters, belong to it too, and so every byte
    outside ASCII is taken as part of a word character. *)
Definition is_word (c : ascii) : bool :=
  is_upper c || is_lower c || is_digit c || Ascii.eqb c "_" || (128 <=? code c)%nat.

Definition lower_char (c : ascii) : ascii :=
  if is_upper c then ascii_of_nat (code c + 32) else c.

(** [s.lower()] *)
Fixpoint lower (s : string) : string :=
  match s with
  | EmptyString => EmptyString
  | String c s' => String (lower_char c) (lower s')
  end.

(** [s.lstrip()] *)
Fixpoint lstrip (s : string) : string :=
  match s with
  | EmptyString => EmptyString
  | String c s' => if is_space c then lstrip s' else s
  end.

(** [s.rstrip()] *)
Fixpoint rstrip (s : string) : string :=
  match s with
  | EmptyString => EmptyString
  | String c s' =>
      match rstrip s' with
      | EmptyString => if is_space c then EmptyString else String c EmptyString
      | t => String c t
      end
  end.

(** [s.strip()] *)
Definition strip (s : string) : string := rstrip (lstrip s).

(** [s.startswith(p)] *)
Definition startswith (p s : string) : bool := String.prefix p s.

(** A byte of the form 10xxxxxx continues a UTF-8 character. *)
Definition is_continuation (c : ascii) : bool :=
  let n := code c in ((128 <=? n) && (n <? 192))%nat.

(** [len(s)]: the number of characters of the text. *)
Fixpoint len (s : string) : nat :=
  match s with
  | EmptyString => O
  | String c s' => if is_continuation c then len s' else S (len s')
  end.

(** [s[:n]]: the first [n] characters. *)
Fixpoint take_chars (n : nat) (s : string) : string :=
  match s with
  | EmptyString => EmptyString
  | String c s' =>
      if is_continuation c then String c (take_chars n s')
      else
        match n with
        | O => EmptyString
        | S n' => String c (take_chars n' s')
        end
  end.

(** The text between the offsets [i] and [j] of a match, [i <= j]. *)
Definition slice (i j : nat) (s : string) : string :=
  String.substring i (j - i) s.

(** [s.split(sep)] for a one-character separator. *)
Fixpoint split (sep : ascii) (s : string) : list string :=
  match s with
  | EmptyString => [EmptyString]
  | String c s' =>
      if Ascii.eqb c sep then EmptyString :: split sep s'
      else
        match split sep s' with
        | [] => [String c EmptyString]
        | w :: ws => String c w :: ws
        end
  end.

Definition digit_value (c : ascii) : Z := Z.of_nat (code c - 48).

(** [int(s)] for a string of decimal digits. *)
Fixpoint int_of_digits_acc (acc : Z) (s : string) : Z :=
  match s with
  | EmptyString => acc
  | String c s' => int_of_digits_acc (10 * acc + digit_value c) s'
  end.

Definition int_of_digits (s : string) : Z := int_of_digits_acc 0 s.

End Str.

(* ===================================================================== *)
(** * Geometry utilities                                                  *)
(* ===================================================================== *)

(** The older copy of the file, [src/screenshot_processor.py]. *)
Module Legacy.

(** [return int((percent / 100) * dimension)] *)
Definition percent_to_pixels (percent : Py.num) (dimension : Z) : Py.result Z :=
  q <- Py.truediv percent (Py.NInt 100) ;;
  p <- Py.mul_float_int q dimension ;;
  Py.int p.

End Legacy.

(** [return round((percent / 100) * dimension)] *)
Definition percent_to_pixels (percent : Py.num) (dimension : Z) : Py.result Z :=
  q <- Py.truediv percent (Py.NInt 100) ;;
  p <- Py.mul_float_int q dimension ;;
  Py.round p.

(** [x = max(radius + margin, min(x, width - radius - margin))], and the
    same for [y]. *)
Definition clamp_to_bounds (x y radius width height margin : Z) : Z * Z :=
  let x := Z.max (radius + margin) (Z.min x (width - radius - margin)) in
  let y := Z.max (radius + margin) (Z.min y (height - radius - margin)) in
  (x, y).

(** [scaled = image_width * 0.055;
     return max(min_radius, min(max_radius, round(scaled)))] *)
Definition calculate_dynamic_radius_with
    (image_width base_radius min_radius max_radius : Z) : Py.result Z :=
  scaled <- Py.mul_int_float image_width 0x1.c28f5c28f5c29p-5%float ;;
  r <- Py.round scaled ;;
  Py.Ok (Z.max min_radius (Z.min max_radius r)).

(** The defaults [base_radius=18, min_radius=14, max_radius=28]. *)
Definition calculate_dynamic_radius (image_width : Z) : Py.result Z :=
  calculate_dynamic_radius_with image_width 18 14 28.

(* ===================================================================== *)
(** * Annotation descriptors                                              *)
(* ===================================================================== *)

(** A [position] or [end] object: [{"x": .., "y": ..}], each key optional. *)
Record position : Type := Position {
  pos_x : option Py.num;
  pos_y : option Py.num
}.

(** A [bbox] object: [{"x": .., "y": .., "w": .., "h": ..}]. *)
Record bbox : Type := Bbox {
  bbox_x : option Py.num;
  bbox_y : option Py.num;
  bbox_w : option Py.num;
  bbox_h : option Py.num
}.

(** An annotation descriptor: the JSON object of [annotations.json], one
    field per key the code reads, [None] when the key is absent. *)
Record annotation : Type := Annotation {
  ann_type : option string;
  ann_position : option position;
  ann_end : option position;
  ann_bbox : option bbox;
  ann_radius : option Py.num;
  ann_text : option string;
  ann_description : option string;
  ann_number : option Z;
  ann_color : option string;
  ann_figure_title : option string
}.

(** [d.get(key, fallback)] *)
Definition get {A : Type} (field : option A) (fallback : A) : A :=
  match field with
  | Some v => v
  | None => fallback
  end.

(** Truth value of [d.get(key)] for a string field: absent ([None]) and
    the empty string are false. *)
Definition truthy_str (field : option string) : bool :=
  match field with
  | Some s => negb (String.eqb s "")
  | None => false
  end.

(** Truth value of [d.get(key)] for an int field. *)
Definition truthy_int (field : option Z) : bool :=
  match field with
  | Some n => negb (n =? 0)
  | None => false
  end.

(** [s in (a, b, ...)] for strings. *)
Definition str_in (s : string) (l : list string) : bool :=
  existsb (String.eqb s) l.

(* ===================================================================== *)
(** * AnnotationValidator                                                 *)
(* ===================================================================== *)

(** A record of [placed_annotations]. *)
Record placed : Type := Placed {
  placed_x : Z;
  placed_y : Z;
  placed_radius : Z;
  placed_type : string;
  placed_number : option Z
}.

Record AnnotationValidator : Type := Validator {
  width : Z;
  height : Z;
  margin : Z;
  placed_annotations : list placed
}.

(** [AnnotationValidator(image_width, image_height, margin=5)] *)
Definition new_validator (image_width image_height margin : Z) : AnnotationValidator :=
  Validator image_width image_height margin [].

Definition set_placed (self : AnnotationValidator) (l : list placed) : AnnotationValidator :=
  Validator (width self) (height self) (margin self) l.

Definition default_position : position :=
  Position (Some (Py.NInt 50)) (Some (Py.NInt 50)).

Definition default_bbox : bbox :=
  Bbox (Some (Py.NInt 40)) (Some (Py.NInt 40)) (Some (Py.NInt 20)) (Some (Py.NInt 20)).

Definition get_annotation_bounds
    (self : AnnotationValidator) (ann : annotation) (default_radius : Z)
  : Py.result (Z * Z * Z) :=
  let ann_type := get (ann_type ann) "callout" in
  if str_in ann_type ["callout"; "circle"] then
    let pos := get (ann_position ann) default_position in
    x <- percent_to_pixels (get (pos_x pos) (Py.NInt 50)) (width self) ;;
    y <- percent_to_pixels (get (pos_y pos) (Py.NInt 50)) (height self) ;;
    radius <- (if String.eqb ann_type "callout"
               then calculate_dynamic_radius (width self)
               else percent_to_pixels (get (ann_radius ann) (Py.NInt 5)) (width self)) ;;
    Py.Ok (x, y, radius)
  else if String.eqb ann_type "label" then
    let pos := get (ann_position ann) default_position in
    x <- percent_to_pixels (get (pos_x pos) (Py.NInt 50)) (width self) ;;
    y <- percent_to_pixels (get (pos_y pos) (Py.NInt 50)) (height self) ;;
    let text_len := Z.of_nat (Str.len (get (ann_text ann) "Label")) in
    let radius := Z.max 20 (text_len * 4) in
    Py.Ok (x, y, radius)
  else if String.eqb ann_type "highlight" then
    let bbox := get (ann_bbox ann) default_bbox in
    hw <- Py.truediv (get (bbox_w bbox) (Py.NInt 20)) (Py.NInt 2) ;;
    cx <- Py.add (get (bbox_x bbox) (Py.NInt 40)) (Py.NFloat hw) ;;
    x <- percent_to_pixels cx (width self) ;;
    hh <- Py.truediv (get (bbox_h bbox) (Py.NInt 20)) (Py.NInt 2) ;;
    cy <- Py.add (get (bbox_y bbox) (Py.NInt 40)) (Py.NFloat hh) ;;
    y <- percent_to_pixels cy (height self) ;;
    hw' <- Py.truediv (get (bbox_w bbox) (Py.NInt 20)) (Py.NInt 2) ;;
    rw <- percent_to_pixels (Py.NFloat hw') (width self) ;;
    hh' <- Py.truediv (get (bbox_h bbox) (Py.NInt 20)) (Py.NInt 2) ;;
    rh <- percent_to_pixels (Py.NFloat hh') (height self) ;;
    Py.Ok (x, y, Z.max rw rh)
  else if String.eqb ann_type "arrow" then
    let e := get (ann_end ann) default_position in
    x <- percent_to_pixels (get (pos_x e) (Py.NInt 50)) (width self) ;;
    y <- percent_to_pixels (get (pos_y e) (Py.NInt 50)) (height self) ;;
    Py.Ok (x, y, 15)
  else
    Py.Ok (width self / 2, height self / 2, default_radius).

Definition edge_msg (edge axis : string) (c radius : Z) : string :=
  "Too close to " +:+ edge +:+ " edge (" +:+ axis +:+ "=" +:+ Py.str c
    +:+ ", radius=" +:+ Py.str radius +:+ ")".

Definition check_bounds (self : AnnotationValidator) (x y radius : Z) : bool * string :=
  if x - radius <? margin self then
    (false, edge_msg "left" "x" x radius)
  else if x + radius >? width self - margin self then
    (false, edge_msg "right" "x" x radius)
  else if y - radius <? margin self then
    (false, edge_msg "top" "y" y radius)
  else if y + radius >? height self - margin self then
    (false, edge_msg "bottom" "y" y radius)
  else (true, "OK").

(** An entry of the list [check_collision] returns. *)
Record collision : Type := Collision {
  col_placed : placed;
  col_distance : float;
  col_required : Z;
  col_overlap : float
}.

Fixpoint check_collision_loop
    (x y radius min_gap : Z) (todo : list placed) (collisions : list collision)
  : Py.result (list collision) :=
  match todo with
  | [] => Py.Ok collisions
  | p :: todo' =>
      let px := placed_x p in
      let py := placed_y p in
      let pr := placed_radius p in
      distance <- Py.sqrt_int ((x - px) ^ 2 + (y - py) ^ 2) ;;
      let min_distance := radius + pr + min_gap in
      if Py.float_lt_int distance min_distance then
        overlap <- Py.sub_int_float min_distance distance ;;
        check_collision_loop x y radius min_gap todo'
          (collisions ++ [Collision p distance min_distance overlap])
      else
        check_collision_loop x y radius min_gap todo' collisions
  end.

Definition check_collision
    (self : AnnotationValidator) (x y radius min_gap : Z)
  : Py.result (list collision) :=
  check_collision_loop x y radius min_gap (placed_annotations self) [].

Fixpoint suggest_adjustment_loop
    (x y : Z) (collisions : list collision) (dx dy : float)
  : Py.result (float * float) :=
  match collisions with
  | [] => Py.Ok (dx, dy)
  | col :: rest =>
      let px := placed_x (col_placed col) in
      let py := placed_y (col_placed col) in
      let overlap := col_overlap col in
      let vx := x - px in
      let vy := y - py in
      dist <- Py.sqrt_int (vx * vx + vy * vy) ;;
      if Py.float_gt_int dist 0 then
        ux <- Py.div_int_float vx dist ;;
        push <- Py.add_float_int overlap 5 ;;
        let dx := (dx + ux * push)%float in
        uy <- Py.div_int_float vy dist ;;
        push' <- Py.add_float_int overlap 5 ;;
        let dy := (dy + uy * push')%float in
        suggest_adjustment_loop x y rest dx dy
      else
        push <- Py.add_float_int overlap 5 ;;
        let dx := (dx + push)%float in
        push' <- Py.add_float_int overlap 5 ;;
        let dy := (dy + push')%float in
        suggest_adjustment_loop x y rest dx dy
  end.

Definition suggest_adjustment
    (self : AnnotationValidator) (x y radius : Z) (collisions : list collision)
  : Py.result (Z * Z) :=
  match collisions with
  | [] => Py.Ok (x, y)
  | _ =>
      d <- suggest_adjustment_loop x y collisions 0%float 0%float ;;
      fx <- Py.add_int_float x (fst d) ;;
      new_x <- Py.round fx ;;
      fy <- Py.add_int_float y (snd d) ;;
      new_y <- Py.round fy ;;
      Py.Ok (clamp_to_bounds new_x new_y radius (width self) (height self) (margin self))
  end.

(** The dictionary [validate_and_adjust] returns; a position is the triple
    [(x, y, radius)]. *)
Record validation : Type := Validation {
  valid : bool;
  adjusted : bool;
  original_position : option (Z * Z * Z);
  adjusted_position : option (Z * Z * Z);
  warnings : list string;
  errors : list string
}.

Definition validate_and_adjust (self : AnnotationValidator) (ann : annotation)
  : Py.result (validation * AnnotationValidator) :=
  let ann_type := get (ann_type ann) "callout" in
  b <- get_annotation_bounds self ann 18 ;;
  let '(x, y, radius) := b in
  let original := Some (x, y, radius) in
  (* required fields *)
  let missing :=
    negb (truthy_str (ann_description ann))
    && str_in ann_type ["callout"; "arrow"; "highlight"] in
  let errors :=
    if missing
    then ["Missing required 'description' field for " +:+ ann_type]
    else [] in
  let valid := negb missing in
  (* bounds *)
  let '(in_bounds, bounds_msg) := check_bounds self x y radius in
  let warnings := if in_bounds then [] else ["Out of bounds: " +:+ bounds_msg] in
  let '(x, y) :=
    if in_bounds then (x, y)
    else clamp_to_bounds x y radius (width self) (height self) (margin self) in
  let adjusted := negb in_bounds in
  (* collisions *)
  collisions <- check_collision self x y radius 5 ;;
  let collided := negb (Nat.eqb (length collisions) 0) in
  let warnings :=
    if collided
    then warnings ++ ["Collision detected with "
                        +:+ Py.str (Z.of_nat (length collisions)) +:+ " annotation(s)"]
    else warnings in
  p <- (if collided then suggest_adjustment self x y radius collisions
        else Py.Ok (x, y)) ;;
  let '(x, y) := p in
  let adjusted := adjusted || collided in
  let adjusted_pos := if adjusted then Some (x, y, radius) else None in
  (* register *)
  let self' :=
    set_placed self
      (placed_annotations self ++ [Placed x y radius ann_type (ann_number ann)]) in
  Py.Ok (Validation valid adjusted original adjusted_pos warnings errors, self').

(** An entry of [results["annotations"]]: the validation with its [index]
    and [annotation]. *)
Record indexed_validation : Type := Indexed {
  iv_result : validation;
  iv_index : Z;
  iv_annotation : annotation
}.

(** The dictionary [validate_all] returns. *)
Record summary : Type := Summary {
  sum_annotations : list indexed_validation;
  sum_total : Z;
  sum_valid : Z;
  sum_adjusted : Z;
  sum_errors : Z;
  sum_all_valid : bool
}.

(** The loop of [validate_all]. When a descriptor raises, the exception
    leaves the loop and the validator keeps what was placed before it. *)
Fixpoint validate_all_loop
    (self : AnnotationValidator) (i : Z) (annotations : list annotation) (results : summary)
  : Py.result summary * AnnotationValidator :=
  match annotations with
  | [] => (Py.Ok results, self)
  | ann :: rest =>
      match validate_and_adjust self ann with
      | Py.Raise e => (Py.Raise e, self)
      | Py.Ok (ann_result, self') =>
          let results :=
            Summary
              (sum_annotations results ++ [Indexed ann_result i ann])
              (sum_total results)
              (if valid ann_result then sum_valid results + 1 else sum_valid results)
              (if adjusted ann_result then sum_adjusted results + 1 else sum_adjusted results)
              (if valid ann_result then sum_errors results else sum_errors results + 1)
              (if valid ann_result then sum_all_valid results else false) in
          validate_all_loop self' (i + 1) rest results
      end
  end.

Definition validate_all (self : AnnotationValidator) (annotations : list annotation)
  : Py.result summary * AnnotationValidator :=
  let self := set_placed self [] in
  validate_all_loop self 0 annotations
    (Summary [] (Z.of_nat (length annotations)) 0 0 0 true).

(* ===================================================================== *)
(** * Regular expressions                                                 *)
(* ===================================================================== *)


(** A backtracking matcher for the fragment of [re] the sources use:
    literals, classes, sequence, ordered choice, greedy repetition,
    capturing groups and the word boundary. Alternatives are tried left to
    right and repetitions longest first, as [re] does. *)
Module Re.

Inductive regex : Type :=
| Eps
| Chr (c : ascii)
| Cls (p : ascii -> bool)
| Seq (r1 r2 : regex)
| Alt (r1 r2 : regex)
| Star (r : regex)
| Group (n : nat) (r : regex)
| WordBoundary.

(** [r+], [r?] *)
Definition Plus (r : regex) : regex := Seq r (Star r).
Definition Opt (r : regex) : regex := Alt r Eps.

(** A literal word. *)
Fixpoint lit (s : string) : regex :=
  match s with
  | EmptyString => Eps
  | String c EmptyString => Chr c
  | String c s' => Seq (Chr c) (lit s')
  end.

(** [w1|w2|...], the result of ["|".join(words)] inside a pattern. *)
Fixpoint alts (words : list string) : regex :=
  match words with
  | [] => Eps
  | [w] => lit w
  | w :: ws => Alt (lit w) (alts ws)
  end.

Fixpoint seqs (rs : list regex) : regex :=
  match rs with
  | [] => Eps
  | [r] => r
  | r :: rs' => Seq r (seqs rs')
  end.

(** Spans of the capturing groups that took part in the match. *)
Definition captures : Type := list (nat * (nat * nat)).

Fixpoint lookup_group (n : nat) (caps : captures) : option (nat * nat) :=
  match caps with
  | [] => None
  | (g, span) :: caps' => if Nat.eqb g n then Some span else lookup_group n caps'
  end.

Definition at_boundary (prev : option ascii) (s : string) : bool :=
  let before := match prev with Some c => Str.is_word c | None => false end in
  let after := match s with String c _ => Str.is_word c | EmptyString => false end in
  xorb before after.

Definition chr_matches (ignorecase : bool) (c d : ascii) : bool :=
  if ignorecase then Ascii.eqb (Str.lower_char c) (Str.lower_char d)
  else Ascii.eqb c d.

(** [run ic r prev s i caps k]: match [r] at offset [i], where [s] is the
    text from [i] on and [prev] the character before it, then continue
    with [k]; [None] when every way of matching fails. *)
Fixpoint run {R : Type} (ic : bool) (r : regex)
    (prev : option ascii) (s : string) (i : nat) (caps : captures)
    (k : option ascii -> string -> nat -> captures -> option R) : option R :=
  match r with
  | Eps => k prev s i caps
  | Chr c =>
      match s with
      | String d s' => if chr_matches ic c d then k (Some d) s' (S i) caps else None
      | EmptyString => None
      end
  | Cls p =>
      match s with
      | String d s' => if p d then k (Some d) s' (S i) caps else None
      | EmptyString => None
      end
  | Seq r1 r2 =>
      run ic r1 prev s i caps (fun prev' s' i' caps' => run ic r2 prev' s' i' caps' k)
  | Alt r1 r2 =>
      match run ic r1 prev s i caps k with
      | Some x => Some x
      | None => run ic r2 prev s i caps k
      end
  | Star r1 =>
      (fix loop (fuel : nat) (prev : option ascii) (s : string) (i : nat)
           (caps : captures) {struct fuel} : option R :=
         match fuel with
         | O => k prev s i caps
         | S fuel' =>
             match run ic r1 prev s i caps
                     (fun prev' s' i' caps' =>
                        if Nat.eqb i' i then None else loop fuel' prev' s' i' caps') with
             | Some x => Some x
             | None => k prev s i caps
             end
         end) (String.length s) prev s i caps
  | Group n r1 =>
      run ic r1 prev s i caps
        (fun prev' s' i' caps' => k prev' s' i' ((n, (i, i')) :: caps'))
  | WordBoundary =>
      if at_boundary prev s then k prev s i caps else None
  end.

(** A match object: [m.start()], [m.end()] and the group spans. *)
Record rmatch : Type := Match {
  m_start : nat;
  m_end : nat;
  m_caps : captures
}.

(** [pattern.match] at offset [i]. *)
Definition match_at (ic : bool) (r : regex) (prev : option ascii) (s : string) (i : nat)
  : option rmatch :=
  run ic r prev s i [] (fun _ _ j caps => Some (Match i j caps)).

Fixpoint search_from (ic : bool) (r : regex) (prev : option ascii) (s : string) (i : nat)
  : option rmatch :=
  match match_at ic r prev s i with
  | Some m => Some m
  | None =>
      match s with
      | EmptyString => None
      | String c s' => search_from ic r (Some c) s' (S i)
      end
  end.

(** [pattern.search(text)]: the leftmost match. *)
Definition search (ic : bool) (r : regex) (text : string) : option rmatch :=
  search_from ic r None text 0.

(** [pattern.finditer(text)]: the matches from left to right, each search
    resuming where the previous match ended ([skip] counts the characters
    of the previous match still to pass). *)
Fixpoint finditer_from (ic : bool) (r : regex) (prev : option ascii) (s : string)
    (i skip : nat) : list rmatch :=
  match skip with
  | S skip' =>
      match s with
      | EmptyString => []
      | String c s' => finditer_from ic r (Some c) s' (S i) skip'
      end
  | O =>
      match match_at ic r prev s i with
      | Some m =>
          m :: match s with
               | EmptyString => []
               | String c s' => finditer_from ic r (Some c) s' (S i) (m_end m - i - 1)
               end
      | None =>
          match s with
          | EmptyString => []
          | String c s' => finditer_from ic r (Some c) s' (S i) 0
          end
      end
  end.

Definition finditer (ic : bool) (r : regex) (text : string) : list rmatch :=
  finditer_from ic r None text 0 0.

(** [m.group(n)]: [None] when the group did not take part. *)
Definition group (text : string) (m : rmatch) (n : nat) : option string :=
  match lookup_group n (m_caps m) with
  | Some (a, b) => Some (Str.slice a b text)
  | None => None
  end.

End Re.

(* ===================================================================== *)
(** * The colour palette                                                  *)
(* ===================================================================== *)

(** [COLOR_PALETTE], in the order the dictionary literal lists it (the same
    table in [FigureRegistry], [text_color_parser] and
    [ColorConsistencyValidator]). *)
Definition COLOR_PALETTE : list (string * string) :=
  [ ("red", "#C00000");
    ("critical", "#C00000");
    ("blue", "#2E74B5");
    ("info", "#2E74B5");
    ("gold", "#FFC000");
    ("warning", "#FFC000");
    ("yellow", "#FFC000");
    ("green", "#548235");
    ("success", "#548235");
    ("teal", "#154747");
    ("primary", "#154747");
    ("purple", "#7030A0");
    ("orange", "#ED7D31") ].

(** [d.get(key)] on a dictionary kept as an association list. *)
Fixpoint assoc {A : Type} (key : string) (d : list (string * A)) : option A :=
  match d with
  | [] => None
  | (k, v) :: d' => if String.eqb k key then Some v else assoc key d'
  end.

(** [key in d] *)
Definition has_key {A : Type} (key : string) (d : list (string * A)) : bool :=
  match assoc key d with Some _ => true | None => false end.

(** [d.keys()] *)
Definition keys {A : Type} (d : list (string * A)) : list string := map fst d.

(* ===================================================================== *)
(** * TextColorParser ([scripts/text_color_parser.py])                    *)
(* ===================================================================== *)

Module Parser.
Import Re.

Definition ANNOTATION_TYPES : list string :=
  ["callout"; "arrow"; "highlight"; "circle"; "box"; "label"; "marker";
   "number"; "indicator"].

(** ["|".join(COLOR_PALETTE.keys())] and ["|".join(ANNOTATION_TYPES)], as
    the alternations they become inside the patterns. *)
Definition COLOR_NAMES : regex := alts (keys COLOR_PALETTE).
Definition ANNOTATION_TYPE_NAMES : regex := alts ANNOTATION_TYPES.

Definition spaces1 : regex := Plus (Cls Str.is_space).   (* \s+ *)
Definition spaces0 : regex := Star (Cls Str.is_space).   (* \s* *)
Definition digits1 : regex := Plus (Cls Str.is_digit).   (* \d+ *)

(** [\(({COLOR_NAMES})\s+({ANNOTATION_TYPE_NAMES})(?:\s+(\d+))?\)],
    compiled with [re.IGNORECASE]. *)
Definition PARENTHETICAL_PATTERN : regex :=
  seqs [ Chr "("; Group 1 COLOR_NAMES; spaces1; Group 2 ANNOTATION_TYPE_NAMES;
         Opt (Seq spaces1 (Group 3 digits1)); Chr ")" ].

(** [(?:the|see|click|select)\s+({COLOR_NAMES})\s+({ANNOTATION_TYPE_NAMES})(?:\s+(\d+))?],
    compiled with [re.IGNORECASE]. *)
Definition INLINE_PATTERN : regex :=
  seqs [ alts ["the"; "see"; "click"; "select"]; spaces1; Group 1 COLOR_NAMES;
         spaces1; Group 2 ANNOTATION_TYPE_NAMES;
         Opt (Seq spaces1 (Group 3 digits1)) ].

(** [({ANNOTATION_TYPE_NAMES})\s+(\d+)\s*\(({COLOR_NAMES})\)],
    compiled with [re.IGNORECASE]. *)
Definition NUMBER_FIRST_PATTERN : regex :=
  seqs [ Group 1 ANNOTATION_TYPE_NAMES; spaces1; Group 2 digits1; spaces0;
         Chr "("; Group 3 COLOR_NAMES; Chr ")" ].

(** [(?:\()?[Ff]igure\s+(\d+)(?:\))?], case-sensitive. *)
Definition FIGURE_REF_PATTERN : regex :=
  seqs [ Opt (Chr "(");
         Cls (fun c => Ascii.eqb c "F" || Ascii.eqb c "f"); lit "igure";
         spaces1; Group 1 digits1; Opt (Chr ")") ].

(** [CIRCLED_NUMBERS]: the glyphs U+2460 to U+2469, as UTF-8. *)
Definition CIRCLED_NUMBERS : list (string * Z) :=
  [ ("①", 1); ("②", 2); ("③", 3); ("④", 4); ("⑤", 5);
    ("⑥", 6); ("⑦", 7); ("⑧", 8); ("⑨", 9); ("⑩", 10) ].

(** [([①②③④⑤⑥⑦⑧⑨⑩])] *)
Definition CIRCLED_PATTERN : regex :=
  Group 1 (alts (keys CIRCLED_NUMBERS)).

(** A reference dictionary of [self.references]. *)
Record color_ref : Type := ColorRef {
  ref_color : string;
  ref_hex : string;
  ref_annotation_type : string;
  ref_number : option Z;
  ref_line : Z;
  ref_figure : option Z;
  ref_pattern : string;
  ref_context : string
}.

Record TextColorParser : Type := TCP {
  references : list color_ref;
  by_figure : gmap Z (list color_ref);
  current_figure : option Z
}.

(** [rf"\b{color}\b"] with [re.IGNORECASE] *)
Definition color_word (color : string) : regex :=
  seqs [WordBoundary; lit color; WordBoundary].

Fixpoint find_first_color (colors : list string) (text : string) : option string :=
  match colors with
  | [] => None
  | color :: rest =>
      match search true (color_word color) text with
      | Some _ => Some color
      | None => find_first_color rest text
      end
  end.

Definition _find_color_context (text : string) : option string :=
  find_first_color (keys COLOR_PALETTE) text.

Definition _add_reference (self : TextColorParser)
    (color annotation_type : string) (number : option Z) (line_num : Z)
    (pattern_type context : string) : TextColorParser :=
  let color_lower := Str.lower color in
  let ref :=
    {| ref_color := color_lower;
       ref_hex := get (assoc color_lower COLOR_PALETTE) "#154747";
       ref_annotation_type := Str.lower annotation_type;
       ref_number := number;
       ref_line := line_num;
       ref_figure := current_figure self;
       ref_pattern := pattern_type;
       ref_context :=
         if (100 <? Str.len context)%nat
         then Str.take_chars 100 context +:+ "..."
         else context |} in
  let references := references self ++ [ref] in
  let by_figure :=
    if truthy_int (current_figure self) then
      let fig := get (current_figure self) 0 in
      <[fig := get (by_figure self !! fig) [] ++ [ref]]> (by_figure self)
    else by_figure self in
  TCP references by_figure (current_figure self).

(** [int(m.group(n)) if m.group(n) else None] *)
Definition group_int (line : string) (m : rmatch) (n : nat) : option Z :=
  match group line m n with
  | Some digits => if String.eqb digits "" then None else Some (Str.int_of_digits digits)
  | None => None
  end.

(** [m.group(n)] of a group that always takes part in a match. *)
Definition group_str (line : string) (m : rmatch) (n : nat) : string :=
  get (group line m n) "".

Definition _parse_line (self : TextColorParser) (line : string) (line_num : Z)
  : TextColorParser :=
  (* figure context *)
  let self :=
    match search false FIGURE_REF_PATTERN line with
    | Some figure_match =>
        TCP (references self) (by_figure self)
            (Some (Str.int_of_digits (group_str line figure_match 1)))
    | None => self
    end in
  (* "(red callout 1)" *)
  let self :=
    fold_left
      (fun self m =>
         _add_reference self (group_str line m 1) (group_str line m 2)
           (group_int line m 3) line_num "parenthetical" (Str.strip line))
      (finditer true PARENTHETICAL_PATTERN line) self in
  (* "the red arrow" *)
  let self :=
    fold_left
      (fun self m =>
         _add_reference self (group_str line m 1) (group_str line m 2)
           (group_int line m 3) line_num "inline" (Str.strip line))
      (finditer true INLINE_PATTERN line) self in
  (* "callout 1 (red)" *)
  let self :=
    fold_left
      (fun self m =>
         _add_reference self (group_str line m 3) (group_str line m 1)
           (Some (Str.int_of_digits (group_str line m 2)))
           line_num "number_first" (Str.strip line))
      (finditer true NUMBER_FIRST_PATTERN line) self in
  (* circled numbers with a colour word before them *)
  fold_left
    (fun self m =>
       let circled := group_str line m 1 in
       let num := assoc circled CIRCLED_NUMBERS in
       if truthy_int num then
         let before := Str.slice 0 (m_start m) line in
         match _find_color_context before with
         | Some color_context =>
             if String.eqb color_context "" then self
             else _add_reference self color_context "callout" num line_num
                    "circled" (Str.strip line)
         | None => self
         end
       else self)
    (finditer false CIRCLED_PATTERN line) self.

(** The loop of [parse_text] over [enumerate(lines, 1)]. *)
Fixpoint parse_lines (self : TextColorParser) (lines : list string) (line_num : Z)
  : TextColorParser :=
  match lines with
  | [] => self
  | line :: rest => parse_lines (_parse_line self line line_num) rest (line_num + 1)
  end.

Definition parse_text (self : TextColorParser) (text : string) : TextColorParser :=
  let self := TCP [] ∅ None in
  parse_lines self (Str.split "010" text) 1.

(** [TextColorParser()] *)
Definition new_parser : TextColorParser := TCP [] ∅ None.

(** The body of the loop of [get_expected_colors]. *)
Definition expected_step (result : gmap Z (gmap Z string)) (ref : color_ref)
  : gmap Z (gmap Z string) :=
  if truthy_int (ref_figure ref) && truthy_int (ref_number ref) then
    let fig := get (ref_figure ref) 0 in
    let inner := get (result !! fig) ∅ in
    <[fig := <[get (ref_number ref) 0 := ref_color ref]> inner]> result
  else result.

Definition expected_colors_of (refs : list color_ref) : gmap Z (gmap Z string) :=
  fold_left expected_step refs ∅.

(** [get_expected_colors]: [figure -> {number -> colour}]. *)
Definition get_expected_colors (self : TextColorParser) : gmap Z (gmap Z string) :=
  expected_colors_of (references self).

End Parser.

(* ===================================================================== *)
(** * FigureRegistry                                                      *)
(* ===================================================================== *)

(** A value of [annotation_colors]: [{"color_name", "hex", "type"}]. *)
Record color_entry : Type := ColorEntry {
  color_name : string;
  hex : string;
  entry_type : string
}.

(** An entry of [callouts_for_text]. *)
Record callout_text : Type := CalloutText {
  ct_number : Z;
  ct_color : string;
  ct_description : string;
  ct_inline_reference : string
}.

(** A legend entry [{number, hex, text}], passed through unchanged. *)
Record legend_item : Type := LegendItem {
  leg_number : Z;
  leg_hex : string;
  leg_text : string
}.

(** The dictionary [figure_data] of one registered figure. *)
Record figure_data : Type := FigureData {
  figure_number : Z;
  source_image : string;
  annotated_image : string;
  fig_title : string;
  fig_description : string;
  step_reference : string;
  fig_annotations : list annotation;
  legend : list legend_item;
  callouts_for_text : list callout_text;
  dimensions : option (Z * Z);
  section : string;
  fig_color_map : gmap Z color_entry
}.

Record FigureRegistry : Type := Registry {
  figures : list figure_data;
  _next_number : Z;
  color_map : gmap Z (gmap Z color_entry)
}.

(** [FigureRegistry()] *)
Definition new_registry : FigureRegistry := Registry [] 1 ∅.

(** The loop of the hex branch: the first palette name whose hex value,
    lower-cased, is [color_lower]. *)
Fixpoint find_hex (color_lower : string) (palette : list (string * string)) : option string :=
  match palette with
  | [] => None
  | (name, hex_val) :: rest =>
      if String.eqb (Str.lower hex_val) color_lower then Some name
      else find_hex color_lower rest
  end.

Definition _normalize_color (color : string) : string :=
  if String.eqb color "" then "teal"
  else
    let color_lower := Str.strip (Str.lower color) in
    if Str.startswith "#" color_lower then
      match find_hex color_lower COLOR_PALETTE with
      | Some name => name
      | None => color_lower
      end
    else if has_key color_lower COLOR_PALETTE then color_lower else "teal".

(** [a or b] for an optional string [a]. *)
Definition or_str (a : option string) (b : string) : string :=
  if truthy_str a then get a "" else b.

(** The first loop of [add_figure]. *)
Fixpoint collect_colors (annotations : list annotation)
    (annotation_colors : gmap Z color_entry)
    (first_ann_desc first_ann_title : option string)
  : gmap Z color_entry * option string * option string :=
  match annotations with
  | [] => (annotation_colors, first_ann_desc, first_ann_title)
  | ann :: rest =>
      let annotation_colors :=
        match ann_number ann with
        | Some number =>
            let color := get (ann_color ann) "teal" in
            let color_name := _normalize_color color in
            <[number := ColorEntry color_name
                          (get (assoc color_name COLOR_PALETTE) color)
                          (get (ann_type ann) "callout")]> annotation_colors
        | None => annotation_colors
        end in
      let first_ann_desc :=
        if negb (truthy_str first_ann_desc) && truthy_str (ann_description ann)
        then ann_description ann else first_ann_desc in
      let first_ann_title :=
        if negb (truthy_str first_ann_title) && truthy_str (ann_figure_title ann)
        then ann_figure_title ann else first_ann_title in
      collect_colors rest annotation_colors first_ann_desc first_ann_title
  end.

Definition display_names : list (string * string) :=
  [ ("critical", "red"); ("warning", "gold"); ("info", "blue");
    ("success", "green"); ("primary", "teal") ].

(** The second loop of [add_figure]. *)
Fixpoint collect_callouts (annotations : list annotation) : list callout_text :=
  match annotations with
  | [] => []
  | ann :: rest =>
      match ann_type ann, ann_number ann with
      | Some ty, Some number =>
          if String.eqb ty "callout" && negb (number =? 0) then
            let color_name := _normalize_color (get (ann_color ann) "teal") in
            let display_color := get (assoc color_name display_names) color_name in
            CalloutText number display_color
              (get (ann_description ann) ("Action " +:+ Py.str number))
              ("(callout " +:+ Py.str number +:+ ")")
              :: collect_callouts rest
          else collect_callouts rest
      | _, _ => collect_callouts rest
      end
  end.

(** [list.sort(key=lambda x: x["number"])]: a stable sort. *)
Fixpoint insert_by_number (c : callout_text) (l : list callout_text) : list callout_text :=
  match l with
  | [] => [c]
  | d :: l' =>
      if ct_number c <? ct_number d then c :: l
      else d :: insert_by_number c l'
  end.

Definition sort_by_number (l : list callout_text) : list callout_text :=
  fold_left (fun acc c => insert_by_number c acc) l [].

Definition add_figure (self : FigureRegistry)
    (source_path annotated_path : string) (annotations : list annotation)
    (legend_items : option (list legend_item)) (dimensions : option (Z * Z))
    (section title description step_reference : option string)
  : Z * FigureRegistry :=
  let figure_num := _next_number self in
  let next := _next_number self + 1 in
  let '(annotation_colors, first_ann_desc, first_ann_title) :=
    collect_colors annotations ∅ None None in
  let color_map :=
    if decide (annotation_colors = ∅) then color_map self
    else <[figure_num := annotation_colors]> (color_map self) in
  let final_title :=
    or_str title (or_str first_ann_title ("Figure " +:+ Py.str figure_num)) in
  let final_description :=
    or_str description (or_str first_ann_desc "Screenshot") in
  let callouts := sort_by_number (collect_callouts annotations) in
  let figure_data :=
    {| figure_number := figure_num;
       source_image := source_path;
       annotated_image := annotated_path;
       fig_title := final_title;
       fig_description := final_description;
       step_reference := or_str step_reference "";
       fig_annotations := annotations;
       legend := get legend_items [];
       callouts_for_text := callouts;
       dimensions := dimensions;
       section := or_str section "Uncategorized";
       fig_color_map := annotation_colors |} in
  (figure_num, Registry (figures self ++ [figure_data]) next color_map).

(** The dictionary [to_json] returns. *)
Record registry_json : Type := RegistryJson {
  j_figures : list figure_data;
  j_total_count : Z;
  j_color_map : gmap Z (gmap Z color_entry);
  j_color_palette : list (string * string);
  j_generated_by : string
}.

Definition to_json (self : FigureRegistry) : registry_json :=
  {| j_figures := figures self;
     j_total_count := Z.of_nat (length (figures self));
     j_color_map := color_map self;
     j_color_palette := COLOR_PALETTE;
     j_generated_by := "TFCU Screenshot Annotation Pipeline v4.3.2" |}.

(** ** The registry file

    [save] writes [to_json()] with [json.dump]; a consumer reads it back
    with [json.load]. JSON object keys are strings: [json.dump] writes an
    [int] key [n] as [str(n)], and [json.load] returns dictionaries keyed by
    those strings. Strings and ints as values come back unchanged. *)

(** A dictionary key as Python sees it. *)
Inductive pykey : Type :=
| KInt (n : Z)
| KStr (s : string).

Global Instance pykey_eq_dec : EqDecision pykey.
Proof. solve_decision. Defined.

Global Instance pykey_countable : Countable pykey.
Proof.
  refine (inj_countable'
            (fun k => match k with KInt n => inl n | KStr s => inr s end)
            (fun x => match x with inl n => KInt n | inr s => KStr s end) _).
  intros []; reflexivity.
Defined.

(** An int-keyed dictionary as the Python object it is. *)
Definition py_dict {A : Type} (d : gmap Z A) : gmap pykey A := kmap KInt d.

(** The same dictionary after [json.dump] and [json.load]. *)
Definition json_key (n : Z) : pykey := KStr (Py.str n).

Definition json_dict {A : Type} (d : gmap Z A) : gmap pykey A := kmap json_key d.

(** What a consumer holds of a registry: the [total_count] and
    [color_map] entries of the dictionary. *)
Record registry_view : Type := RegistryView {
  total_count : Z;
  view_color_map : gmap pykey (gmap pykey color_entry)
}.

(** The dictionary [to_json()] itself. *)
Definition in_memory (j : registry_json) : registry_view :=
  RegistryView (j_total_count j) (py_dict (py_dict <$> j_color_map j)).

(** [save(path)] followed by [json.load] of the file. *)
Definition save_and_load (self : FigureRegistry) : registry_view :=
  let j := to_json self in
  RegistryView (j_total_count j) (json_dict (json_dict <$> j_color_map j)).

(* ===================================================================== *)
(** * ColorConsistencyValidator ([scripts/validate_procedure.py])         *)
(* ===================================================================== *)

Definition COLOR_EQUIVALENTS : list (string * list string) :=
  [ ("red", ["red"; "critical"]);
    ("critical", ["red"; "critical"]);
    ("blue", ["blue"; "info"]);
    ("info", ["blue"; "info"]);
    ("gold", ["gold"; "warning"; "yellow"]);
    ("warning", ["gold"; "warning"; "yellow"]);
    ("yellow", ["gold"; "warning"; "yellow"]);
    ("green", ["green"; "success"]);
    ("success", ["green"; "success"]);
    ("teal", ["teal"; "primary"]);
    ("primary", ["teal"; "primary"]);
    ("purple", ["purple"]);
    ("orange", ["orange"]) ].

Definition _colors_match (expected actual : string) : bool :=
  let expected_lower := Str.lower expected in
  let actual_lower := Str.lower actual in
  if String.eqb expected_lower actual_lower then true
  else
    let expected_equiv := get (assoc expected_lower COLOR_EQUIVALENTS) [expected_lower] in
    str_in actual_lower expected_equiv.

(** The test of [_colors_match] on names already lower-cased. *)
Definition match_lowered (el al : string) : bool :=
  if String.eqb el al then true
  else str_in al (get (assoc el COLOR_EQUIVALENTS) [el]).

(** The lookups of [validate] in a loaded [color_map]:
    [actual_colors = color_map.get(str(fig_num), color_map.get(fig_num, {}))]
    then [actual_colors.get(str(ann_num), actual_colors.get(ann_num))]. *)
Definition lookup_actual (color_map : gmap pykey (gmap pykey color_entry))
    (fig_num ann_num : Z) : option color_entry :=
  let actual_colors :=
    get (color_map !! KStr (Py.str fig_num)) (get (color_map !! KInt fig_num) ∅) in
  match actual_colors !! KStr (Py.str ann_num) with
  | Some actual => Some actual
  | None => actual_colors !! KInt ann_num
  end.

(** The equivalence classes of the specification: palette names that share
    one hex value. *)
Definition equivalence_classes : list (list string) :=
  [ ["red"; "critical"];
    ["blue"; "info"];
    ["gold"; "warning"; "yellow"];
    ["green"; "success"];
    ["teal"; "primary"];
    ["purple"];
    ["orange"] ].

(** The comparison as the specification words it: identical, ignoring
    case, or co-members of one equivalence class. *)
Definition colors_match_spec (expected actual : string) : Prop :=
  Str.lower expected = Str.lower actual
  \/ exists cls, In cls equivalence_classes
                 /\ In (Str.lower expected) cls /\ In (Str.lower actual) cls.

(* ===================================================================== *)
(** * Predicates of the specification                                     *)
(* ===================================================================== *)

(** The bounds a placed annotation is to respect on the horizontal and on
    the vertical axis. *)
Definition x_within (self : AnnotationValidator) (p : placed) : Prop :=
  margin self <= placed_x p - placed_radius p
  /\ placed_x p + placed_radius p <= width self - margin self.

Definition y_within (self : AnnotationValidator) (p : placed) : Prop :=
  margin self <= placed_y p - placed_radius p
  /\ placed_y p + placed_radius p <= height self - margin self.

Definition within_bounds (self : AnnotationValidator) (p : placed) : Prop :=
  x_within self p /\ y_within self p.

(** The centre [validate_and_adjust] holds after its bounds check: the
    original one when it is in bounds, the clamped one otherwise. *)
Definition after_bounds (self : AnnotationValidator) (x y radius : Z) : Z * Z :=
  if fst (check_bounds self x y radius) then (x, y)
  else clamp_to_bounds x y radius (width self) (height self) (margin self).

(** The descriptor lacks the description its type requires. *)
Definition missing_description (ann : annotation) : bool :=
  negb (truthy_str (ann_description ann))
  && str_in (get (ann_type ann) "callout") ["callout"; "arrow"; "highlight"].

(** A callout descriptor at the centre of the canvas; the remaining keys
    are free. *)
Definition centre_callout (number : Z) (description color : option string) : annotation :=
  {| ann_type := Some "callout";
     ann_position := Some (Position (Some (Py.NInt 50)) (Some (Py.NInt 50)));
     ann_end := None;
     ann_bbox := None;
     ann_radius := None;
     ann_text := None;
     ann_description := description;
     ann_number := Some number;
     ann_color := color;
     ann_figure_title := None |}.

(** A highlight band across the whole width of the image. *)
Definition full_width_highlight : annotation :=
  {| ann_type := Some "highlight";
     ann_position := None;
     ann_end := None;
     ann_bbox := Some (Bbox (Some (Py.NInt 0)) (Some (Py.NInt 40))
                            (Some (Py.NInt 100)) (Some (Py.NInt 20)));
     ann_radius := None;
     ann_text := None;
     ann_description := Some "Header band";
     ann_number := None;
     ann_color := None;
     ann_figure_title := None |}.

Definition newline : string := String "010" EmptyString.

(** ["Figure 1\nClick the (red callout 1) button.\nFigure 2\n(blue arrow 2) shows..."] *)
Definition sample_text : string :=
  "Figure 1" +:+ newline +:+ "Click the (red callout 1) button." +:+ newline
  +:+ "Figure 2" +:+ newline +:+ "(blue arrow 2) shows...".

(** No figure heading on the first [n] lines. *)
Definition no_heading_in_first (n : nat) (lines : list string) : Prop :=
  Forall (fun line => Re.search false Parser.FIGURE_REF_PATTERN line = None)
         (take n lines).

(** The bounds, claimed on each axis that is long enough to hold the
    annotation with its margins. *)
Definition within_when_fits (self : AnnotationValidator) (p : placed) : Prop :=
  (2 * (placed_radius p + margin self) <= width self -> x_within self p)
  /\ (2 * (placed_radius p + margin self) <= height self -> y_within self p).

(** The registry with one figure that carries one numbered callout. *)
Definition one_callout_registry : FigureRegistry :=
  snd (add_figure new_registry "login.png" "login_annotated.png"
         [centre_callout 1 (Some "Sign in") (Some "red")]
         None None None None None None).

(** ["(red callout 1)"] on the line above ["Figure 1"]. *)
Definition early_reference_text : string :=
  "Press the (red callout 1) key." +:+ newline +:+ "Figure 1" +:+ newline
  +:+ "(blue arrow 2) shows...".

Section ParserPredicates.
Import Parser.

(** Every list of [by_figure] holds references of its own figure, and no
    list is kept for figure 0. *)
Definition by_figure_ok (self : TextColorParser) : Prop :=
  forall f l r, by_figure self !! f = Some l -> In r l ->
                ref_figure r = Some f /\ f <> 0.

(** While one line is parsed: the figure stays [cf], and the references
    added to those of [start] are of this line and of figure [cf]. *)
Definition parsing_line (start : TextColorParser) (cf : option Z) (line_num : Z)
    (self : TextColorParser) : Prop :=
  current_figure self = cf
  /\ (exists new, references self = references start ++ new
                  /\ Forall (fun r => ref_line r = line_num /\ ref_figure r = cf) new)
  /\ by_figure_ok self.

(** The figure a line is parsed under: the one of its own heading, if it
    has one, the current one otherwise. *)
Definition figure_for (self : TextColorParser) (line : string) : option Z :=
  match Re.search false FIGURE_REF_PATTERN line with
  | Some m => Some (Str.int_of_digits (group_str line m 1))
  | None => current_figure self
  end.

(** The dictionary [ref] that [_add_reference] builds and appends, under
    the current figure [cf]. *)
Definition reference_of (cf : option Z) (color annotation_type : string)
    (number : option Z) (line_num : Z) (pattern_type context : string) : color_ref :=
  {| ref_color := Str.lower color;
     ref_hex := get (assoc (Str.lower color) COLOR_PALETTE) "#154747";
     ref_annotation_type := Str.lower annotation_type;
     ref_number := number;
     ref_line := line_num;
     ref_figure := cf;
     ref_pattern := pattern_type;
     ref_context :=
       if (100 <? Str.len context)%nat
       then Str.take_chars 100 context +:+ "..."
       else context |}.

(** What the circled number matched by [m] is recorded as: nothing when
    no colour word stands before it on the line. *)
Definition circled_reference (cf : option Z) (line : string) (line_num : Z)
    (m : Re.rmatch) : list color_ref :=
  let num := assoc (group_str line m 1) CIRCLED_NUMBERS in
  if truthy_int num then
    match _find_color_context (Str.slice 0 (Re.m_start m) line) with
    | Some color_context =>
        if String.eqb color_context "" then []
        else [reference_of cf color_context "callout" num line_num "circled"
                (Str.strip line)]
    | None => []
    end
  else [].

(** The references matched on one line, read under the figure [cf]: one
    for every match of each of the four patterns, pattern after pattern,
    the matches of one pattern from left to right. *)
Definition line_references (cf : option Z) (line : string) (line_num : Z)
  : list color_ref :=
  map (fun m => reference_of cf (group_str line m 1) (group_str line m 2)
                  (group_int line m 3) line_num "parenthetical" (Str.strip line))
      (Re.finditer true PARENTHETICAL_PATTERN line)
  ++ map (fun m => reference_of cf (group_str line m 1) (group_str line m 2)
                     (group_int line m 3) line_num "inline" (Str.strip line))
       (Re.finditer true INLINE_PATTERN line)
  ++ map (fun m => reference_of cf (group_str line m 3) (group_str line m 1)
                     (Some (Str.int_of_digits (group_str line m 2)))
                     line_num "number_first" (Str.strip line))
       (Re.finditer true NUMBER_FIRST_PATTERN line)
  ++ flat_map (circled_reference cf line line_num)
       (Re.finditer false CIRCLED_PATTERN line).

(** The state after the first [n] lines. *)
Definition parsed (lines : list string) (n : nat) (self : TextColorParser) : Prop :=
  (forall r, In r (references self) ->
             1 <= ref_line r <= Z.of_nat n
             /\ (no_heading_in_first (Z.to_nat (ref_line r)) lines ->
                 ref_figure r = None))
  /\ (no_heading_in_first n lines -> current_figure self = None)
  /\ by_figure_ok self.

End ParserPredicates.

(* ===================================================================== *)
(** * Further code of the three files                                     *)
(* ===================================================================== *)

(** The centre and the radius [draw_callout] draws its circle with: the
    statements of the function before the first drawing call, for a
    [position] that has both keys. [adjusted_position], when given, is the
    pixel position computed beforehand. *)
Definition draw_callout_centre (image_width image_height : Z)
    (x_percent y_percent : Py.num) (adjusted_position : option (Z * Z))
  : Py.result (Z * Z * Z) :=
  radius <- calculate_dynamic_radius image_width ;;
  match adjusted_position with
  | Some (x, y) => Py.Ok (x, y, radius)
  | None =>
      x <- percent_to_pixels x_percent image_width ;;
      y <- percent_to_pixels y_percent image_height ;;
      let '(x, y) := clamp_to_bounds x y radius image_width image_height 5 in
      Py.Ok (x, y, radius)
  end.

(** The canvas can hold an annotation of this radius with its margins. *)
Definition fits (self : AnnotationValidator) (radius : Z) : Prop :=
  2 * (radius + margin self) <= width self
  /\ 2 * (radius + margin self) <= height self.

(** A summary with another [total]. *)
Definition with_total (total : Z) (results : summary) : summary :=
  Summary (sum_annotations results) total (sum_valid results)
    (sum_adjusted results) (sum_errors results) (sum_all_valid results).

(** The type a descriptor is registered under. *)
Definition type_of (ann : annotation) : string := get (ann_type ann) "callout".

(** What [check_collision] records about one placed annotation. *)
Definition collision_record_ok (radius min_gap : Z) (c : collision) : Prop :=
  col_required c = radius + placed_radius (col_placed c) + min_gap
  /\ Py.float_lt_int (col_distance c) (col_required c) = true
  /\ Py.sub_int_float (col_required c) (col_distance c) = Py.Ok (col_overlap c).


(** The number of elements of [l] that satisfy [f], as an [int]. *)
Definition count {A : Type} (f : A -> bool) (l : list A) : Z :=
  Z.of_nat (length (List.filter f l)).

(** The results of [validate_all], without their index and descriptor. *)
Definition results_of (s : summary) : list validation :=
  map iv_result (sum_annotations s).

(* ===================================================================== *)
(** * hex_to_rgb, hex_to_rgba                                             *)
(* ===================================================================== *)

Module Hex.

(** The value of a hexadecimal digit, [None] for another character. *)
Definition digit (c : ascii) : option Z :=
  let n := Str.code c in
  if Str.is_digit c then Some (Z.of_nat (n - 48))
  else if ((97 <=? n) && (n <=? 102))%nat then Some (Z.of_nat (n - 87))
  else if ((65 <=? n) && (n <=? 70))%nat then Some (Z.of_nat (n - 55))
  else None.

(** The value of a string of hexadecimal digits. *)
Fixpoint digits_acc (acc : Z) (s : string) : option Z :=
  match s with
  | EmptyString => Some acc
  | String c s' =>
      match digit c with
      | Some d => digits_acc (16 * acc + d) s'
      | None => None
      end
  end.

(** The blanks [int] skips around an ASCII numeral: tab to carriage return
    and the space. *)
Definition is_blank (c : ascii) : bool :=
  let n := Str.code c in ((9 <=? n) && (n <=? 13) || (n =? 32))%nat.

Fixpoint lskip (s : string) : string :=
  match s with
  | EmptyString => EmptyString
  | String c s' => if is_blank c then lskip s' else s
  end.

Fixpoint rskip (s : string) : string :=
  match s with
  | EmptyString => EmptyString
  | String c s' =>
      match rskip s' with
      | EmptyString => if is_blank c then EmptyString else String c EmptyString
      | t => String c t
      end
  end.

(** [int(s, 16)] for a string [s] of at most two characters: blanks
    around, an optional sign, then digits only (two characters leave no
    room for a [0x] prefix or an underscore between digits). *)
Definition int16 (s : string) : Py.result Z :=
  let numeral (t : string) : option Z :=
    match t with
    | EmptyString => None
    | _ => digits_acc 0 t
    end in
  let signed :=
    match rskip (lskip s) with
    | String "+" t => numeral t
    | String "-" t => option_map Z.opp (numeral t)
    | t => numeral t
    end in
  match signed with
  | Some n => Py.Ok n
  | None => Py.Raise Py.ValueError
  end.

(** [s.lstrip("#")] *)
Fixpoint lstrip_hash (s : string) : string :=
  match s with
  | String "#" s' => lstrip_hash s'
  | _ => s
  end.

End Hex.

(** [hex_color = hex_color.lstrip("#");
     return tuple(int(hex_color[i : i + 2], 16) for i in (0, 2, 4))] *)
Definition hex_to_rgb (hex_color : string) : Py.result (Z * Z * Z) :=
  let hex_color := Hex.lstrip_hash hex_color in
  r <- Hex.int16 (String.substring 0 2 hex_color) ;;
  g <- Hex.int16 (String.substring 2 2 hex_color) ;;
  b <- Hex.int16 (String.substring 4 2 hex_color) ;;
  Py.Ok (r, g, b).

(** [rgb = hex_to_rgb(hex_color)], then the tuple of [rgb] followed by
    [alpha]. *)
Definition hex_to_rgba (hex_color : string) (alpha : Z) : Py.result (Z * Z * Z * Z) :=
  rgb <- hex_to_rgb hex_color ;;
  let '(r, g, b) := rgb in
  Py.Ok (r, g, b, alpha).

(* ===================================================================== *)
(** * AnnotationColorManager                                              *)
(* ===================================================================== *)

Module ColorManager.

(** An entry of [PALETTE]. *)
Record palette_entry : Type := PaletteEntry {
  pe_name : string;
  pe_hex : string;
  pe_rgb : Z * Z * Z;
  pe_desc : string
}.

Definition PALETTE : list palette_entry :=
  [ PaletteEntry "critical" "#C00000" (192, 0, 0) "Primary action";
    PaletteEntry "info" "#2E74B5" (46, 116, 181) "Informational";
    PaletteEntry "warning" "#FFC000" (255, 192, 0) "Caution";
    PaletteEntry "success" "#548235" (84, 130, 53) "Confirmation";
    PaletteEntry "primary" "#154747" (21, 71, 71) "Navigation";
    PaletteEntry "purple" "#7030A0" (112, 48, 160) "Optional";
    PaletteEntry "orange" "#ED7D31" (237, 125, 49) "Alternative" ].

(** A value of [assigned]: a copy of a palette entry with the keys [text]
    and [element_id] added. *)
Record color : Type := Color {
  col_entry : palette_entry;
  col_text : string;
  col_element_id : string
}.

(** [assigned] is kept in insertion order, which [get_legend_entries]
    observes. *)
Record AnnotationColorManager : Type := Manager {
  assigned : list (string * color);
  next_index : Z
}.

(** [AnnotationColorManager()] *)
Definition new_manager : AnnotationColorManager := Manager [] 0.

(** The loop over [PALETTE] that looks for the suggested name. *)
Fixpoint find_name (name : string) (palette : list palette_entry) : option palette_entry :=
  match palette with
  | [] => None
  | entry :: rest =>
      if String.eqb (pe_name entry) name then Some entry else find_name name rest
  end.

(** [PALETTE[i]] for an index inside the list. *)
Definition palette_at (i : Z) : palette_entry :=
  nth (Z.to_nat i) PALETTE (PaletteEntry "" "" (0, 0, 0) "").

Definition assign (self : AnnotationColorManager)
    (element_id : string) (suggested_color : option string) (description_text : string)
  : color * AnnotationColorManager :=
  match assoc element_id (assigned self) with
  | Some c => (c, self)
  | None =>
      let suggested :=
        if truthy_str suggested_color
        then find_name (get suggested_color "") PALETTE
        else None in
      let '(entry, next) :=
        match suggested with
        | Some entry => (entry, next_index self)
        | None =>
            (palette_at (next_index self mod Z.of_nat (length PALETTE)),
             next_index self + 1)
        end in
      let c := Color entry description_text element_id in
      (c, Manager (assigned self ++ [(element_id, c)]) next)
  end.

(** [get_color] *)
Definition get_color (self : AnnotationColorManager) (element_id : string) : option color :=
  assoc element_id (assigned self).

(** An entry of the list [get_legend_entries] returns. *)
Record legend_entry : Type := LegendEntry {
  le_number : Z;
  le_element_id : string;
  le_hex : string;
  le_rgb : Z * Z * Z;
  le_name : string;
  le_text : string
}.

Fixpoint legend_from (i : Z) (items : list (string * color)) : list legend_entry :=
  match items with
  | [] => []
  | (element_id, c) :: rest =>
      LegendEntry i element_id (pe_hex (col_entry c)) (pe_rgb (col_entry c))
        (pe_name (col_entry c)) (col_text c)
        :: legend_from (i + 1) rest
  end.

(** [get_legend_entries]: [enumerate(self.assigned.items(), 1)]. *)
Definition get_legend_entries (self : AnnotationColorManager) : list legend_entry :=
  legend_from 1 (assigned self).

(** [reset] *)
Definition reset (self : AnnotationColorManager) : AnnotationColorManager :=
  Manager [] 0.


(** What holds of every manager built by [assign] from a new one: the
    keys of [assigned] are distinct, each value is a palette entry filed
    under its own [element_id], and [next_index] is not negative. *)
Definition manager_ok (self : AnnotationColorManager) : Prop :=
  NoDup (map fst (assigned self))
  /\ Forall (fun kv => col_element_id (snd kv) = fst kv
                       /\ In (col_entry (snd kv)) PALETTE) (assigned self)
  /\ 0 <= next_index self.

End ColorManager.

(** [ann.get("type") == "callout"] *)
Definition is_callout (ann : annotation) : bool :=
  match ann_type ann with
  | Some ty => String.eqb ty "callout"
  | None => false
  end.

(* ===================================================================== *)
(** * The parser over a whole text                                        *)
(* ===================================================================== *)

Section ParserAsAWhole.
Import Parser.

(** The number on the figure heading of a line, if the line has one. *)
Definition heading_number (line : string) : option Z :=
  match Re.search false FIGURE_REF_PATTERN line with
  | Some m => Some (Str.int_of_digits (group_str line m 1))
  | None => None
  end.

(** The figure in force at the end of [lines]: the number on the last
    heading among them. *)
Definition figure_at (lines : list string) : option Z :=
  last (omap heading_number lines).

(** The references of figure [f], in the order of the list. *)
Definition of_figure (f : Z) (refs : list color_ref) : list color_ref :=
  List.filter (fun r => bool_decide (ref_figure r = Some f)) refs.

(** The references to annotation [n] of figure [f]. *)
Definition numbered (f n : Z) (refs : list color_ref) : list color_ref :=
  List.filter
    (fun r => bool_decide (ref_figure r = Some f /\ ref_number r = Some n)) refs.

(** [by_figure] holds, under every figure other than 0 that has
    references, exactly those references in their order. *)
Definition grouped (self : TextColorParser) : Prop :=
  forall f,
    by_figure self !! f
    = match of_figure f (references self) with
      | [] => None
      | l => if bool_decide (f = 0) then None else Some l
      end.

(** [r] is the record of a match on one of [lines], read under the figure
    in force on that line. *)
Definition matched (lines : list string) (r : color_ref) : Prop :=
  exists (n : nat) line,
    lines !! n = Some line
    /\ In r (line_references (figure_at (take (S n) lines)) line (Z.of_nat n + 1)).

(** The state after the lines [done]. *)
Definition read (done : list string) (self : TextColorParser) : Prop :=
  current_figure self = figure_at done
  /\ (forall r, In r (references self) <-> matched done r)
  /\ StronglySorted Z.le (map ref_line (references self))
  /\ Forall (fun r => ref_line r <= Z.of_nat (length done)) (references self).

End ParserAsAWhole.

(* ===================================================================== *)
(** * FigureRegistry: look-ups, and the registries the class builds      *)
(* ===================================================================== *)

(** [get_figure]: the first figure with this number. *)
Definition get_figure (self : FigureRegistry) (figure_num : Z) : option figure_data :=
  List.find (fun fig => figure_number fig =? figure_num) (figures self).

(** [get_figures_by_section] *)
Definition get_figures_by_section (self : FigureRegistry) (section_name : string)
  : list figure_data :=
  List.filter (fun fig => String.eqb (section fig) section_name) (figures self).

(** [__len__] *)
Definition registry_len (self : FigureRegistry) : Z :=
  Z.of_nat (length (figures self)).

(** The registries obtained from [FigureRegistry()] by calls of
    [add_figure]. *)
Inductive built : FigureRegistry -> Prop :=
| built_new : built new_registry
| built_add self source_path annotated_path annotations legend_items dimensions
    section title description step_reference :
    built self ->
    built (snd (add_figure self source_path annotated_path annotations
                  legend_items dimensions section title description
                  step_reference)).

(** The colours a figure contributes to the registry's [color_map]: its
    own map, unless that is empty. *)
Definition colors_of_figure (fig : figure_data) : option (gmap Z color_entry) :=
  if decide (fig_color_map fig = ∅) then None else Some (fig_color_map fig).

(** What holds of every built registry. *)
Definition registry_ok (self : FigureRegistry) : Prop :=
  map figure_number (figures self) = seqZ 1 (registry_len self)
  /\ _next_number self = registry_len self + 1
  /\ forall f, color_map self !! f = get_figure self f ≫= colors_of_figure.

(** The entry [add_figure] files for a numbered descriptor. *)
Definition color_entry_of (ann : annotation) : color_entry :=
  let color := get (ann_color ann) "teal" in
  let color_name := _normalize_color color in
  ColorEntry color_name (get (assoc color_name COLOR_PALETTE) color)
    (get (ann_type ann) "callout").

(** The descriptors that carry the number [n]. *)
Definition with_number (n : Z) (annotations : list annotation) : list annotation :=
  List.filter (fun ann => bool_decide (ann_number ann = Some n)) annotations.

(** The descriptors [add_figure] turns into text callouts: type
    ["callout"] and a number other than 0. *)
Definition is_text_callout (ann : annotation) : bool :=
  is_callout ann && truthy_int (ann_number ann).

(* ===================================================================== *)
(** * ColorConsistencyValidator.validate                                  *)
(* ===================================================================== *)

Module Consistency.
Import Re.

(** A dictionary with [int] keys, in insertion order: [_parse_expected_colors]
    builds such dictionaries and [validate] walks them with [items()]. *)
Definition odict (A : Type) : Type := list (Z * A).

(** [d.get(k)] *)
Fixpoint od_get {A : Type} (k : Z) (d : odict A) : option A :=
  match d with
  | [] => None
  | (k', v) :: d' => if k' =? k then Some v else od_get k d'
  end.

(** [d[k] = v]: a key already present keeps its place, a new key goes to
    the end. *)
Fixpoint od_set {A : Type} (k : Z) (v : A) (d : odict A) : odict A :=
  match d with
  | [] => [(k, v)]
  | (k', v') :: d' => if k' =? k then (k', v) :: d' else (k', v') :: od_set k v d'
  end.

(** [ann_types] of [_parse_expected_colors]. *)
Definition ann_types : list string :=
  ["callout"; "arrow"; "highlight"; "circle"; "box"; "label"; "marker"; "number"].

(** [\(({color_names})\s+({ann_types})(?:\s+(\d+))?\)], compiled with
    [re.IGNORECASE]. *)
Definition pattern : regex :=
  seqs [ Chr "("; Group 1 (alts (keys COLOR_PALETTE)); Parser.spaces1;
         Group 2 (alts ann_types);
         Opt (Seq Parser.spaces1 (Group 3 Parser.digits1)); Chr ")" ].

(** [[Ff]igure\s+(\d+)] *)
Definition fig_pattern : regex :=
  seqs [ Cls (fun c => Ascii.eqb c "F" || Ascii.eqb c "f"); lit "igure";
         Parser.spaces1; Group 1 Parser.digits1 ].

(** The body of the inner loop of [_parse_expected_colors], for one match. *)
Definition expect (current_figure : option Z) (line : string)
    (result : odict (odict string)) (m : rmatch) : odict (odict string) :=
  let color := Str.lower (Parser.group_str line m 1) in
  let ann_num := get (Parser.group_int line m 3) 1 in
  if truthy_int current_figure then
    let fig := get current_figure 0 in
    let result :=
      match od_get fig result with
      | Some _ => result
      | None => od_set fig [] result
      end in
    od_set fig (od_set ann_num color (get (od_get fig result) [])) result
  else result.

(** The body of the loop over the lines. *)
Definition expect_line (state : odict (odict string) * option Z) (line : string)
  : odict (odict string) * option Z :=
  let '(result, current_figure) := state in
  let current_figure :=
    match search false fig_pattern line with
    | Some fig_match => Some (Str.int_of_digits (Parser.group_str line fig_match 1))
    | None => current_figure
    end in
  (fold_left (expect current_figure line) (finditer true pattern line) result,
   current_figure).

Definition _parse_expected_colors (text : string) : odict (odict string) :=
  fst (fold_left expect_line (Str.split "010" text) ([], None)).

(** An entry of [self.matches]. *)
Record match_record : Type := MatchRecord {
  mt_figure : Z;
  mt_annotation : Z;
  mt_expected : string;
  mt_actual : string
}.

(** An entry of [self.mismatches]. *)
Record mismatch_record : Type := MismatchRecord {
  mm_figure : Z;
  mm_annotation : Z;
  mm_expected : string;
  mm_expected_hex : string;
  mm_actual : string;
  mm_actual_hex : string
}.

Record ColorConsistencyValidator : Type := CCV {
  mismatches : list mismatch_record;
  matches : list match_record;
  warnings : list string
}.

(** The local [errors] goes along with the validator through the loops. *)
Definition checking : Type := ColorConsistencyValidator * list string.

Definition missing_message (fig_num ann_num : Z) (expected_color : string) : string :=
  "Figure " +:+ Py.str fig_num +:+ " annotation " +:+ Py.str ann_num
  +:+ ": Expected " +:+ expected_color
  +:+ ", but annotation not found in registry".

Definition mismatch_message (fig_num ann_num : Z) (expected_color actual_color : string)
  : string :=
  "COLOR MISMATCH: Figure " +:+ Py.str fig_num +:+ " annotation " +:+ Py.str ann_num
  +:+ ": Text says '" +:+ expected_color +:+ "' but image has '" +:+ actual_color
  +:+ "'".

(** The body of the inner loop of [validate]: one expected annotation. *)
Definition check_annotation (color_map : gmap pykey (gmap pykey color_entry))
    (fig_num : Z) (state : checking) (item : Z * string) : checking :=
  let '(self, errors) := state in
  let '(ann_num, expected_color) := item in
  match lookup_actual color_map fig_num ann_num with
  | None =>
      (CCV (mismatches self) (matches self)
           (warnings self ++ [missing_message fig_num ann_num expected_color]),
       errors)
  | Some actual =>
      let actual_color := color_name actual in
      if _colors_match expected_color actual_color then
        (CCV (mismatches self)
             (matches self
              ++ [MatchRecord fig_num ann_num expected_color actual_color])
             (warnings self),
         errors)
      else
        (CCV (mismatches self
              ++ [MismatchRecord fig_num ann_num expected_color
                    (get (assoc expected_color COLOR_PALETTE) "?")
                    actual_color (hex actual)])
             (matches self) (warnings self),
         errors
         ++ [mismatch_message fig_num ann_num expected_color actual_color])
  end.

(** The body of the outer loop: one figure. *)
Definition check_figure (color_map : gmap pykey (gmap pykey color_entry))
    (state : checking) (item : Z * odict string) : checking :=
  let '(fig_num, annotations) := item in
  fold_left (check_annotation color_map fig_num) annotations state.

(** [validate(doc_content, registry_path)]. [registry] is what the path
    holds: [None] when there is no file, else the value of
    [registry.get("color_map", {})] in the loaded file. The result is
    [(is_valid, errors, warnings)] and the validator after the call. *)
Definition validate (self : ColorConsistencyValidator) (doc_content : string)
    (registry : option (gmap pykey (gmap pykey color_entry)))
  : bool * list string * list string * ColorConsistencyValidator :=
  let self := CCV [] [] [] in
  match registry with
  | None => (true, [], ["Color validation skipped - no registry found"], self)
  | Some color_map =>
      if decide (color_map = ∅) then
        (true, [], ["Color validation skipped - no color_map in registry"], self)
      else
        let expected := _parse_expected_colors doc_content in
        match expected with
        | [] =>
            let self :=
              CCV (mismatches self) (matches self)
                  (warnings self ++ ["No color references found in document text"]) in
            (true, [], warnings self, self)
        | _ =>
            let '(self, errors) := fold_left (check_figure color_map) expected (self, []) in
            (Z.of_nat (length errors) =? 0, errors, warnings self, self)
        end
  end.

(** The entries of [get_summary] that are numbers or flags. *)
Record summary_counts : Type := SummaryCounts {
  total_checked : Z;
  n_matches : Z;
  n_mismatches : Z;
  n_warnings : Z;
  summary_is_valid : bool
}.

Definition get_summary (self : ColorConsistencyValidator) : summary_counts :=
  {| total_checked := Z.of_nat (length (matches self)) + Z.of_nat (length (mismatches self));
     n_matches := Z.of_nat (length (matches self));
     n_mismatches := Z.of_nat (length (mismatches self));
     n_warnings := Z.of_nat (length (warnings self));
     summary_is_valid := Z.of_nat (length (mismatches self)) =? 0 |}.

(** The expected annotations in the order [validate] visits them:
    [(figure, annotation, colour)]. *)
Definition entries (expected : odict (odict string)) : list (Z * Z * string) :=
  flat_map (fun '(fig_num, annotations) =>
              map (fun '(ann_num, color) => (fig_num, ann_num, color)) annotations)
    expected.

(** How the registry answers an expected annotation. *)
Inductive verdict : Type :=
| Missing
| Matching (actual : color_entry)
| Mismatching (actual : color_entry).

Definition verdict_of (color_map : gmap pykey (gmap pykey color_entry))
    (entry : Z * Z * string) : verdict :=
  let '(fig_num, ann_num, expected_color) := entry in
  match lookup_actual color_map fig_num ann_num with
  | None => Missing
  | Some actual =>
      if _colors_match expected_color (color_name actual)
      then Matching actual else Mismatching actual
  end.

(** The messages the entries give rise to. *)
Definition error_of (color_map : gmap pykey (gmap pykey color_entry))
    (entry : Z * Z * string) : list string :=
  let '(fig_num, ann_num, expected_color) := entry in
  match verdict_of color_map entry with
  | Mismatching actual =>
      [mismatch_message fig_num ann_num expected_color (color_name actual)]
  | _ => []
  end.

Definition warning_of (color_map : gmap pykey (gmap pykey color_entry))
    (entry : Z * Z * string) : list string :=
  let '(fig_num, ann_num, expected_color) := entry in
  match verdict_of color_map entry with
  | Missing => [missing_message fig_num ann_num expected_color]
  | _ => []
  end.

Definition is_mismatching (v : verdict) : bool :=
  match v with Mismatching _ => true | _ => false end.

Definition is_matching (v : verdict) : bool :=
  match v with Matching _ => true | _ => false end.

(** The expected annotation a record was made for. *)
Definition mismatch_key (r : mismatch_record) : Z * Z * string :=
  (mm_figure r, mm_annotation r, mm_expected r).

Definition match_key (r : match_record) : Z * Z * string :=
  (mt_figure r, mt_annotation r, mt_expected r).

(** From [before] to [after] the loops have handled [es]: the messages and
    records of these entries have been added, in order. *)
Definition handled (color_map : gmap pykey (gmap pykey color_entry))
    (es : list (Z * Z * string)) (before after : checking) : Prop :=
  snd after = snd before ++ flat_map (error_of color_map) es
  /\ warnings (fst after)
     = warnings (fst before) ++ flat_map (warning_of color_map) es
  /\ map mismatch_key (mismatches (fst after))
     = map mismatch_key (mismatches (fst before))
       ++ List.filter (fun e => is_mismatching (verdict_of color_map e)) es
  /\ map match_key (matches (fst after))
     = map match_key (matches (fst before))
       ++ List.filter (fun e => is_matching (verdict_of color_map e)) es.

(** A dictionary as [_parse_expected_colors] builds them: no key twice. *)
Definition distinct_keys {A : Type} (d : odict A) : Prop := NoDup (map fst d).

(** The result of [_parse_expected_colors]: no figure twice and no figure
    0; under each figure at least one annotation, none twice. *)
Definition well_formed (expected : odict (odict string)) : Prop :=
  distinct_keys expected
  /\ Forall (fun item => fst item <> 0 /\ snd item <> [] /\ distinct_keys (snd item))
       expected.

End Consistency.

(** A registry file whose [color_map], once loaded, files figure 1 under
    ["critical"] and figure 2 under ["green"]. *)
Definition loaded_color_map : gmap pykey (gmap pykey color_entry) :=
  {[ KStr "1" := {[ KStr "1" := ColorEntry "critical" "#C00000" "callout" ]};
     KStr "2" := {[ KStr "2" := ColorEntry "green" "#548235" "arrow" ]} ]}.

(* ===================================================================== *)
(** * Geometry: clamping and the two conversions                          *)
(* ===================================================================== *)

Section Clamp.

Lemma clamp_axis_idempotent (lo hi c : Z) :
  Z.max lo (Z.min (Z.max lo (Z.min c hi)) hi) = Z.max lo (Z.min c hi).
Proof. lia. Qed.

Lemma clamp_axis_range (lo hi c : Z) :
  lo <= hi -> lo <= Z.max lo (Z.min c hi) <= hi.
Proof. lia. Qed.

(** On an axis too short for the annotation the clamp returns the lower
    limit, whatever it is given. *)
Lemma clamp_axis_short (lo hi c : Z) :
  hi < lo -> Z.max lo (Z.min c hi) = lo.
Proof. lia. Qed.

End Clamp.

(** C9. [clamp_to_bounds] is idempotent: clamping a clamped point again,
    with the same radius, width, height and margin, returns it unchanged. *)
Theorem clamp_to_bounds_idempotent (x y radius width height margin : Z) :
  let '(x', y') := clamp_to_bounds x y radius width height margin in
  clamp_to_bounds x' y' radius width height margin = (x', y').
Proof.
  unfold clamp_to_bounds. f_equal; apply clamp_axis_idempotent.
Qed.

(** C2. The two copies of [percent_to_pixels] disagree: at 30 percent of a
    1366 pixel wide image the older copy truncates 409.8 to 409, the
    packaged copy rounds it to 410. *)
Theorem percent_to_pixels_copies_differ :
  Legacy.percent_to_pixels (Py.NInt 30) 1366 = Py.Ok 409
  /\ percent_to_pixels (Py.NInt 30) 1366 = Py.Ok 410.
Proof. split; vm_compute; reflexivity. Qed.

(* ===================================================================== *)
(** * Two callouts on the centre of a 1000 x 1000 canvas                  *)
(* ===================================================================== *)

(** C3. Two callouts numbered 1 and 2, both at 50 percent of a 1000 x 1000
    canvas: [validate_all] returns, the result for the second callout has
    the collision warning and [adjusted = True], and its adjusted centre
    lies in [radius + margin, dimension - radius - margin] on both axes. *)
Theorem centre_callouts_collide (d1 d2 c1 c2 : option string) :
  let self := new_validator 1000 1000 5 in
  let first := centre_callout 1 d1 c1 in
  let second := centre_callout 2 d2 c2 in
  exists results self' r1 r2 x y radius,
    validate_all self [first; second] = (Py.Ok results, self')
    /\ sum_annotations results = [Indexed r1 0 first; Indexed r2 1 second]
    /\ warnings r2 = ["Collision detected with 1 annotation(s)"]
    /\ adjusted r2 = true
    /\ sum_adjusted results = 1
    /\ adjusted_position r2 = Some (x, y, radius)
    /\ radius + margin self <= x <= width self - radius - margin self
    /\ radius + margin self <= y <= height self - radius - margin self
    /\ placed_annotations self'
       = [Placed 500 500 28 "callout" (Some 1); Placed x y radius "callout" (Some 2)].
Proof.
  intros self first second.
  eexists _, _, _, _, 566, 566, 28.
  split; [vm_compute; reflexivity|].
  cbn. repeat split; lia.
Qed.

(* ===================================================================== *)
(** * The sample text of the parser                                       *)
(* ===================================================================== *)

(** C7. Parsing the four sample lines and asking for the expected colours
    gives exactly [{1: {1: "red"}, 2: {2: "blue"}}]. *)
Theorem sample_text_expected_colors :
  Parser.get_expected_colors (Parser.parse_text Parser.new_parser sample_text)
  = {[ 1 := {[ 1 := "red" ]}; 2 := {[ 2 := "blue" ]} ]}.
Proof. vm_compute. reflexivity. Qed.

(* ===================================================================== *)
(** * Colour comparison of the consistency validator                      *)
(* ===================================================================== *)

Section ColorsMatch.

Lemma colors_match_lowered expected actual :
  _colors_match expected actual = match_lowered (Str.lower expected) (Str.lower actual).
Proof. reflexivity. Qed.

Lemma str_in_In s l : str_in s l = true <-> In s l.
Proof.
  unfold str_in. rewrite existsb_exists. split.
  - intros (x & Hx & Heq). apply String.eqb_eq in Heq. by subst.
  - intros H. exists s. split; [done|]. apply String.eqb_refl.
Qed.

Lemma class_witness el al :
  existsb (fun cls => str_in el cls && str_in al cls) equivalence_classes = true ->
  exists cls, In cls equivalence_classes /\ In el cls /\ In al cls.
Proof.
  rewrite existsb_exists. intros (cls & Hcls & H).
  apply andb_true_iff in H as [H1 H2].
  exists cls. by rewrite <- !str_in_In.
Qed.

Lemma match_lowered_sound el al :
  match_lowered el al = true ->
  el = al \/ exists cls, In cls equivalence_classes /\ In el cls /\ In al cls.
Proof.
  unfold match_lowered.
  destruct (String.eqb_spec el al) as [->|Hne]; [by left|].
  unfold COLOR_EQUIVALENTS, str_in; cbn [assoc].
  repeat match goal with
    | |- context [String.eqb ?k el] =>
        destruct (String.eqb_spec k el) as [<-|?]
    end;
    cbn [get existsb]; rewrite ?orb_false_r, ?orb_true_iff;
    repeat match goal with
      | |- context [String.eqb ?a ?b] => destruct (String.eqb_spec a b) as [->|?]
      end;
    intros H;
    try (left; reflexivity);
    try (right; apply class_witness; reflexivity);
    try (exfalso; intuition congruence).
Qed.

Lemma match_lowered_complete el al :
  (el = al \/ exists cls, In cls equivalence_classes /\ In el cls /\ In al cls) ->
  match_lowered el al = true.
Proof.
  intros [->|(cls & Hcls & Hel & Hal)].
  - unfold match_lowered. by rewrite String.eqb_refl.
  - unfold equivalence_classes in Hcls. cbn in Hcls.
    repeat (destruct Hcls as [<-|Hcls]); try contradiction;
      cbn in Hel, Hal;
      repeat (destruct Hel as [<-|Hel]); try contradiction;
      repeat (destruct Hal as [<-|Hal]); try contradiction;
      reflexivity.
Qed.

End ColorsMatch.

(** C8. [_colors_match] holds exactly when the two names, compared without
    regard to case, are identical or co-members of an equivalence class;
    ["gold"] against ["warning"] is a match and ["gold"] against ["green"]
    is not. *)
Theorem colors_match_exactly :
  (forall expected actual,
      _colors_match expected actual = true <-> colors_match_spec expected actual)
  /\ _colors_match "gold" "warning" = true
  /\ _colors_match "gold" "green" = false.
Proof.
  split; [|split; reflexivity].
  intros expected actual. rewrite colors_match_lowered. unfold colors_match_spec.
  split; [apply match_lowered_sound | apply match_lowered_complete].
Qed.

(* ===================================================================== *)
(** * The validator: what is placed, and what is reported                 *)
(* ===================================================================== *)

Section ResultMonad.

Context {A B : Type}.

Lemma bind_ok (m : Py.result A) (k : A -> Py.result B) (b : B) :
  Py.bind m k = Py.Ok b -> exists a, m = Py.Ok a /\ k a = Py.Ok b.
Proof. destruct m as [a|e]; cbn; [eauto | discriminate]. Qed.

End ResultMonad.

(** Take apart a hypothesis [x <- m ;; k = Ok b]. *)
Ltac bind_inv H :=
  let a := fresh "a" in
  let Ha := fresh "Ha" in
  apply bind_ok in H as (a & Ha & H).

Section Validator.

Variable self : AnnotationValidator.

Lemma check_bounds_true x y radius :
  fst (check_bounds self x y radius) = true ->
  (margin self <= x - radius /\ x + radius <= width self - margin self)
  /\ (margin self <= y - radius /\ y + radius <= height self - margin self).
Proof.
  unfold check_bounds.
  repeat match goal with
    | |- context [if ?b then _ else _] => destruct b eqn:?
    end; cbn; try discriminate.
  lia.
Qed.

(** A clamped centre respects the bounds of every axis long enough to
    hold the annotation. *)
Lemma clamp_to_bounds_within x y radius ty number :
  let '(x', y') :=
    clamp_to_bounds x y radius (width self) (height self) (margin self) in
  let p := Placed x' y' radius ty number in
  (2 * (radius + margin self) <= width self -> x_within self p)
  /\ (2 * (radius + margin self) <= height self -> y_within self p).
Proof. unfold clamp_to_bounds, x_within, y_within; cbn. lia. Qed.

Lemma suggest_adjustment_clamped x y radius cols x' y' :
  cols <> [] ->
  suggest_adjustment self x y radius cols = Py.Ok (x', y') ->
  exists nx ny,
    (x', y') = clamp_to_bounds nx ny radius (width self) (height self) (margin self).
Proof.
  intros Hne H. unfold suggest_adjustment in H.
  destruct cols as [|c cols]; [done|].
  bind_inv H. bind_inv H. bind_inv H. bind_inv H. bind_inv H.
  eexists _, _. unfold clamp_to_bounds in *. inversion H. reflexivity.
Qed.

End Validator.

Section ValidateAndAdjust.

Variable self : AnnotationValidator.
Variable ann : annotation.

Let ty : string := get (ann_type ann) "callout".

(** What [validate_and_adjust] returns, in terms of the three
    computations it runs. *)
Lemma validate_and_adjust_returns x y radius cols x2 y2 :
  get_annotation_bounds self ann 18 = Py.Ok (x, y, radius) ->
  let in_bounds := fst (check_bounds self x y radius) in
  let collided := negb (Nat.eqb (length cols) 0) in
  let ab := after_bounds self x y radius in
  check_collision self (fst ab) (snd ab) radius 5 = Py.Ok cols ->
  suggest_adjustment self (fst ab) (snd ab) radius cols = Py.Ok (x2, y2) ->
  validate_and_adjust self ann
  = Py.Ok
      ({| valid := negb (missing_description ann);
          adjusted := negb in_bounds || collided;
          original_position := Some (x, y, radius);
          adjusted_position :=
            if negb in_bounds || collided then Some (x2, y2, radius) else None;
          warnings :=
            (if in_bounds then []
             else ["Out of bounds: " +:+ snd (check_bounds self x y radius)])
            ++ (if collided
                then ["Collision detected with "
                        +:+ Py.str (Z.of_nat (length cols)) +:+ " annotation(s)"]
                else []);
          errors :=
            if missing_description ann
            then ["Missing required 'description' field for " +:+ ty]
            else [] |},
       set_placed self
         (placed_annotations self ++ [Placed x2 y2 radius ty (ann_number ann)])).
Proof.
  intros Hb in_bounds collided ab Hc Ha.
  unfold validate_and_adjust. rewrite Hb. cbn [Py.bind].
  subst in_bounds ab. unfold after_bounds in *.
  destruct (check_bounds self x y radius) as [inb msg]; cbn [fst snd] in *.
  fold (missing_description ann).
  destruct inb; cbn [negb orb fst snd] in *.
  - rewrite Hc. cbn [Py.bind]. subst collided.
    destruct cols as [|c cols]; cbn [length Nat.eqb negb].
    + cbn in Ha. injection Ha as <- <-. cbn [Py.bind]. by rewrite app_nil_r.
    + rewrite Ha. cbn [Py.bind]. reflexivity.
  - destruct (clamp_to_bounds x y radius (width self) (height self) (margin self))
      as [cx cy]; cbn [fst snd] in *.
    rewrite Hc. cbn [Py.bind]. subst collided.
    destruct cols as [|c cols]; cbn [length Nat.eqb negb].
    + cbn in Ha. injection Ha as <- <-. cbn [Py.bind]. by rewrite app_nil_r.
    + rewrite Ha. cbn [Py.bind]. reflexivity.
Qed.

(** Conversely, a returning call ran the three computations without an
    exception. *)
Lemma validate_and_adjust_inv r self' :
  validate_and_adjust self ann = Py.Ok (r, self') ->
  exists x y radius cols x2 y2,
    let ab := after_bounds self x y radius in
    get_annotation_bounds self ann 18 = Py.Ok (x, y, radius)
    /\ check_collision self (fst ab) (snd ab) radius 5 = Py.Ok cols
    /\ suggest_adjustment self (fst ab) (snd ab) radius cols = Py.Ok (x2, y2).
Proof.
  intros H. unfold validate_and_adjust in H.
  bind_inv H. destruct a as [[x y] radius].
  exists x, y, radius. unfold after_bounds.
  destruct (check_bounds self x y radius) as [inb msg]; cbn [fst snd] in *.
  destruct inb; cbn [fst snd].
  - bind_inv H. exists a. bind_inv H. destruct a0 as [x2 y2]. exists x2, y2.
    repeat split; try done.
    destruct a as [|c cols]; [by injection Ha1 as <- <-|done].
  - destruct (clamp_to_bounds x y radius (width self) (height self) (margin self))
      as [cx cy]; cbn [fst snd] in *.
    bind_inv H. exists a. bind_inv H. destruct a0 as [x2 y2]. exists x2, y2.
    repeat split; try done.
    destruct a as [|c cols]; [by injection Ha1 as <- <-|done].
Qed.

End ValidateAndAdjust.

(** C4. A callout, arrow or highlight whose description is missing or empty
    is reported with [valid = False] and one error, and its record is
    appended to [placed_annotations] all the same. For every descriptor the
    validity is decided by the description alone: a position out of bounds
    or a collision adds its warning and sets [adjusted = True], nothing
    more. The call returns whenever its geometry raises no arithmetic
    exception. *)
Theorem description_is_the_only_error
    (self : AnnotationValidator) (ann : annotation)
    (x y radius : Z) (cols : list collision) (x2 y2 : Z) :
  get_annotation_bounds self ann 18 = Py.Ok (x, y, radius) ->
  let ab := after_bounds self x y radius in
  check_collision self (fst ab) (snd ab) radius 5 = Py.Ok cols ->
  suggest_adjustment self (fst ab) (snd ab) radius cols = Py.Ok (x2, y2) ->
  let ty := get (ann_type ann) "callout" in
  let bounds := check_bounds self x y radius in
  exists r self',
    validate_and_adjust self ann = Py.Ok (r, self')
    /\ placed_annotations self'
       = placed_annotations self ++ [Placed x2 y2 radius ty (ann_number ann)]
    /\ ((ann_description ann = None \/ ann_description ann = Some "") ->
        In ty ["callout"; "arrow"; "highlight"] ->
        valid r = false
        /\ errors r = ["Missing required 'description' field for " +:+ ty])
    /\ valid r = negb (missing_description ann)
    /\ (valid r = true -> errors r = [])
    /\ (fst bounds = false ->
        adjusted r = true /\ In ("Out of bounds: " +:+ snd bounds) (warnings r))
    /\ (cols <> [] ->
        adjusted r = true
        /\ In ("Collision detected with "
                 +:+ Py.str (Z.of_nat (length cols)) +:+ " annotation(s)") (warnings r))
    /\ (adjusted r = true -> fst bounds = false \/ cols <> []).
Proof.
  intros Hb ab Hc Ha ty bounds. subst ab ty bounds.
  eexists _, _. split; [by apply (validate_and_adjust_returns self ann x y radius cols x2 y2)|].
  cbn [valid adjusted warnings errors placed_annotations set_placed].
  split; [reflexivity|].
  split.
  { intros Hd Hty.
    assert (missing_description ann = true) as ->; [|done].
    unfold missing_description. apply andb_true_iff. split.
    - destruct Hd as [-> | ->]; reflexivity.
    - by apply str_in_In. }
  split; [reflexivity|].
  split; [by intros ->%negb_true_iff|].
  split.
  { intros ->. split; [done|]. apply in_or_app. left. by left. }
  split.
  { intros Hne. destruct cols as [|c cols']; [done|].
    cbn [length Nat.eqb negb]. split; [apply orb_true_r|].
    apply in_or_app. right. by left. }
  intros [H|H]%orb_true_iff.
  - left. by apply negb_true_iff.
  - right. intros ->. discriminate.
Qed.

(** A second callout on top of a placed one, with no description: the call
    returns, the result is invalid, and the record is appended. *)
Lemma description_is_the_only_error_witness :
  let self := Validator 1000 1000 5 [Placed 500 500 28 "callout" (Some 1)] in
  let ann := centre_callout 2 None None in
  exists r self',
    validate_and_adjust self ann = Py.Ok (r, self')
    /\ valid r = false
    /\ adjusted r = true
    /\ placed_annotations self'
       = [Placed 500 500 28 "callout" (Some 1); Placed 566 566 28 "callout" (Some 2)].
Proof.
  intros self ann.
  destruct (description_is_the_only_error self ann 500 500 28
              [Collision (Placed 500 500 28 "callout" (Some 1)) 0%float 61 61%float]
              566 566)
    as (r & self' & Hret & Hplaced & Hmissing & _ & _ & _ & Hcol & _).
  - vm_compute. reflexivity.
  - vm_compute. reflexivity.
  - vm_compute. reflexivity.
  - exists r, self'. split; [exact Hret|].
    split; [apply Hmissing; [by left | by left]|].
    split; [by apply Hcol|].
    exact Hplaced.
Defined.

Section PlacedInvariant.

Lemma validate_and_adjust_placed self ann r self' :
  validate_and_adjust self ann = Py.Ok (r, self') ->
  width self' = width self /\ height self' = height self
  /\ margin self' = margin self
  /\ exists p, placed_annotations self' = placed_annotations self ++ [p]
               /\ within_when_fits self p.
Proof.
  intros H.
  destruct (validate_and_adjust_inv self ann r self' H)
    as (x & y & radius & cols & x2 & y2 & Hb & Hc & Ha).
  rewrite (validate_and_adjust_returns self ann x y radius cols x2 y2 Hb Hc Ha) in H.
  injection H as _ <-. cbn [width height margin placed_annotations set_placed].
  do 3 (split; [reflexivity|]).
  eexists. split; [reflexivity|].
  destruct cols as [|c cols].
  - cbn in Ha. injection Ha as <- <-. unfold after_bounds.
    destruct (fst (check_bounds self x y radius)) eqn:Hin; cbn [fst snd].
    + apply check_bounds_true in Hin. unfold within_when_fits, x_within, y_within.
      cbn. tauto.
    + pose proof (clamp_to_bounds_within self x y radius
                    (get (ann_type ann) "callout") (ann_number ann)) as Hcl.
      destruct (clamp_to_bounds x y radius (width self) (height self) (margin self)).
      exact Hcl.
  - apply suggest_adjustment_clamped in Ha as (nx & ny & Heq); [|done].
    pose proof (clamp_to_bounds_within self nx ny radius
                  (get (ann_type ann) "callout") (ann_number ann)) as Hcl.
    rewrite <- Heq in Hcl. exact Hcl.
Qed.

Lemma within_when_fits_same self self' p :
  width self' = width self -> height self' = height self ->
  margin self' = margin self ->
  within_when_fits self p -> within_when_fits self' p.
Proof.
  unfold within_when_fits, x_within, y_within. intros -> -> ->. done.
Qed.

Lemma validate_all_loop_placed anns : forall self i results,
  Forall (within_when_fits self) (placed_annotations self) ->
  let self' := snd (validate_all_loop self i anns results) in
  width self' = width self /\ height self' = height self
  /\ margin self' = margin self
  /\ Forall (within_when_fits self) (placed_annotations self').
Proof.
  induction anns as [|ann anns IH]; intros self i results Hall; cbn.
  - done.
  - destruct (validate_and_adjust self ann) as [[r self1]|e] eqn:Hstep; cbn; [|done].
    apply validate_and_adjust_placed in Hstep as (Hw & Hh & Hm & p & Hp & Hfit).
    match goal with
    | |- context [validate_all_loop self1 ?j anns ?res] =>
        destruct (IH self1 j res) as (Hw' & Hh' & Hm' & Hall')
    end.
    { rewrite Hp. apply Forall_app. split.
      - eapply Forall_impl; [exact Hall|].
        intros q Hq. by apply (within_when_fits_same self).
      - constructor; [|constructor]. by apply (within_when_fits_same self). }
    repeat split; try congruence.
    eapply Forall_impl; [exact Hall'|].
    intros q Hq. apply (within_when_fits_same self1); congruence.
Qed.

End PlacedInvariant.

(** C1, as the code has it. Whatever [validate_all] is given, and whether
    it returns or raises, every record of [placed_annotations] respects the
    bounds on each axis that can hold it: when
    [2 * (radius + margin) <= width] then [margin <= x - radius] and
    [x + radius <= width - margin], and the same for [y] and the height. *)
Theorem placed_within_bounds_when_fits
    (self : AnnotationValidator) (anns : list annotation) (p : placed) :
  In p (placed_annotations (snd (validate_all self anns))) ->
  (2 * (placed_radius p + margin self) <= width self ->
   margin self <= placed_x p - placed_radius p
   /\ placed_x p + placed_radius p <= width self - margin self)
  /\ (2 * (placed_radius p + margin self) <= height self ->
      margin self <= placed_y p - placed_radius p
      /\ placed_y p + placed_radius p <= height self - margin self).
Proof.
  intros Hin. unfold validate_all in Hin.
  match type of Hin with
  | context [validate_all_loop ?s ?i anns ?res] =>
      destruct (validate_all_loop_placed anns s i res) as (_ & _ & _ & Hall)
  end.
  { constructor. }
  rewrite Forall_forall in Hall. apply list_elem_of_In, Hall in Hin. exact Hin.
Qed.

Lemma placed_within_bounds_when_fits_witness :
  let self := new_validator 1000 1000 5 in
  let p := Placed 566 566 28 "callout" (Some 2) in
  In p (placed_annotations
          (snd (validate_all self [centre_callout 1 None None; centre_callout 2 None None])))
  /\ (5 <= 566 - 28 /\ 566 + 28 <= 1000 - 5).
Proof.
  intros self p.
  assert (In p (placed_annotations
                  (snd (validate_all self
                          [centre_callout 1 None None; centre_callout 2 None None]))))
    as Hin.
  { vm_compute. right. left. reflexivity. }
  split; [exact Hin|].
  apply (placed_within_bounds_when_fits self _ p Hin). cbn. lia.
Defined.

(** C1, as the specification states it, fails: a highlight across the whole
    width of a 1000 x 1000 image has radius 500 and is placed at x = 505, so
    that x + radius = 1005 exceeds width - margin = 995. *)
Lemma full_width_highlight_out_of_bounds :
  let self := new_validator 1000 1000 5 in
  exists p,
    validate_all self [full_width_highlight]
    = (Py.Ok
         (Summary
            [Indexed
               (Validation true true (Some (500, 500, 500)) (Some (505, 505, 500))
                  ["Out of bounds: Too close to left edge (x=500, radius=500)"] [])
               0 full_width_highlight]
            1 1 1 0 true),
       set_placed self [p])
    /\ p = Placed 505 505 500 "highlight" None
    /\ ~ within_bounds self p.
Proof.
  intros self. eexists. split; [vm_compute; reflexivity|].
  split; [reflexivity|].
  unfold within_bounds, x_within, y_within. cbn. lia.
Qed.

(* ===================================================================== *)
(** * The registry file                                                   *)
(* ===================================================================== *)

Section JsonKeys.

Global Instance KInt_inj : Inj (=) (=) KInt.
Proof. by intros ?? [=]. Qed.

Global Instance KStr_inj : Inj (=) (=) KStr.
Proof. by intros ?? [=]. Qed.

Global Instance json_key_inj : Inj (=) (=) json_key.
Proof. intros m n [= H]. by apply (inj pretty) in H. Qed.

Context {A : Type}.

Lemma json_dict_lookup (d : gmap Z A) (n : Z) :
  json_dict d !! KStr (Py.str n) = d !! n.
Proof. apply (lookup_kmap json_key). Qed.

Lemma json_dict_lookup_int (d : gmap Z A) (n : Z) :
  json_dict d !! KInt n = None.
Proof.
  apply (lookup_kmap_None json_key). intros i. discriminate.
Qed.

Lemma json_dict_keys (d : gmap Z A) (k : pykey) :
  is_Some (json_dict d !! k) -> exists n, k = KStr (Py.str n) /\ is_Some (d !! n).
Proof.
  intros [x (n & -> & Hn)%(lookup_kmap_Some json_key)]. eauto.
Qed.

End JsonKeys.

(** C5, as the specification states it, fails: after one figure with one
    numbered callout the in-memory [color_map] is [{1: {1: ..}}] and the
    reloaded one is [{"1": {"1": ..}}]; the key [1] is gone. *)
Lemma reload_changes_key_types :
  view_color_map (in_memory (to_json one_callout_registry))
  = {[ KInt 1 := {[ KInt 1 := ColorEntry "red" "#C00000" "callout" ]} ]}
  /\ view_color_map (save_and_load one_callout_registry)
     = {[ KStr "1" := {[ KStr "1" := ColorEntry "red" "#C00000" "callout" ]} ]}
  /\ save_and_load one_callout_registry <> in_memory (to_json one_callout_registry).
Proof.
  split; [vm_compute; reflexivity|].
  split; [vm_compute; reflexivity|].
  intros H.
  apply (f_equal (fun v => view_color_map v !! KInt 1)) in H.
  vm_compute in H. discriminate.
Qed.

(** C5, as the code has it. Reloading a saved registry reproduces
    [total_count], and reproduces [color_map] with every key replaced by
    its decimal string: the entry of figure [f] and annotation [n] is found
    under ["f"] and ["n"], no int key remains, every key present is such a
    string, and the lookups of the consistency validator, which try the
    string first, find exactly the entries of the registry. *)
Theorem reload_keeps_entries_under_string_keys (self : FigureRegistry) :
  let loaded := save_and_load self in
  total_count loaded = total_count (in_memory (to_json self))
  /\ total_count loaded = Z.of_nat (length (figures self))
  /\ (forall f n,
        (view_color_map loaded !! KStr (Py.str f)) ≫= (fun d => d !! KStr (Py.str n))
        = (color_map self !! f) ≫= (fun d => d !! n))
  /\ (forall f, view_color_map loaded !! KInt f = None)
  /\ (forall k, is_Some (view_color_map loaded !! k) ->
                exists f, k = KStr (Py.str f) /\ is_Some (color_map self !! f))
  /\ (forall f n,
        lookup_actual (view_color_map loaded) f n
        = (color_map self !! f) ≫= (fun d => d !! n)).
Proof.
  cbn [save_and_load in_memory to_json total_count view_color_map
         j_total_count j_color_map].
  split; [reflexivity|]. split; [reflexivity|].
  split.
  { intros f n. rewrite json_dict_lookup, lookup_fmap.
    destruct (color_map self !! f) as [d|]; cbn; [|done].
    apply json_dict_lookup. }
  split; [intros f; apply json_dict_lookup_int|].
  split.
  { intros k Hk. apply json_dict_keys in Hk as (f & -> & Hf).
    exists f. split; [done|]. by rewrite lookup_fmap, fmap_is_Some in Hf. }
  intros f n. unfold lookup_actual.
  rewrite json_dict_lookup, json_dict_lookup_int, lookup_fmap.
  destruct (color_map self !! f) as [d|]; cbn.
  - rewrite json_dict_lookup, json_dict_lookup_int. by destruct (d !! n).
  - by rewrite !lookup_empty.
Qed.

(* ===================================================================== *)
(** * Colour normalisation of the registry                                *)
(* ===================================================================== *)

Section NormalizeColor.

Lemma find_hex_Some l name :
  find_hex l COLOR_PALETTE = Some name ->
  exists hex_val, assoc name COLOR_PALETTE = Some hex_val /\ Str.lower hex_val = l.
Proof.
  unfold COLOR_PALETTE. cbn -[String.eqb].
  repeat match goal with
    | |- context [String.eqb ?a l] => destruct (String.eqb_spec a l) as [<-|?]
    end; intros [= <-]; eexists; split; reflexivity.
Qed.

Lemma find_hex_None l :
  find_hex l COLOR_PALETTE = None ->
  forall name hex_val, In (name, hex_val) COLOR_PALETTE -> Str.lower hex_val <> l.
Proof.
  unfold COLOR_PALETTE. cbn -[String.eqb].
  repeat match goal with
    | |- context [String.eqb ?a l] => destruct (String.eqb_spec a l) as [<-|?]
    end; try discriminate.
  intros _ name hex_val H.
  repeat (destruct H as [[= <- <-]|H]; [cbn; congruence|]).
  destruct H.
Qed.

Lemma find_hex_is_Some l name hex_val :
  In (name, hex_val) COLOR_PALETTE -> Str.lower hex_val = l ->
  is_Some (find_hex l COLOR_PALETTE).
Proof.
  intros Hin Hl. destruct (find_hex l COLOR_PALETTE) eqn:H; [eauto|].
  by destruct (find_hex_None l H name hex_val).
Qed.

End NormalizeColor.

(** C6, as the specification states it, fails: a hex string that is not in
    the palette is returned as it is (lower-cased), not replaced by
    ["teal"], and the result is no palette key. *)
Lemma unknown_hex_is_not_normalized :
  _normalize_color "#12AB56" = "#12ab56"
  /\ has_key (_normalize_color "#12AB56") COLOR_PALETTE = false
  /\ _normalize_color "#12AB56" <> "teal".
Proof. split; [reflexivity|]. split; [reflexivity|]. discriminate. Qed.

(** C6, as the code has it. With [l] the lower-cased, stripped input:
    - when [l] does not start with ["#"] the result is a palette key, [l]
      itself if it is one and ["teal"] otherwise;
    - when [l] starts with ["#"] and equals, ignoring case, the hex value
      of a palette entry, the result is a palette key with that hex value;
    - when [l] starts with ["#"] and matches no palette entry, the result
      is [l] itself. *)
Theorem normalize_color_cases (color : string) :
  let l := Str.strip (Str.lower color) in
  let result := _normalize_color color in
  (Str.startswith "#" l = false ->
   has_key result COLOR_PALETTE = true
   /\ (has_key l COLOR_PALETTE = true -> result = l)
   /\ (has_key l COLOR_PALETTE = false -> result = "teal"))
  /\ (Str.startswith "#" l = true ->
      (forall name hex_val,
          In (name, hex_val) COLOR_PALETTE -> Str.lower hex_val = l ->
          exists hex_val',
            assoc result COLOR_PALETTE = Some hex_val' /\ Str.lower hex_val' = l)
      /\ ((forall name hex_val,
              In (name, hex_val) COLOR_PALETTE -> Str.lower hex_val <> l) ->
          result = l)).
Proof.
  intros l result. subst result. unfold _normalize_color. fold l.
  destruct (String.eqb_spec color "") as [->|Hne].
  - cbn. split; [|discriminate]. intros _. split; [reflexivity|].
    split; [discriminate|reflexivity].
  - destruct (Str.startswith "#" l) eqn:Hhex.
    + split; [discriminate|]. intros _. split.
      * intros name hex_val Hin Hl.
        destruct (find_hex_is_Some l name hex_val Hin Hl) as [found Hfound].
        rewrite Hfound. by apply find_hex_Some.
      * intros Hnone. destruct (find_hex l COLOR_PALETTE) as [found|] eqn:Hfound; [|done].
        apply find_hex_Some in Hfound as (hex_val & Hassoc & Hl).
        exfalso. apply (Hnone found hex_val); [|done].
        clear -Hassoc. unfold COLOR_PALETTE in *. cbn -[String.eqb] in Hassoc.
        repeat match type of Hassoc with
          | context [String.eqb ?a found] =>
              destruct (String.eqb_spec a found) as [<-|?];
              [injection Hassoc as <-; cbn; tauto|]
          end.
        discriminate.
    + split; [|discriminate]. intros _.
      destruct (has_key l COLOR_PALETTE) eqn:Hkey.
      * split; [done|]. split; [done|discriminate].
      * split; [reflexivity|]. split; [discriminate|done].
Qed.

(** ["#c00000"], in lower case and with blanks around it, is the hex value
    of ["red"]. *)
Lemma normalize_color_cases_witness :
  Str.startswith "#" (Str.strip (Str.lower " #c00000 ")) = true
  /\ In ("red", "#C00000") COLOR_PALETTE
  /\ _normalize_color " #c00000 " = "red".
Proof.
  split; [reflexivity|]. split; [by left|].
  destruct (normalize_color_cases " #c00000 ") as [_ Hhex].
  destruct (Hhex eq_refl) as [Hfound _].
  destruct (Hfound "red" "#C00000") as (hex_val' & Hassoc & Hl); [by left|reflexivity|].
  reflexivity.
Defined.

(* ===================================================================== *)
(** * The parser: references and their figure                             *)
(* ===================================================================== *)

Section ParserInvariant.
Import Parser.

Lemma truthy_int_Some (o : option Z) :
  truthy_int o = true -> exists n, o = Some n /\ n <> 0.
Proof.
  destruct o as [n|]; cbn; [|discriminate].
  intros H%negb_true_iff%Z.eqb_neq. eauto.
Qed.

Lemma parsing_line_add start cf line_num self color ty number pattern context :
  parsing_line start cf line_num self ->
  parsing_line start cf line_num
    (_add_reference self color ty number line_num pattern context).
Proof.
  intros (Hcf & (new & Hrefs & Hnew) & Hby).
  unfold _add_reference, parsing_line; cbn [current_figure references by_figure].
  split; [done|]. split.
  - eexists (new ++ [_]). rewrite Hrefs, <- app_assoc. split; [reflexivity|].
    apply Forall_app. split; [done|]. constructor; [|constructor]. by cbn.
  - unfold by_figure_ok. cbn [by_figure].
    destruct (truthy_int (current_figure self)) eqn:Htruthy; [|exact Hby].
    apply truthy_int_Some in Htruthy as (fig & Hfig & Hnz).
    rewrite Hfig. cbn [get]. intros f l r Hl Hin.
    destruct (decide (fig = f)) as [<-|Hne].
    + rewrite lookup_insert_eq in Hl. injection Hl as <-.
      apply in_app_or in Hin as [Hin|[<-|[]]].
      * destruct (by_figure self !! fig) as [old|] eqn:Hold; cbn in Hin; [|done].
        by apply (Hby fig old).
      * by cbn.
    + rewrite lookup_insert_ne in Hl by done. by apply (Hby f l).
Qed.

Lemma parsing_line_fold {M : Type} start cf line_num
    (step : TextColorParser -> M -> TextColorParser) (ms : list M) :
  (forall self m, parsing_line start cf line_num self ->
                  parsing_line start cf line_num (step self m)) ->
  forall self, parsing_line start cf line_num self ->
               parsing_line start cf line_num (fold_left step ms self).
Proof.
  intros Hstep. induction ms as [|m ms IH]; intros self Hself; cbn; [done|].
  apply IH. by apply Hstep.
Qed.

Lemma parse_line_spec self line line_num :
  by_figure_ok self ->
  parsing_line self (figure_for self line) line_num (_parse_line self line line_num).
Proof.
  intros Hby. unfold _parse_line.
  repeat apply parsing_line_fold;
    try (intros s m Hs; repeat case_match; try done; by apply parsing_line_add).
  unfold figure_for, parsing_line.
  destruct (Re.search false FIGURE_REF_PATTERN line);
    cbn [current_figure references by_figure];
    (split; [done|]); (split; [|done]);
    exists []; by rewrite app_nil_r.
Qed.

Variable lines : list string.

Lemma no_heading_shorter (m n : nat) :
  (m <= n)%nat -> no_heading_in_first n lines -> no_heading_in_first m lines.
Proof.
  unfold no_heading_in_first. intros Hle H.
  replace (take m lines) with (take m (take n lines)).
  - by apply Forall_take.
  - rewrite take_take. f_equal. lia.
Qed.

Lemma no_heading_line (n : nat) line :
  lines !! n = Some line -> no_heading_in_first (S n) lines ->
  Re.search false FIGURE_REF_PATTERN line = None.
Proof.
  unfold no_heading_in_first. intros Hline H.
  rewrite Forall_forall in H. apply H.
  apply list_elem_of_lookup. exists n. rewrite lookup_take_lt by lia. done.
Qed.

Lemma parsed_step (n : nat) self line :
  lines !! n = Some line -> parsed lines n self ->
  parsed lines (S n) (_parse_line self line (Z.of_nat n + 1)).
Proof.
  intros Hline (Hrefs & Hcur & Hby).
  destruct (parse_line_spec self line (Z.of_nat n + 1) Hby)
    as (Hcf & (new & Hnew & Hall) & Hby').
  assert (no_heading_in_first (S n) lines -> figure_for self line = None) as Hnone.
  { intros H. unfold figure_for. rewrite (no_heading_line n line Hline H).
    apply Hcur. by apply (no_heading_shorter n (S n)); [lia|]. }
  split; [|split; [|done]].
  - intros r Hin. rewrite Hnew in Hin. apply in_app_or in Hin as [Hin|Hin].
    + destruct (Hrefs r Hin) as [Hrange Hfig]. split; [lia|done].
    + rewrite Forall_forall in Hall.
      apply list_elem_of_In, Hall in Hin as [Hl Hf].
      split; [lia|]. rewrite Hl, Hf.
      replace (Z.to_nat (Z.of_nat n + 1)) with (S n) by lia. done.
  - rewrite Hcf. done.
Qed.

Lemma parsed_lines rest : forall done self,
  lines = done ++ rest -> parsed lines (length done) self ->
  parsed lines (length lines) (parse_lines self rest (Z.of_nat (length done) + 1)).
Proof.
  induction rest as [|line rest IH]; intros done self Hsplit Hself; cbn.
  - replace (length lines) with (length done); [done|].
    by rewrite Hsplit, app_nil_r.
  - replace (Z.of_nat (length done) + 1 + 1)
      with (Z.of_nat (length (done ++ [line])) + 1)
      by (rewrite length_app; cbn; lia).
    apply IH.
    + by rewrite <- app_assoc.
    + rewrite length_app; cbn. rewrite Nat.add_1_r.
      apply parsed_step; [|done].
      rewrite Hsplit. by rewrite lookup_app_r, Nat.sub_diag by lia.
Qed.

End ParserInvariant.

Section ParserRecords.
Import Parser.

(** [_add_reference] appends the record of its arguments and leaves the
    current figure as it is. *)
Lemma add_reference_records self color ty number line_num pattern context :
  references (_add_reference self color ty number line_num pattern context)
  = references self
    ++ [reference_of (current_figure self) color ty number line_num pattern context]
  /\ current_figure (_add_reference self color ty number line_num pattern context)
     = current_figure self.
Proof. split; reflexivity. Qed.

(** A loop whose body records [mk cf m] for the match [m] records them for
    all matches, in order. *)
Lemma fold_records {M : Type} (step : TextColorParser -> M -> TextColorParser)
    (mk : option Z -> M -> list color_ref) (ms : list M) :
  (forall self m,
      references (step self m) = references self ++ mk (current_figure self) m
      /\ current_figure (step self m) = current_figure self) ->
  forall self,
    references (fold_left step ms self)
    = references self ++ flat_map (mk (current_figure self)) ms
    /\ current_figure (fold_left step ms self) = current_figure self.
Proof.
  intros Hstep. induction ms as [|m ms IH]; intros self; cbn [fold_left flat_map].
  - by rewrite app_nil_r.
  - destruct (Hstep self m) as [Hrefs Hcf].
    destruct (IH (step self m)) as [IHrefs IHcf].
    rewrite IHrefs, IHcf, Hrefs, Hcf, <- app_assoc. done.
Qed.

Lemma flat_map_singleton {A B : Type} (f : A -> B) (l : list A) :
  flat_map (fun a => [f a]) l = map f l.
Proof. induction l as [|a l IH]; cbn; [done|]. by rewrite IH. Qed.

(** One line: every match of every pattern is recorded, under the figure
    of the line. *)
Lemma parse_line_records self line line_num :
  references (_parse_line self line line_num)
  = references self ++ line_references (figure_for self line) line line_num
  /\ current_figure (_parse_line self line line_num) = figure_for self line.
Proof.
  unfold _parse_line, line_references.
  set (start := match Re.search false FIGURE_REF_PATTERN line with
                | Some figure_match =>
                    TCP (references self) (by_figure self)
                      (Some (Str.int_of_digits (group_str line figure_match 1)))
                | None => self
                end).
  assert (references start = references self
          /\ current_figure start = figure_for self line) as [Hrefs Hcf].
  { unfold start, figure_for.
    by destruct (Re.search false FIGURE_REF_PATTERN line). }
  rewrite <- Hrefs, <- Hcf, <- !flat_map_singleton. clearbody start.
  match goal with
  | |- context [fold_left ?step (Re.finditer true PARENTHETICAL_PATTERN line) start] =>
      destruct (fold_records step
                  (fun cf m => [reference_of cf (group_str line m 1) (group_str line m 2)
                                  (group_int line m 3) line_num "parenthetical"
                                  (Str.strip line)])
                  (Re.finditer true PARENTHETICAL_PATTERN line)
                  (fun s m => add_reference_records s _ _ _ _ _ _) start) as [R1 C1];
      set (s1 := fold_left step (Re.finditer true PARENTHETICAL_PATTERN line) start) in *
  end.
  match goal with
  | |- context [fold_left ?step (Re.finditer true INLINE_PATTERN line) s1] =>
      destruct (fold_records step
                  (fun cf m => [reference_of cf (group_str line m 1) (group_str line m 2)
                                  (group_int line m 3) line_num "inline"
                                  (Str.strip line)])
                  (Re.finditer true INLINE_PATTERN line)
                  (fun s m => add_reference_records s _ _ _ _ _ _) s1) as [R2 C2];
      set (s2 := fold_left step (Re.finditer true INLINE_PATTERN line) s1) in *
  end.
  match goal with
  | |- context [fold_left ?step (Re.finditer true NUMBER_FIRST_PATTERN line) s2] =>
      destruct (fold_records step
                  (fun cf m => [reference_of cf (group_str line m 3) (group_str line m 1)
                                  (Some (Str.int_of_digits (group_str line m 2)))
                                  line_num "number_first" (Str.strip line)])
                  (Re.finditer true NUMBER_FIRST_PATTERN line)
                  (fun s m => add_reference_records s _ _ _ _ _ _) s2) as [R3 C3];
      set (s3 := fold_left step (Re.finditer true NUMBER_FIRST_PATTERN line) s2) in *
  end.
  match goal with
  | |- context [fold_left ?step (Re.finditer false CIRCLED_PATTERN line) s3] =>
      destruct (fold_records step (fun cf m => circled_reference cf line line_num m)
                  (Re.finditer false CIRCLED_PATTERN line)) with (self := s3)
        as [R4 C4];
      [ intros s m; cbn beta; unfold circled_reference;
        repeat case_match;
        first [ apply add_reference_records
              | split; [by rewrite app_nil_r|done] ]
      | set (s4 := fold_left step (Re.finditer false CIRCLED_PATTERN line) s3) in * ]
  end.
  rewrite C4, C3, C2, C1. split; [|done].
  rewrite R4, R3, R2, R1, C3, C2, C1. by rewrite <- !app_assoc.
Qed.

(** Later lines add to the list, they take nothing from it. *)
Lemma parse_lines_keeps rest : forall self line_num r,
  In r (references self) -> In r (references (parse_lines self rest line_num)).
Proof.
  induction rest as [|line rest IH]; intros self line_num r Hin; cbn; [done|].
  apply IH. destruct (parse_line_records self line line_num) as [-> _].
  apply in_or_app. by left.
Qed.

(** A match on a line with no heading on it or above it is recorded,
    without a figure. *)
Lemma parse_lines_records rest : forall (n : nat) self line_num line r,
  current_figure self = None ->
  rest !! n = Some line ->
  no_heading_in_first (S n) rest ->
  In r (line_references None line (line_num + Z.of_nat n)) ->
  In r (references (parse_lines self rest line_num)).
Proof.
  unfold no_heading_in_first.
  induction rest as [|first rest IH]; intros n self line_num line r Hcf Hline Hnone Hin;
    [done|].
  cbn [take] in Hnone. apply Forall_cons in Hnone as [Hfirst Hnone].
  destruct (parse_line_records self first line_num) as [Hrefs Hcf'].
  assert (figure_for self first = None) as Hfig.
  { unfold figure_for. by rewrite Hfirst. }
  rewrite Hfig in Hrefs, Hcf'. cbn [parse_lines].
  destruct n as [|n].
  - injection Hline as ->. apply parse_lines_keeps. rewrite Hrefs.
    apply in_or_app. right. by rewrite Z.add_0_r in Hin.
  - apply (IH n _ _ line); [done|done|done|].
    by replace (line_num + 1 + Z.of_nat n) with (line_num + Z.of_nat (S n)) by lia.
Qed.

End ParserRecords.

Section ExpectedColors.
Import Parser.

Lemma expected_step_no_figure result r :
  ref_figure r = None -> expected_step result r = result.
Proof. unfold expected_step. by intros ->. Qed.

Lemma expected_colors_without before r after :
  ref_figure r = None ->
  expected_colors_of (before ++ r :: after) = expected_colors_of (before ++ after).
Proof.
  intros H. unfold expected_colors_of. rewrite !fold_left_app. cbn.
  by rewrite expected_step_no_figure.
Qed.

(** Every entry of the mapping comes from a reference. *)
Lemma expected_colors_from (P : Z -> Z -> string -> Prop) refs : forall acc,
  (forall r, In r refs ->
             forall f n, ref_figure r = Some f -> ref_number r = Some n ->
                         P f n (ref_color r)) ->
  (forall f m n c, acc !! f = Some m -> m !! n = Some c -> P f n c) ->
  forall f m n c,
    fold_left expected_step refs acc !! f = Some m -> m !! n = Some c -> P f n c.
Proof.
  induction refs as [|r refs IH]; intros acc Hrefs Hacc; cbn; [done|].
  apply IH; [intros r' Hin; apply Hrefs; by right|].
  unfold expected_step.
  destruct (truthy_int (ref_figure r)) eqn:Hf; cbn [andb]; [|done].
  destruct (truthy_int (ref_number r)) eqn:Hn; [|done].
  apply truthy_int_Some in Hf as (fig & Hfig & _).
  apply truthy_int_Some in Hn as (num & Hnum & _).
  rewrite Hfig, Hnum. cbn [get].
  intros f m n c Hm Hc.
  destruct (decide (fig = f)) as [<-|Hne].
  - rewrite lookup_insert_eq in Hm. injection Hm as <-.
    destruct (decide (num = n)) as [<-|Hne].
    + rewrite lookup_insert_eq in Hc. injection Hc as <-.
      apply (Hrefs r); [by left|done..].
    + rewrite lookup_insert_ne in Hc by done.
      destruct (acc !! fig) as [inner|] eqn:Hinner; cbn [get] in Hc.
      * by apply (Hacc fig inner).
      * by rewrite lookup_empty in Hc.
  - rewrite lookup_insert_ne in Hm by done. by apply (Hacc f m).
Qed.

End ExpectedColors.

(** C10. Every colour reference matched on a line with no figure heading
    on it or above it is recorded in [references], with [figure = None]:
    one record for every match of each of the four patterns on that line.
    Every record of [references] whose line has no heading on it or above
    it has [figure = None], is in no list of [by_figure], and
    [get_expected_colors] is the same with or without it. Every entry of
    [get_expected_colors] comes from a reference whose figure and number
    are both set. *)
Theorem reference_before_first_heading (text : string) :
  let self := Parser.parse_text Parser.new_parser text in
  let lines := Str.split "010" text in
  (forall (n : nat) line r,
      lines !! n = Some line ->
      no_heading_in_first (S n) lines ->
      In r (line_references None line (Z.of_nat n + 1)) ->
      In r (Parser.references self)
      /\ Parser.ref_figure r = None
      /\ Parser.ref_line r = Z.of_nat n + 1)
  /\ (forall r,
         In r (Parser.references self) ->
         no_heading_in_first (Z.to_nat (Parser.ref_line r)) lines ->
         Parser.ref_figure r = None
         /\ (forall f l, Parser.by_figure self !! f = Some l -> ~ In r l)
         /\ (forall before after,
                Parser.references self = before ++ r :: after ->
                Parser.get_expected_colors self
                = Parser.expected_colors_of (before ++ after)))
  /\ (forall f m n c,
         Parser.get_expected_colors self !! f = Some m -> m !! n = Some c ->
         exists r', In r' (Parser.references self)
                    /\ Parser.ref_figure r' = Some f
                    /\ Parser.ref_number r' = Some n
                    /\ Parser.ref_color r' = c).
Proof.
  intros self lines.
  assert (parsed lines (length lines) self) as (Hrefs & _ & Hby).
  { apply (parsed_lines lines lines [] (Parser.TCP [] ∅ None)); [done|].
    split; [intros ? []|]. split; [done|].
    unfold by_figure_ok. cbn [Parser.by_figure]. intros f l r'.
    by rewrite lookup_empty. }
  split; [|split].
  - intros n line r Hline Hnone Hmatched. split.
    + apply (parse_lines_records lines n _ 1 line); [done|done|done|].
      by rewrite Z.add_comm.
    + clear -Hmatched. unfold line_references in Hmatched.
      rewrite !in_app_iff, !in_map_iff, in_flat_map in Hmatched.
      destruct Hmatched as [(m & <- & _)|[(m & <- & _)|[(m & <- & _)|(m & _ & Hm)]]];
        try done.
      unfold circled_reference in Hm.
      repeat case_match; try done; by destruct Hm as [<-|[]].
  - intros r Hin Hnone.
    destruct (Hrefs r Hin) as [_ Hfig]. specialize (Hfig Hnone).
    split; [done|]. split.
    + intros f l Hl Hr. destruct (Hby f l r Hl Hr) as [Hf _]. congruence.
    + intros before after Hsplit. unfold Parser.get_expected_colors.
      rewrite Hsplit. by apply expected_colors_without.
  - unfold Parser.get_expected_colors, Parser.expected_colors_of.
    apply (expected_colors_from
             (fun f n c => exists r', In r' (Parser.references self)
                                      /\ Parser.ref_figure r' = Some f
                                      /\ Parser.ref_number r' = Some n
                                      /\ Parser.ref_color r' = c)).
    + intros r' Hr' f n Hf Hn. by exists r'.
    + intros f m n c. by rewrite lookup_empty.
Qed.

(** In [early_reference_text] the match ["(red callout 1)"] of line 1 is
    recorded, and only the reference under ["Figure 1"] reaches
    [get_expected_colors]. *)
Lemma reference_before_first_heading_witness :
  let self := Parser.parse_text Parser.new_parser early_reference_text in
  let lines := Str.split "010" early_reference_text in
  let r := Parser.ColorRef "red" "#C00000" "callout" (Some 1) 1 None
             "parenthetical" "Press the (red callout 1) key." in
  lines !! 0%nat = Some "Press the (red callout 1) key."
  /\ no_heading_in_first 1 lines
  /\ In r (line_references None "Press the (red callout 1) key." 1)
  /\ In r (Parser.references self)
  /\ (forall f l, Parser.by_figure self !! f = Some l -> ~ In r l)
  /\ Parser.get_expected_colors self = {[ 1 := {[ 2 := "blue" ]} ]}.
Proof.
  intros self lines r.
  assert (lines !! 0%nat = Some "Press the (red callout 1) key.") as Hline
    by reflexivity.
  assert (no_heading_in_first 1 lines) as Hnone.
  { constructor; [vm_compute; reflexivity|constructor]. }
  assert (In r (line_references None "Press the (red callout 1) key." 1)) as Hmatched.
  { vm_compute. left. reflexivity. }
  destruct (reference_before_first_heading early_reference_text)
    as (Hrecorded & Hexcluded & _).
  destruct (Hrecorded 0%nat _ r Hline Hnone Hmatched) as (Hin & _ & _).
  destruct (Hexcluded r Hin Hnone) as (_ & Hby & _).
  split; [exact Hline|]. split; [exact Hnone|]. split; [exact Hmatched|].
  split; [exact Hin|]. split; [exact Hby|].
  vm_compute. reflexivity.
Defined.

(* ===================================================================== *)
(** * Further properties of the geometry utilities                        *)
(* ===================================================================== *)

Section Rounding.

Lemma truncate_round_half_even (m : positive) (e : Z) :
  Py.truncate m e <= Py.round_half_even m e <= Py.truncate m e + 1.
Proof.
  unfold Py.truncate, Py.round_half_even. destruct e as [|p|p]; try lia.
  destruct (_ ?= _); [destruct (Z.even _)|..]; lia.
Qed.

Lemma int_round_within_one (f : float) :
  match Py.int f, Py.round f with
  | Py.Ok a, Py.Ok b => Z.abs (b - a) <= 1
  | Py.Raise e1, Py.Raise e2 => e1 = e2
  | _, _ => False
  end.
Proof.
  unfold Py.int, Py.round. destruct (Prim2SF f) as [| | |s m e]; try done.
  pose proof (truncate_round_half_even m e). destruct s; cbn; lia.
Qed.

End Rounding.

(** X1. The two copies of [percent_to_pixels] raise the same exception on
    the same inputs, and where they return they differ by one pixel at
    most. *)
Theorem percent_to_pixels_copies_within_one (percent : Py.num) (dimension : Z) :
  match Legacy.percent_to_pixels percent dimension,
        percent_to_pixels percent dimension with
  | Py.Ok a, Py.Ok b => Z.abs (b - a) <= 1
  | Py.Raise e1, Py.Raise e2 => e1 = e2
  | _, _ => False
  end.
Proof.
  unfold Legacy.percent_to_pixels, percent_to_pixels.
  destruct (Py.truediv percent (Py.NInt 100)) as [q|e]; cbn [Py.bind]; [|done].
  destruct (Py.mul_float_int q dimension) as [p|e]; cbn [Py.bind]; [|done].
  apply int_round_within_one.
Qed.

(** X2. Whatever the image width, a radius [calculate_dynamic_radius]
    returns lies between 14 and 28; with other limits [lo <= hi] it lies
    between those. *)
Theorem dynamic_radius_range (image_width base lo hi : Z) :
  match calculate_dynamic_radius image_width with
  | Py.Ok r => 14 <= r <= 28
  | Py.Raise _ => True
  end
  /\ match calculate_dynamic_radius_with image_width base lo hi with
     | Py.Ok r => lo <= r /\ (lo <= hi -> r <= hi)
     | Py.Raise _ => True
     end.
Proof.
  unfold calculate_dynamic_radius, calculate_dynamic_radius_with.
  destruct (Py.mul_int_float image_width _) as [scaled|e]; cbn [Py.bind]; [|done].
  destruct (Py.round scaled) as [r|e]; cbn [Py.bind]; [|done].
  lia.
Qed.

Section BoundsAndClamp.

Variable self : AnnotationValidator.

Lemma check_bounds_ok x y radius :
  fst (check_bounds self x y radius) = true ->
  check_bounds self x y radius = (true, "OK").
Proof.
  unfold check_bounds.
  repeat match goal with
    | |- context [if ?b then _ else _] => destruct b
    end; cbn; done.
Qed.

Lemma check_bounds_within x y radius :
  (margin self <= x - radius /\ x + radius <= width self - margin self)
  /\ (margin self <= y - radius /\ y + radius <= height self - margin self) ->
  check_bounds self x y radius = (true, "OK").
Proof.
  intros H. unfold check_bounds.
  repeat match goal with
    | |- context [if ?b then _ else _] => destruct b eqn:?
    end; try done; lia.
Qed.

Lemma clamp_then_check x y radius :
  2 * (radius + margin self) <= width self ->
  2 * (radius + margin self) <= height self ->
  check_bounds self
    (fst (clamp_to_bounds x y radius (width self) (height self) (margin self)))
    (snd (clamp_to_bounds x y radius (width self) (height self) (margin self)))
    radius = (true, "OK").
Proof.
  intros Hw Hh. unfold clamp_to_bounds. cbn [fst snd].
  apply check_bounds_within. lia.
Qed.

End BoundsAndClamp.

(** X3. On a canvas that can hold the annotation, a clamped centre passes
    [check_bounds]. *)
Theorem clamped_centre_passes_check
    (self : AnnotationValidator) (x y radius : Z) :
  fits self radius ->
  let '(x', y') :=
    clamp_to_bounds x y radius (width self) (height self) (margin self) in
  check_bounds self x' y' radius = (true, "OK").
Proof.
  intros [Hw Hh]. pose proof (clamp_then_check self x y radius Hw Hh) as H.
  by destruct (clamp_to_bounds x y radius (width self) (height self) (margin self)).
Qed.

Lemma clamped_centre_passes_check_witness :
  fits (new_validator 1000 1000 5) 28
  /\ check_bounds (new_validator 1000 1000 5) 33 967 28 = (true, "OK").
Proof.
  assert (fits (new_validator 1000 1000 5) 28) as Hfits by (split; cbn; lia).
  split; [exact Hfits|].
  exact (clamped_centre_passes_check (new_validator 1000 1000 5) (-40) 2000 28 Hfits).
Defined.

(** X4. [check_bounds] accepts a centre exactly when the four bounds hold,
    and [clamp_to_bounds] leaves an accepted centre where it is. *)
Theorem accepted_centre_is_not_moved
    (self : AnnotationValidator) (x y radius : Z) :
  (fst (check_bounds self x y radius) = true
   <-> within_bounds self (Placed x y radius "" None))
  /\ (fst (check_bounds self x y radius) = true ->
      clamp_to_bounds x y radius (width self) (height self) (margin self) = (x, y)).
Proof.
  split; [split|].
  - intros H. apply check_bounds_true in H. exact H.
  - intros H. unfold within_bounds, x_within, y_within in H. cbn in H.
    by rewrite check_bounds_within.
  - intros H. apply check_bounds_true in H. unfold clamp_to_bounds.
    f_equal; lia.
Qed.

Lemma accepted_centre_is_not_moved_witness :
  fst (check_bounds (new_validator 1000 1000 5) 500 500 28) = true
  /\ clamp_to_bounds 500 500 28 1000 1000 5 = (500, 500).
Proof.
  split; [reflexivity|].
  apply (accepted_centre_is_not_moved (new_validator 1000 1000 5) 500 500 28).
  reflexivity.
Defined.

(* ===================================================================== *)
(** * Further properties of the validator                                 *)
(* ===================================================================== *)

Section Collisions.

Lemma check_collision_loop_spec x y radius min_gap todo : forall acc cols,
  check_collision_loop x y radius min_gap todo acc = Py.Ok cols ->
  exists new,
    cols = acc ++ new
    /\ sublist (map col_placed new) todo
    /\ Forall (collision_record_ok radius min_gap) new.
Proof.
  induction todo as [|p todo IH]; intros acc cols H; cbn in H.
  - injection H as <-. exists []. rewrite app_nil_r. repeat constructor.
  - bind_inv H. destruct (Py.float_lt_int a _) eqn:Hlt.
    + bind_inv H. apply IH in H as (new & -> & Hsub & Hall).
      eexists (_ :: new). rewrite <- app_assoc. split; [reflexivity|].
      split; [by apply sublist_skip|]. constructor; [|done].
      by repeat split.
    + apply IH in H as (new & -> & Hsub & Hall).
      exists new. split; [done|]. split; [by apply sublist_cons|done].
Qed.

End Collisions.

(** X5. The collisions [check_collision] returns are taken, in order, from
    the placed annotations: their records form a sublist of
    [placed_annotations], each with [required = radius + other radius +
    min_gap], a distance below it and [overlap = required - distance]. With
    nothing placed there is no collision. *)
Theorem collisions_are_placed_annotations
    (self : AnnotationValidator) (x y radius min_gap : Z) :
  match check_collision self x y radius min_gap with
  | Py.Ok cols =>
      sublist (map col_placed cols) (placed_annotations self)
      /\ Forall (collision_record_ok radius min_gap) cols
      /\ (placed_annotations self = [] -> cols = [])
  | Py.Raise _ => True
  end.
Proof.
  destruct (check_collision self x y radius min_gap) as [cols|e] eqn:H; [|done].
  unfold check_collision in H.
  pose proof (check_collision_loop_spec _ _ _ _ _ _ _ H) as (new & -> & Hsub & Hall).
  cbn. split; [done|]. split; [done|].
  intros Hnil. rewrite Hnil in Hsub. apply sublist_nil_r in Hsub.
  by destruct new.
Qed.

(** X6. On a canvas that can hold the annotation, the position
    [suggest_adjustment] returns for a non-empty list of collisions passes
    [check_bounds]; for an empty list it is the position it was given. *)
Theorem suggested_position_is_in_bounds
    (self : AnnotationValidator) (x y radius : Z) (cols : list collision) :
  fits self radius ->
  match suggest_adjustment self x y radius cols with
  | Py.Ok (x', y') =>
      (cols <> [] -> check_bounds self x' y' radius = (true, "OK"))
      /\ (cols = [] -> (x', y') = (x, y))
  | Py.Raise _ => True
  end.
Proof.
  intros Hfits.
  destruct (suggest_adjustment self x y radius cols) as [[x' y']|e] eqn:H; [|done].
  split.
  - intros Hne.
    apply suggest_adjustment_clamped in H as (nx & ny & Heq); [|done].
    destruct Hfits as [Hw Hh].
    pose proof (clamp_then_check self nx ny radius Hw Hh) as Hc.
    by rewrite <- Heq in Hc.
  - intros ->. cbn in H. by injection H as <- <-.
Qed.

Lemma suggested_position_is_in_bounds_witness :
  let self := Validator 1000 1000 5 [Placed 500 500 28 "callout" (Some 1)] in
  fits self 28
  /\ suggest_adjustment self 500 500 28
       [Collision (Placed 500 500 28 "callout" (Some 1)) 0%float 61 61%float]
     = Py.Ok (566, 566)
  /\ check_bounds self 566 566 28 = (true, "OK").
Proof.
  intros self.
  assert (fits self 28) as Hfits by (split; cbn; lia).
  assert (suggest_adjustment self 500 500 28
            [Collision (Placed 500 500 28 "callout" (Some 1)) 0%float 61 61%float]
          = Py.Ok (566, 566)) as Hs by (vm_compute; reflexivity).
  split; [exact Hfits|]. split; [exact Hs|].
  pose proof (suggested_position_is_in_bounds self 500 500 28
                [Collision (Placed 500 500 28 "callout" (Some 1)) 0%float 61 61%float]
                Hfits) as H.
  rewrite Hs in H. apply H. discriminate.
Defined.

Section ValidateAll.

Lemma count_cons {A} (f : A -> bool) x l :
  count f (x :: l) = (if f x then 1 else 0) + count f l.
Proof. unfold count. cbn. destruct (f x); cbn [length]; lia. Qed.

Lemma count_range {A} (f : A -> bool) l :
  0 <= count f l <= Z.of_nat (length l).
Proof.
  induction l as [|x l IH]; [unfold count; cbn; lia|].
  rewrite count_cons. cbn [length]. destruct (f x); lia.
Qed.

Lemma count_negb {A} (f : A -> bool) l :
  count f l + count (fun x => negb (f x)) l = Z.of_nat (length l).
Proof.
  induction l as [|x l IH]; [unfold count; cbn; lia|].
  rewrite !count_cons. cbn [length]. destruct (f x); cbn; lia.
Qed.

Lemma count_zero_forallb {A} (f : A -> bool) l :
  count (fun x => negb (f x)) l = 0 <-> forallb f l = true.
Proof.
  induction l as [|x l IH]; [unfold count; cbn; tauto|].
  rewrite count_cons. cbn [forallb]. pose proof (count_range (fun x => negb (f x)) l).
  destruct (f x); cbn; [exact IH|]. split; [lia|discriminate].
Qed.

Lemma count_map {A B} (g : A -> B) (f : B -> bool) l :
  count f (map g l) = count (fun x => f (g x)) l.
Proof.
  induction l as [|x l IH]; [done|].
  cbn [map]. by rewrite !count_cons, IH.
Qed.

Lemma count_ext {A} (f g : A -> bool) l :
  (forall x, f x = g x) -> count f l = count g l.
Proof.
  intros H. induction l as [|x l IH]; [done|]. by rewrite !count_cons, H, IH.
Qed.

Lemma forallb_map_id {A} (g : A -> bool) l :
  forallb (fun b => b) (map g l) = forallb g l.
Proof. induction l as [|x l IH]; [done|]. cbn. by rewrite IH. Qed.

(** One call: what it reports and what it registers. *)
Lemma validate_and_adjust_step self ann r self' :
  validate_and_adjust self ann = Py.Ok (r, self') ->
  exists x y radius ox oy,
    self' = set_placed self
              (placed_annotations self
                 ++ [Placed x y radius (type_of ann) (ann_number ann)])
    /\ valid r = negb (missing_description ann)
    /\ original_position r = Some (ox, oy, radius)
    /\ (adjusted r = false ->
        (x, y) = (ox, oy) /\ warnings r = [] /\ adjusted_position r = None)
    /\ (adjusted r = true ->
        adjusted_position r = Some (x, y, radius) /\ warnings r <> []).
Proof.
  intros H.
  destruct (validate_and_adjust_inv self ann r self' H)
    as (ox & oy & radius & cols & x & y & Hb & Hc & Ha).
  rewrite (validate_and_adjust_returns self ann ox oy radius cols x y Hb Hc Ha) in H.
  injection H as <- <-. exists x, y, radius, ox, oy.
  cbn [valid adjusted original_position adjusted_position warnings].
  split; [reflexivity|]. split; [reflexivity|]. split; [reflexivity|].
  unfold after_bounds in Ha.
  destruct (fst (check_bounds self ox oy radius)); cbn [negb orb fst snd] in *.
  - destruct cols as [|c cols]; cbn [length Nat.eqb negb].
    + cbn in Ha. injection Ha as <- <-. split; [done|discriminate].
    + split; [discriminate|]. intros _. split; [done|]. by destruct cols.
  - split; [discriminate|]. intros _. split; [done|]. discriminate.
Qed.

(** The loop of [validate_all], from any state and any running summary. *)
Lemma validate_all_loop_spec anns : forall self i res s self',
  validate_all_loop self i anns res = (Py.Ok s, self') ->
  exists new newp,
    sum_annotations s = sum_annotations res ++ new
    /\ placed_annotations self' = placed_annotations self ++ newp
    /\ map iv_annotation new = anns
    /\ map iv_index new = seqZ i (Z.of_nat (length anns))
    /\ map (fun v => valid (iv_result v)) new
       = map (fun a => negb (missing_description a)) anns
    /\ map placed_type newp = map type_of anns
    /\ map placed_number newp = map ann_number anns
    /\ sum_total s = sum_total res
    /\ sum_valid s = sum_valid res + count (fun v => valid (iv_result v)) new
    /\ sum_errors s
       = sum_errors res + count (fun v => negb (valid (iv_result v))) new
    /\ sum_adjusted s
       = sum_adjusted res + count (fun v => adjusted (iv_result v)) new
    /\ sum_all_valid s
       = sum_all_valid res && forallb (fun v => valid (iv_result v)) new.
Proof.
  induction anns as [|ann anns IH]; intros self i res s self' H; cbn in H.
  - injection H as <- <-. exists [], []. rewrite !app_nil_r.
    unfold count. cbn. rewrite andb_true_r. repeat split; lia.
  - destruct (validate_and_adjust self ann) as [[r self1]|e] eqn:Hstep; [|done].
    apply validate_and_adjust_step in Hstep
      as (x & y & radius & ox & oy & -> & Hvalid & _).
    apply IH in H as (new & newp & Hann & Hpl & Hmap & Hidx & Hval & Hty & Hnum
                      & Htot & Hv & He & Hadj & Hall).
    cbn [sum_annotations sum_total sum_valid sum_errors sum_adjusted sum_all_valid
           placed_annotations set_placed] in *.
    eexists (Indexed r i ann :: new), (_ :: newp).
    rewrite Hann, Hpl, <- !app_assoc. cbn [app map length iv_annotation iv_index
                                             iv_result placed_type placed_number forallb].
    rewrite !count_cons. cbn [iv_result].
    split; [reflexivity|]. split; [reflexivity|]. split; [by rewrite Hmap|].
    split.
    { rewrite (seqZ_cons i) by lia. f_equal. rewrite Hidx. f_equal; lia. }
    split; [by rewrite Hval, Hvalid|].
    split; [by rewrite Hty|]. split; [by rewrite Hnum|].
    split; [done|].
    rewrite Hv, He, Hadj, Hall.
    destruct (valid r), (adjusted r); cbn; repeat split; try lia;
      by rewrite ?andb_false_r.
Qed.

End ValidateAll.

(** X7. When [validate_all] returns, its summary is consistent with its
    input: [total] is the number of descriptors, the entries carry the
    descriptors in order with the indices 0, 1, ..., [valid] and [adjusted]
    count the entries so flagged, [valid + errors = total], [all_valid]
    holds exactly when [errors] is 0, and one record per descriptor has
    been placed, in order, under the descriptor's type and number. *)
Theorem validate_all_summary
    (self : AnnotationValidator) (anns : list annotation) :
  match validate_all self anns with
  | (Py.Ok s, self') =>
      sum_total s = Z.of_nat (length anns)
      /\ map iv_annotation (sum_annotations s) = anns
      /\ map iv_index (sum_annotations s) = seqZ 0 (Z.of_nat (length anns))
      /\ sum_valid s = count valid (results_of s)
      /\ sum_adjusted s = count adjusted (results_of s)
      /\ sum_valid s + sum_errors s = sum_total s
      /\ 0 <= sum_adjusted s <= sum_total s
      /\ (sum_all_valid s = true <-> sum_errors s = 0)
      /\ map placed_type (placed_annotations self') = map type_of anns
      /\ map placed_number (placed_annotations self') = map ann_number anns
  | (Py.Raise _, _) => True
  end.
Proof.
  destruct (validate_all self anns) as [[s|e] self'] eqn:H; [|done].
  unfold validate_all in H.
  apply validate_all_loop_spec in H
    as (new & newp & Hann & Hpl & Hmap & Hidx & Hval & Hty & Hnum
        & Htot & Hv & He & Hadj & Hall).
  cbn [sum_annotations sum_total sum_valid sum_errors sum_adjusted sum_all_valid
         placed_annotations set_placed app] in *.
  unfold results_of. rewrite Hann, Hpl, !count_map.
  assert (length new = length anns) as Hlen.
  { by rewrite <- Hmap, length_map. }
  pose proof (count_negb (fun v => valid (iv_result v)) new) as Hsum.
  pose proof (count_range (fun v => adjusted (iv_result v)) new) as Hrange.
  rewrite Hlen in Hsum, Hrange.
  repeat split; try done; try lia.
  - rewrite Hall, He. cbn. intros Hf. by apply count_zero_forallb.
  - rewrite Hall, He. cbn. intros Hz. apply count_zero_forallb.
    rewrite <- Hz. lia.
Qed.

(** X8. When [validate_all] returns, [errors] is the number of descriptors
    that lack the description their type requires, whatever their
    positions: [all_valid] holds exactly when no descriptor lacks it. *)
Theorem validate_all_errors_are_missing_descriptions
    (self : AnnotationValidator) (anns : list annotation) :
  match validate_all self anns with
  | (Py.Ok s, _) =>
      sum_errors s = count missing_description anns
      /\ sum_valid s = count (fun a => negb (missing_description a)) anns
      /\ (sum_all_valid s = true
          <-> forallb (fun a => negb (missing_description a)) anns = true)
  | (Py.Raise _, _) => True
  end.
Proof.
  destruct (validate_all self anns) as [[s|e] self'] eqn:H; [|done].
  unfold validate_all in H.
  apply validate_all_loop_spec in H
    as (new & newp & _ & _ & _ & _ & Hval & _ & _ & _ & Hv & He & _ & Hall).
  cbn [sum_valid sum_errors sum_all_valid] in *.
  assert (forall f : bool -> bool,
             count (fun v => f (valid (iv_result v))) new
             = count (fun a => f (negb (missing_description a))) anns) as Hcount.
  { intros f.
    rewrite <- (count_map (fun v => valid (iv_result v)) f new).
    rewrite <- (count_map (fun a => negb (missing_description a)) f anns).
    by rewrite Hval. }
  split; [|split].
  - rewrite He, (Hcount negb). cbn.
    apply count_ext. intros a. apply negb_involutive.
  - rewrite Hv. exact (Hcount (fun b => b)).
  - rewrite Hall. cbn.
    rewrite <- (forallb_map_id (fun v => valid (iv_result v)) new).
    rewrite <- (forallb_map_id (fun a => negb (missing_description a)) anns).
    by rewrite Hval.
Qed.

Section ValidateAllGrows.

Lemma validate_all_loop_app a1 : forall a2 self i res,
  validate_all_loop self i (a1 ++ a2) res
  = match validate_all_loop self i a1 res with
    | (Py.Ok s1, self1) =>
        validate_all_loop self1 (i + Z.of_nat (length a1)) a2 s1
    | (Py.Raise e, self1) => (Py.Raise e, self1)
    end.
Proof.
  induction a1 as [|ann a1 IH]; intros a2 self i res; cbn [app validate_all_loop].
  - cbn. by rewrite Z.add_0_r.
  - destruct (validate_and_adjust self ann) as [[r self1]|e]; [|done].
    rewrite IH. cbn [length].
    by replace (i + 1 + Z.of_nat (length a1)) with (i + Z.of_nat (S (length a1))) by lia.
Qed.

Lemma validate_all_loop_with_total t anns : forall self i res,
  validate_all_loop self i anns (with_total t res)
  = match validate_all_loop self i anns res with
    | (Py.Ok s, self') => (Py.Ok (with_total t s), self')
    | (Py.Raise e, self') => (Py.Raise e, self')
    end.
Proof.
  induction anns as [|ann anns IH]; intros self i res; cbn [validate_all_loop].
  - done.
  - destruct (validate_and_adjust self ann) as [[r self1]|e]; [|done].
    cbn [with_total sum_annotations sum_total sum_valid sum_adjusted sum_errors
           sum_all_valid].
    match goal with
    | |- _ = (let (_, _) := validate_all_loop _ _ _ ?s2 in _) =>
        exact (IH self1 (i + 1) s2)
    end.
Qed.

Lemma validate_all_loop_placed_prefix anns : forall self i res,
  placed_annotations self
    `prefix_of` placed_annotations (snd (validate_all_loop self i anns res)).
Proof.
  induction anns as [|ann anns IH]; intros self i res; cbn [validate_all_loop].
  - done.
  - destruct (validate_and_adjust self ann) as [[r self1]|e] eqn:Hstep; [|done].
    apply validate_and_adjust_step in Hstep as (x & y & radius & ox & oy & -> & _).
    etrans; [|apply IH]. cbn. by apply prefix_app_r.
Qed.

End ValidateAllGrows.

(** X9. Descriptors added at the end of the list leave the earlier ones
    alone: if [validate_all] returns on a list, then on any longer list
    that starts with it the records it had placed are the first ones
    placed, and its results are the first results. *)
Theorem earlier_annotations_are_not_moved
    (self : AnnotationValidator) (anns more : list annotation)
    (s : summary) (self1 : AnnotationValidator) :
  validate_all self anns = (Py.Ok s, self1) ->
  placed_annotations self1
    `prefix_of` placed_annotations (snd (validate_all self (anns ++ more)))
  /\ match fst (validate_all self (anns ++ more)) with
     | Py.Ok s' => results_of s `prefix_of` results_of s'
     | Py.Raise _ => True
     end.
Proof.
  unfold validate_all. intros H.
  replace (Summary [] (Z.of_nat (length (anns ++ more))) 0 0 0 true)
    with (with_total (Z.of_nat (length (anns ++ more)))
            (Summary [] (Z.of_nat (length anns)) 0 0 0 true)) by done.
  rewrite validate_all_loop_with_total, validate_all_loop_app, H.
  match goal with
  | |- context [validate_all_loop self1 ?i more s] =>
      pose proof (validate_all_loop_placed_prefix more self1 i s) as Hp;
      destruct (validate_all_loop self1 i more s) as [[s'|e] self2] eqn:Hloop
  end; cbn [fst snd] in *.
  - split; [done|].
    apply validate_all_loop_spec in Hloop as (new & _ & Hann & _).
    unfold results_of. cbn [with_total sum_annotations]. rewrite Hann, map_app.
    by apply prefix_app_r.
  - done.
Qed.

Lemma earlier_annotations_are_not_moved_witness :
  let self := new_validator 1000 1000 5 in
  let first := centre_callout 1 (Some "Sign in") None in
  placed_annotations (snd (validate_all self [first]))
  = [Placed 500 500 28 "callout" (Some 1)]
  /\ [Placed 500 500 28 "callout" (Some 1)]
       `prefix_of` placed_annotations
                     (snd (validate_all self ([first] ++ [centre_callout 2 None None]))).
Proof.
  intros self first. split; [vm_compute; reflexivity|].
  destruct (validate_all self [first]) as [[s|e] self1] eqn:H;
    [|vm_compute in H; discriminate].
  destruct (earlier_annotations_are_not_moved self [first]
              [centre_callout 2 None None] s self1 H) as [Hprefix _].
  vm_compute in H. injection H as _ <-. exact Hprefix.
Defined.

(** X10. A returning [validate_and_adjust] reports what it registers. With
    [adjusted = False] the record is placed on the original centre, there
    is no warning and no [adjusted_position]; with [adjusted = True] there
    is a warning and [adjusted_position] is the centre and radius of the
    record. In both cases the radius is the original one, and the record
    carries the type and number of the descriptor. *)
Theorem reported_position_is_the_placed_one
    (self : AnnotationValidator) (ann : annotation)
    (r : validation) (self' : AnnotationValidator) :
  validate_and_adjust self ann = Py.Ok (r, self') ->
  exists x y radius ox oy,
    placed_annotations self'
    = placed_annotations self ++ [Placed x y radius (type_of ann) (ann_number ann)]
    /\ original_position r = Some (ox, oy, radius)
    /\ (adjusted r = false ->
        (x, y) = (ox, oy) /\ warnings r = [] /\ adjusted_position r = None)
    /\ (adjusted r = true ->
        adjusted_position r = Some (x, y, radius) /\ warnings r <> []).
Proof.
  intros H.
  apply validate_and_adjust_step in H
    as (x & y & radius & ox & oy & -> & _ & Horig & Hfalse & Htrue).
  exists x, y, radius, ox, oy. done.
Qed.

Lemma reported_position_is_the_placed_one_witness :
  let self := Validator 1000 1000 5 [Placed 500 500 28 "callout" (Some 1)] in
  exists r self',
    validate_and_adjust self (centre_callout 2 None None) = Py.Ok (r, self')
    /\ adjusted_position r = Some (566, 566, 28)
    /\ placed_annotations self'
       = [Placed 500 500 28 "callout" (Some 1); Placed 566 566 28 "callout" (Some 2)].
Proof.
  intros self.
  destruct (validate_and_adjust self (centre_callout 2 None None))
    as [[r self']|e] eqn:H; [|vm_compute in H; discriminate].
  exists r, self'. split; [reflexivity|].
  pose proof (reported_position_is_the_placed_one self _ r self' H)
    as (x & y & radius & ox & oy & Hplaced & _ & _ & _).
  vm_compute in H. injection H as <- <-. split; reflexivity.
Defined.

(** X11. Renderer and validator agree where no collision is involved: for
    a callout with both coordinates given, on a validator with the default
    margin 5, [draw_callout] without a precomputed position draws at the
    centre the validator holds after its bounds check, with the same
    radius; and one raises when the other does. *)
Theorem draw_callout_agrees_with_validator
    (self : AnnotationValidator) (ann : annotation) (px py : Py.num) :
  margin self = 5 ->
  ann_type ann = Some "callout" ->
  ann_position ann = Some (Position (Some px) (Some py)) ->
  match get_annotation_bounds self ann 18 with
  | Py.Ok (x, y, radius) =>
      draw_callout_centre (width self) (height self) px py None
      = Py.Ok (after_bounds self x y radius, radius)
  | Py.Raise _ =>
      exists e, draw_callout_centre (width self) (height self) px py None = Py.Raise e
  end.
Proof.
  intros Hm Hty Hpos.
  unfold get_annotation_bounds, draw_callout_centre. rewrite Hty, Hpos.
  cbn [get str_in existsb pos_x pos_y]. rewrite String.eqb_refl. cbn [orb].
  destruct (percent_to_pixels px (width self)) as [x|e1]; cbn [Py.bind].
  - destruct (percent_to_pixels py (height self)) as [y|e2]; cbn [Py.bind].
    + destruct (calculate_dynamic_radius (width self)) as [radius|e3]; cbn [Py.bind].
      * unfold after_bounds. rewrite Hm.
        destruct (fst (check_bounds self x y radius)) eqn:Hin.
        -- apply check_bounds_true in Hin. rewrite Hm in Hin.
           unfold clamp_to_bounds.
           rewrite !Z.max_r, !Z.min_l by lia. reflexivity.
        -- by destruct (clamp_to_bounds x y radius (width self) (height self) 5).
      * eauto.
    + destruct (calculate_dynamic_radius (width self)); cbn [Py.bind]; eauto.
  - destruct (calculate_dynamic_radius (width self)); cbn [Py.bind]; eauto.
Qed.

Lemma draw_callout_agrees_with_validator_witness :
  let self := new_validator 1000 1000 5 in
  get_annotation_bounds self (centre_callout 1 None None) 18 = Py.Ok (500, 500, 28)
  /\ draw_callout_centre 1000 1000 (Py.NInt 50) (Py.NInt 50) None
     = Py.Ok (500, 500, 28).
Proof.
  intros self.
  assert (get_annotation_bounds self (centre_callout 1 None None) 18
          = Py.Ok (500, 500, 28)) as Hb by (vm_compute; reflexivity).
  split; [exact Hb|].
  pose proof (draw_callout_agrees_with_validator self (centre_callout 1 None None)
                (Py.NInt 50) (Py.NInt 50) eq_refl eq_refl eq_refl) as H.
  rewrite Hb in H. exact H.
Defined.

(* ===================================================================== *)
(** * The colour manager                                                  *)
(* ===================================================================== *)

Section ColorManagerFacts.
Import ColorManager.

Lemma assoc_app_None {A} key (d : list (string * A)) (d' : list (string * A)) :
  assoc key d = None -> assoc key (d ++ d') = assoc key d'.
Proof.
  induction d as [|[k v] d IH]; [done|]. cbn.
  destruct (String.eqb k key); [discriminate|exact IH].
Qed.

Lemma assoc_app_Some {A} key (d d' : list (string * A)) v :
  assoc key d = Some v -> assoc key (d ++ d') = Some v.
Proof.
  induction d as [|[k w] d IH]; [done|]. cbn.
  destruct (String.eqb k key); [done|exact IH].
Qed.

Lemma assoc_None_not_in {A} key (d : list (string * A)) :
  assoc key d = None <-> ~ In key (map fst d).
Proof.
  induction d as [|[k v] d IH]; cbn; [tauto|].
  destruct (String.eqb_spec k key) as [->|Hne]; [split; [discriminate|tauto]|].
  rewrite IH. tauto.
Qed.

Lemma assoc_Some_in {A} key (d : list (string * A)) v :
  assoc key d = Some v -> In (key, v) d.
Proof.
  induction d as [|[k w] d IH]; cbn; [discriminate|].
  destruct (String.eqb_spec k key) as [->|Hne]; [intros [= ->]; by left|].
  intros H. right. by apply IH.
Qed.

Lemma find_name_Some name palette entry :
  find_name name palette = Some entry -> In entry palette /\ pe_name entry = name.
Proof.
  induction palette as [|e palette IH]; cbn; [discriminate|].
  destruct (String.eqb_spec (pe_name e) name) as [Heq|Hne].
  - intros [= <-]. split; [by left|done].
  - intros H. destruct (IH H). split; [by right|done].
Qed.

Lemma find_name_None name palette :
  find_name name palette = None -> forall e, In e palette -> pe_name e <> name.
Proof.
  induction palette as [|e palette IH]; cbn; [intros _ ? []|].
  destruct (String.eqb_spec (pe_name e) name) as [Heq|Hne]; [discriminate|].
  intros H e' [<-|Hin]; [done|by apply IH].
Qed.

Lemma palette_at_in (i : Z) :
  0 <= i -> In (palette_at (i mod Z.of_nat (length PALETTE))) PALETTE.
Proof.
  intros Hi. unfold palette_at. apply nth_In.
  pose proof (Z.mod_pos_bound i (Z.of_nat (length PALETTE))) as Hb.
  cbn in *. lia.
Qed.

(** The colour a new element receives. *)
Lemma assign_new self element_id suggested description_text :
  assoc element_id (assigned self) = None ->
  exists entry next,
    assign self element_id suggested description_text
    = (Color entry description_text element_id,
       Manager (assigned self ++ [(element_id, Color entry description_text element_id)])
         next)
    /\ ((exists name e, suggested = Some name /\ In e PALETTE /\ pe_name e = name) ->
        pe_name entry = get suggested "" /\ In entry PALETTE
        /\ next = next_index self)
    /\ ((forall name e, suggested = Some name -> In e PALETTE -> pe_name e <> name) ->
        entry = palette_at (next_index self mod 7)
        /\ next = next_index self + 1).
Proof.
  intros Hnew. unfold assign. rewrite Hnew.
  destruct suggested as [name|]; cbn [truthy_str get].
  - destruct (String.eqb_spec name "") as [->|Hne]; cbn [negb].
    + eexists _, _. split; [reflexivity|]. split.
      * intros (name & e & [= <-] & Hin & Hname).
        exfalso. cbn in Hin. intuition (subst; discriminate).
      * done.
    + destruct (find_name name PALETTE) as [entry|] eqn:Hfind.
      * apply find_name_Some in Hfind as [Hin Hname].
        eexists _, _. split; [reflexivity|]. split; [done|].
        intros Hnone. by destruct (Hnone name entry).
      * eexists _, _. split; [reflexivity|]. split; [|done].
        intros (name' & e & [= <-] & Hin & Hname).
        by destruct (find_name_None _ _ Hfind e Hin).
  - eexists _, _. split; [reflexivity|]. split; [|done].
    intros (name & e & [=] & _).
Qed.

Lemma manager_ok_assign self element_id suggested description_text :
  manager_ok self ->
  manager_ok (snd (assign self element_id suggested description_text)).
Proof.
  intros (Hdup & Hall & Hidx).
  destruct (assoc element_id (assigned self)) as [c|] eqn:Hassoc.
  - unfold assign. rewrite Hassoc. done.
  - destruct (assign_new self element_id suggested description_text Hassoc)
      as (entry & next & -> & Hsugg & Hrobin).
    assert (In entry PALETTE /\ 0 <= next) as [Hin Hnext].
    { unfold assign in *.
      destruct suggested as [name|]; cbn [truthy_str get] in *.
      - destruct (String.eqb_spec name "") as [->|Hne].
        + destruct Hrobin as [-> ->]; [|split; [by apply palette_at_in|lia]].
          intros name e [= <-] Hin. cbn in Hin. intuition (subst; discriminate).
        + destruct (find_name name PALETTE) as [e|] eqn:Hfind.
          * apply find_name_Some in Hfind as [Hin Hname].
            destruct Hsugg as (_ & ? & ->); [by exists name, e|]. done.
          * destruct Hrobin as [-> ->]; [|split; [by apply palette_at_in|lia]].
            intros name' e [= <-] Hin. by apply (find_name_None _ _ Hfind).
      - destruct Hrobin as [-> ->]; [done|]. split; [by apply palette_at_in|lia]. }
    cbn [snd]. unfold manager_ok. cbn [assigned next_index].
    split; [|split; [|done]].
    + rewrite map_app. cbn. apply NoDup_app. split; [done|]. split.
      * intros k Hk [->|[]]%list_elem_of_In.
        apply assoc_None_not_in in Hassoc. apply Hassoc. by apply list_elem_of_In.
      * apply NoDup_singleton.
    + apply Forall_app. split; [done|]. constructor; [|constructor]. by cbn.
Qed.

Lemma legend_from_spec items : forall i,
  map le_number (legend_from i items) = seqZ i (Z.of_nat (length items))
  /\ map le_element_id (legend_from i items) = map fst items
  /\ map le_hex (legend_from i items) = map (fun kv => pe_hex (col_entry (snd kv))) items.
Proof.
  induction items as [|[k c] items IH]; intros i; [done|].
  cbn [legend_from map length le_number le_element_id le_hex fst snd].
  destruct (IH (i + 1)) as (Hn & Hid & Hhex).
  rewrite Hn, Hid, Hhex. split; [|done].
  rewrite (seqZ_cons i) by lia. f_equal. f_equal; lia.
Qed.

Lemma legend_from_app items items' : forall i,
  legend_from i (items ++ items')
  = legend_from i items ++ legend_from (i + Z.of_nat (length items)) items'.
Proof.
  induction items as [|[k c] items IH]; intros i; cbn [app legend_from length].
  - by rewrite Z.add_0_r.
  - rewrite IH. cbn. do 3 f_equal. lia.
Qed.

End ColorManagerFacts.

(** X12. A colour, once assigned, stays: a second [assign] for the same
    element returns the entry of the first and changes nothing, whatever
    colour and text it suggests; [get_color] returns that entry. *)
Theorem assign_is_memoized
    (self : ColorManager.AnnotationColorManager) (element_id : string)
    (suggested suggested' : option string) (text text' : string) :
  let '(c, self1) := ColorManager.assign self element_id suggested text in
  ColorManager.assign self1 element_id suggested' text' = (c, self1)
  /\ ColorManager.get_color self1 element_id = Some c.
Proof.
  unfold ColorManager.get_color.
  destruct (assoc element_id (ColorManager.assigned self)) as [c|] eqn:Hassoc.
  - unfold ColorManager.assign. by rewrite !Hassoc.
  - destruct (assign_new self element_id suggested text Hassoc)
      as (entry & next & -> & _).
    unfold ColorManager.assign. cbn [ColorManager.assigned].
    rewrite (assoc_app_None _ _ _ Hassoc). cbn. by rewrite String.eqb_refl.
Qed.

(** X13. An element not seen before receives the suggested palette entry
    when the suggestion names one, and then [next_index] stays; otherwise
    (no suggestion, an empty one, or a name outside the palette, such as
    ["red"]) it receives [PALETTE[next_index % 7]] and [next_index] grows by
    one. The entry carries the text and the element id it was given. *)
Theorem assign_new_element
    (self : ColorManager.AnnotationColorManager) (element_id : string)
    (suggested : option string) (text : string) :
  ColorManager.get_color self element_id = None ->
  let '(c, self1) := ColorManager.assign self element_id suggested text in
  ColorManager.col_text c = text
  /\ ColorManager.col_element_id c = element_id
  /\ ColorManager.assigned self1 = ColorManager.assigned self ++ [(element_id, c)]
  /\ ((exists name e, suggested = Some name /\ In e ColorManager.PALETTE
                      /\ ColorManager.pe_name e = name) ->
      ColorManager.pe_name (ColorManager.col_entry c) = get suggested ""
      /\ In (ColorManager.col_entry c) ColorManager.PALETTE
      /\ ColorManager.next_index self1 = ColorManager.next_index self)
  /\ ((forall name e, suggested = Some name -> In e ColorManager.PALETTE ->
                      ColorManager.pe_name e <> name) ->
      ColorManager.col_entry c
      = ColorManager.palette_at (ColorManager.next_index self mod 7)
      /\ ColorManager.next_index self1 = ColorManager.next_index self + 1).
Proof.
  intros Hnew.
  destruct (assign_new self element_id suggested text Hnew)
    as (entry & next & -> & Hsugg & Hrobin).
  cbn. done.
Qed.

Lemma assign_new_element_witness :
  let '(c, self1) :=
    ColorManager.assign (ColorManager.Manager [] 8) "login_1" (Some "red") "Sign in" in
  ColorManager.get_color (ColorManager.Manager [] 8) "login_1" = None
  /\ ColorManager.pe_name (ColorManager.col_entry c) = "info"
  /\ ColorManager.next_index self1 = 9.
Proof.
  pose proof (assign_new_element (ColorManager.Manager [] 8) "login_1" (Some "red")
                "Sign in" eq_refl) as H.
  destruct (ColorManager.assign (ColorManager.Manager [] 8) "login_1" (Some "red")
              "Sign in") as [c self1].
  destruct H as (_ & _ & _ & _ & Hrobin).
  split; [reflexivity|].
  destruct Hrobin as [-> ->]; [|split; reflexivity].
  intros name e [= <-] Hin. cbn in Hin.
  intuition (subst; discriminate).
Defined.

(** X14. Every manager obtained from a new or a reset one by [assign]
    keeps its table sound: the element ids are distinct, each entry is
    filed under its own id, carries a colour of [PALETTE], and the [rgb]
    triple of that colour is what [hex_to_rgb] computes from its [hex]. *)
Theorem manager_table_is_sound :
  ColorManager.manager_ok ColorManager.new_manager
  /\ (forall self, ColorManager.manager_ok (ColorManager.reset self))
  /\ (forall self element_id suggested text,
         ColorManager.manager_ok self ->
         ColorManager.manager_ok
           (snd (ColorManager.assign self element_id suggested text)))
  /\ (forall self element_id c,
         ColorManager.manager_ok self ->
         ColorManager.get_color self element_id = Some c ->
         ColorManager.col_element_id c = element_id
         /\ In (ColorManager.col_entry c) ColorManager.PALETTE
         /\ hex_to_rgb (ColorManager.pe_hex (ColorManager.col_entry c))
            = Py.Ok (ColorManager.pe_rgb (ColorManager.col_entry c))).
Proof.
  assert (ColorManager.manager_ok (ColorManager.Manager [] 0)) as Hnew.
  { split; [constructor|]. split; [constructor|done]. }
  split; [exact Hnew|]. split; [intros self; exact Hnew|].
  split; [intros; by apply manager_ok_assign|].
  intros self element_id c (_ & Hall & _) Hget.
  apply assoc_Some_in in Hget. rewrite Forall_forall in Hall.
  apply list_elem_of_In, Hall in Hget as [Hid Hin]. cbn [fst snd] in *.
  split; [done|]. split; [done|].
  unfold ColorManager.PALETTE in Hin. cbn in Hin.
  repeat (destruct Hin as [<-|Hin]; [vm_compute; reflexivity|]).
  destruct Hin.
Qed.

Lemma manager_table_is_sound_witness :
  let self :=
    snd (ColorManager.assign ColorManager.new_manager "login_1" (Some "warning") "Warn") in
  ColorManager.manager_ok self
  /\ ColorManager.get_color self "login_1"
     = Some (ColorManager.Color
               (ColorManager.PaletteEntry "warning" "#FFC000" (255, 192, 0) "Caution")
               "Warn" "login_1").
Proof.
  intros self. split; [|reflexivity].
  destruct manager_table_is_sound as (Hnew & _ & Hassign & _).
  apply Hassign. exact Hnew.
Defined.

(** X15. The legend lists the assigned elements in the order of their
    first [assign], numbered 1, 2, ...; assigning an element already in
    the table leaves the legend as it is, and a new element is added at
    the end under the next number. *)
Theorem legend_follows_assignment_order
    (self : ColorManager.AnnotationColorManager) (element_id : string)
    (suggested : option string) (text : string) :
  let legend := ColorManager.get_legend_entries self in
  let '(c, self1) := ColorManager.assign self element_id suggested text in
  map ColorManager.le_number legend
  = seqZ 1 (Z.of_nat (length (ColorManager.assigned self)))
  /\ map ColorManager.le_element_id legend = map fst (ColorManager.assigned self)
  /\ (is_Some (ColorManager.get_color self element_id) ->
      ColorManager.get_legend_entries self1 = legend)
  /\ (ColorManager.get_color self element_id = None ->
      ColorManager.get_legend_entries self1
      = legend
          ++ [ColorManager.LegendEntry
                (Z.of_nat (length (ColorManager.assigned self)) + 1) element_id
                (ColorManager.pe_hex (ColorManager.col_entry c))
                (ColorManager.pe_rgb (ColorManager.col_entry c))
                (ColorManager.pe_name (ColorManager.col_entry c)) text]).
Proof.
  intros legend. subst legend. unfold ColorManager.get_legend_entries.
  destruct (legend_from_spec (ColorManager.assigned self) 1) as (Hn & Hid & _).
  unfold ColorManager.get_color.
  destruct (assoc element_id (ColorManager.assigned self)) as [c0|] eqn:Hassoc.
  - unfold ColorManager.assign. rewrite Hassoc.
    split; [done|]. split; [done|]. split; [done|discriminate].
  - destruct (assign_new self element_id suggested text Hassoc)
      as (entry & next & -> & _).
    cbn [ColorManager.assigned].
    split; [done|]. split; [done|]. split; [by intros [? [=]]|].
    intros _. rewrite legend_from_app. cbn. do 3 f_equal. lia.
Qed.

Section LegendItems.
Import ColorManager.





End LegendItems.



(* ===================================================================== *)
(** * The parser over a whole text                                        *)
(* ===================================================================== *)

Section ExpectedColorsOfReferences.
Import Parser.

Lemma expected_colors_snoc refs r :
  expected_colors_of (refs ++ [r]) = expected_step (expected_colors_of refs) r.
Proof. unfold expected_colors_of. by rewrite fold_left_app. Qed.

Lemma numbered_snoc f n refs r :
  numbered f n (refs ++ [r])
  = numbered f n refs
    ++ (if bool_decide (ref_figure r = Some f /\ ref_number r = Some n)
        then [r] else []).
Proof. unfold numbered. by rewrite List.filter_app. Qed.

Lemma expected_colors_lookup refs : forall f n,
  (expected_colors_of refs !! f) ≫= (fun m => m !! n)
  = if bool_decide (f = 0 \/ n = 0) then None
    else ref_color <$> last (numbered f n refs).
Proof.
  induction refs as [|r refs IH] using rev_ind; intros f n.
  { unfold expected_colors_of. cbn. rewrite lookup_empty. by case_bool_decide. }
  rewrite expected_colors_snoc, numbered_snoc. unfold expected_step.
  destruct (truthy_int (ref_figure r)) eqn:Hf; cbn [andb].
  - apply truthy_int_Some in Hf as (fig & Hfig & Hfnz).
    destruct (truthy_int (ref_number r)) eqn:Hn.
    + apply truthy_int_Some in Hn as (num & Hnum & Hnnz).
      rewrite Hfig, Hnum. cbn [get].
      destruct (decide (fig = f)) as [<-|Hne].
      * rewrite lookup_insert_eq. cbn [mbind option_bind].
        destruct (decide (num = n)) as [<-|Hne].
        -- rewrite lookup_insert_eq.
           rewrite (bool_decide_eq_false_2 (_ \/ _)) by lia.
           rewrite (bool_decide_eq_true_2 (_ /\ _)) by done.
           by rewrite last_snoc.
        -- rewrite lookup_insert_ne by done.
           rewrite (bool_decide_eq_false_2 (_ /\ _)) by (intros [_ [=]]; done).
           rewrite app_nil_r, <- IH.
           by destruct (expected_colors_of refs !! fig).
      * rewrite lookup_insert_ne by done.
        rewrite (bool_decide_eq_false_2 (_ /\ _)) by (intros [[=] _]; done).
        by rewrite app_nil_r.
    + rewrite IH. case_bool_decide as Hzero; [done|].
      rewrite (bool_decide_eq_false_2 (_ /\ _)); [by rewrite app_nil_r|].
      intros [_ Hn']. rewrite Hn' in Hn. cbn in Hn.
      apply negb_false_iff, Z.eqb_eq in Hn. lia.
  - rewrite IH. case_bool_decide as Hzero; [done|].
    rewrite (bool_decide_eq_false_2 (_ /\ _)); [by rewrite app_nil_r|].
    intros [Hf' _]. rewrite Hf' in Hf. cbn in Hf.
    apply negb_false_iff, Z.eqb_eq in Hf. lia.
Qed.

End ExpectedColorsOfReferences.

(** X17. [get_expected_colors] maps figure [f] and annotation [n] to the
    colour of the last reference to [n] under [f]; there is an entry
    exactly when there is such a reference and neither number is 0. *)
Theorem expected_color_is_the_last_reference
    (self : Parser.TextColorParser) (f n : Z) :
  (Parser.get_expected_colors self !! f) ≫= (fun m => m !! n)
  = if bool_decide (f = 0 \/ n = 0) then None
    else Parser.ref_color <$> last (numbered f n (Parser.references self)).
Proof. apply expected_colors_lookup. Qed.

Section Grouping.
Import Parser.

Lemma fold_left_invariant {S M : Type} (P : S -> Prop) (step : S -> M -> S)
    (ms : list M) :
  (forall s m, P s -> P (step s m)) -> forall s, P s -> P (fold_left step ms s).
Proof.
  intros Hstep. induction ms as [|m ms IH]; intros s Hs; cbn; [done|].
  apply IH. by apply Hstep.
Qed.

Lemma of_figure_snoc f refs r :
  of_figure f (refs ++ [r])
  = of_figure f refs ++ (if bool_decide (ref_figure r = Some f) then [r] else []).
Proof. unfold of_figure. by rewrite List.filter_app. Qed.

Lemma grouped_add self color ty number line_num pattern context :
  grouped self ->
  grouped (_add_reference self color ty number line_num pattern context).
Proof.
  intros Hself f. unfold _add_reference. cbn [references by_figure].
  rewrite of_figure_snoc. cbn [ref_figure]. specialize (Hself f) as Hf.
  destruct (truthy_int (current_figure self)) eqn:Htruthy.
  - apply truthy_int_Some in Htruthy as (fig & Hfig & Hnz).
    rewrite Hfig. cbn [get].
    destruct (decide (fig = f)) as [<-|Hne].
    + rewrite lookup_insert_eq, bool_decide_eq_true_2 by done.
      rewrite Hf, (bool_decide_eq_false_2 (fig = 0)) by done.
      by destruct (of_figure fig (references self)).
    + rewrite lookup_insert_ne by done.
      rewrite bool_decide_eq_false_2 by (intros [=]; done).
      by rewrite app_nil_r.
  - rewrite Hf. destruct (decide (current_figure self = Some f)) as [Hcf|Hcf].
    + rewrite (bool_decide_eq_true_2 (current_figure self = Some f)) by done.
      rewrite Hcf in Htruthy. cbn in Htruthy.
      apply negb_false_iff, Z.eqb_eq in Htruthy. subst f.
      rewrite bool_decide_eq_true_2 by done.
      by destruct (of_figure 0 (references self)).
    + rewrite (bool_decide_eq_false_2 (current_figure self = Some f)) by done.
      by rewrite app_nil_r.
Qed.

Lemma grouped_parse_line self line line_num :
  grouped self -> grouped (_parse_line self line line_num).
Proof.
  intros Hself. unfold _parse_line.
  repeat apply fold_left_invariant;
    try (intros s m Hs; repeat case_match; try done; by apply grouped_add).
  by destruct (Re.search false FIGURE_REF_PATTERN line).
Qed.

Lemma grouped_parse_lines lines : forall self line_num,
  grouped self -> grouped (parse_lines self lines line_num).
Proof.
  induction lines as [|line lines IH]; intros self line_num Hself; cbn; [done|].
  by apply IH, grouped_parse_line.
Qed.

End Grouping.

(** X18. After [parse_text], [by_figure] is the list [references] grouped
    by figure: under every figure other than 0 that has references it
    holds exactly the references of that figure, in the order of
    [references], and it has no other key. *)
Theorem by_figure_groups_the_references
    (self0 : Parser.TextColorParser) (text : string) (f : Z) :
  let self := Parser.parse_text self0 text in
  Parser.by_figure self !! f
  = match of_figure f (Parser.references self) with
    | [] => None
    | l => if bool_decide (f = 0) then None else Some l
    end.
Proof.
  intros self. apply grouped_parse_lines. intros f'. cbn. apply lookup_empty.
Qed.

Section ReadingLines.
Import Parser.

Lemma figure_for_heading self line :
  figure_for self line
  = match heading_number line with
    | Some v => Some v
    | None => current_figure self
    end.
Proof.
  unfold figure_for, heading_number.
  by destruct (Re.search false FIGURE_REF_PATTERN line).
Qed.

Lemma figure_at_snoc done line :
  figure_at (done ++ [line])
  = match heading_number line with
    | Some v => Some v
    | None => figure_at done
    end.
Proof.
  unfold figure_at. rewrite omap_app. cbn.
  destruct (heading_number line) as [v|]; cbn.
  - by rewrite last_snoc.
  - by rewrite app_nil_r.
Qed.

Lemma line_references_line cf line line_num r :
  In r (line_references cf line line_num) ->
  ref_line r = line_num /\ ref_figure r = cf.
Proof.
  unfold line_references.
  rewrite !in_app_iff, !in_map_iff, in_flat_map.
  intros [(m & <- & _)|[(m & <- & _)|[(m & <- & _)|(m & _ & Hm)]]]; try done.
  unfold circled_reference in Hm.
  repeat case_match; try done; by destruct Hm as [<-|[]].
Qed.

Lemma matched_snoc done line r :
  matched (done ++ [line]) r
  <-> matched done r
      \/ In r (line_references (figure_at (done ++ [line])) line
                 (Z.of_nat (length done) + 1)).
Proof.
  unfold matched. split.
  - intros (n & l & Hl & Hin).
    destruct (decide (n < length done)%nat) as [Hlt|Hge].
    + left. exists n, l. rewrite lookup_app_l in Hl by done.
      rewrite take_app_le in Hin by lia. done.
    + apply lookup_lt_Some in Hl as Hlen. rewrite length_app in Hlen. cbn in Hlen.
      assert (n = length done) as -> by lia.
      rewrite lookup_app_r, Nat.sub_diag in Hl by lia. injection Hl as <-.
      right. rewrite take_ge in Hin by (rewrite length_app; cbn; lia). done.
  - intros [(n & l & Hl & Hin)|Hin].
    + exists n, l. apply lookup_lt_Some in Hl as Hlen.
      rewrite lookup_app_l by done. rewrite take_app_le by lia. done.
    + exists (length done), line.
      rewrite lookup_app_r, Nat.sub_diag by lia. split; [done|].
      rewrite take_ge by (rewrite length_app; cbn; lia). done.
Qed.

Lemma same_line_sorted (k : Z) (l : list color_ref) :
  Forall (fun r => ref_line r = k) l -> StronglySorted Z.le (map ref_line l).
Proof.
  induction 1 as [|r l Hr Hl IH]; cbn [map]; constructor; [done|].
  apply Forall_forall. intros z Hz.
  apply list_elem_of_In, in_map_iff in Hz as (r' & <- & Hr').
  rewrite Forall_forall in Hl. apply list_elem_of_In, Hl in Hr'. lia.
Qed.

Lemma read_step done self line :
  read done self ->
  read (done ++ [line]) (_parse_line self line (Z.of_nat (length done) + 1)).
Proof.
  intros (Hcf & Hrefs & Hsorted & Hbound).
  destruct (parse_line_records self line (Z.of_nat (length done) + 1))
    as [Hnew Hcf'].
  assert (figure_for self line = figure_at (done ++ [line])) as Hfig.
  { by rewrite figure_for_heading, figure_at_snoc, Hcf. }
  rewrite Hfig in Hnew, Hcf'.
  assert (Forall (fun r => ref_line r = Z.of_nat (length done) + 1)
            (line_references (figure_at (done ++ [line])) line
               (Z.of_nat (length done) + 1))) as Hline.
  { apply Forall_forall. intros r Hr%list_elem_of_In.
    by apply line_references_line in Hr as [? _]. }
  split; [done|]. split; [|split].
  - intros r. rewrite Hnew, in_app_iff, matched_snoc.
    split; (intros [H|H]; [left; by apply Hrefs|by right]).
  - rewrite Hnew, map_app. apply StronglySorted_app_2.
    + intros z1 z2 Hz1 Hz2.
      apply list_elem_of_In, in_map_iff in Hz1 as (r1 & <- & Hr1).
      apply list_elem_of_In, in_map_iff in Hz2 as (r2 & <- & Hr2).
      rewrite Forall_forall in Hbound, Hline.
      apply list_elem_of_In, Hbound in Hr1.
      apply list_elem_of_In, Hline in Hr2. lia.
    + done.
    + by apply (same_line_sorted (Z.of_nat (length done) + 1)).
  - rewrite Hnew, length_app. cbn [length]. apply Forall_app. split.
    + eapply Forall_impl; [exact Hbound|]. intros r Hr. cbn beta in *. lia.
    + eapply Forall_impl; [exact Hline|]. intros r Hr. cbn beta in *. lia.
Qed.

Lemma read_lines rest : forall done self,
  read done self ->
  read (done ++ rest) (parse_lines self rest (Z.of_nat (length done) + 1)).
Proof.
  induction rest as [|line rest IH]; intros done self Hself; cbn [parse_lines].
  - by rewrite app_nil_r.
  - replace (done ++ line :: rest) with ((done ++ [line]) ++ rest)
      by (by rewrite <- app_assoc).
    replace (Z.of_nat (length done) + 1 + 1)
      with (Z.of_nat (length (done ++ [line])) + 1)
      by (rewrite length_app; cbn; lia).
    by apply IH, read_step.
Qed.

Lemma read_nothing : read [] (TCP [] ∅ None).
Proof.
  split; [done|]. split; [|split; constructor].
  intros r. split; [intros []|]. intros (n & line & Hline & _). done.
Qed.

End ReadingLines.

(** X19. [parse_text] records every match and nothing else: a record is
    in [references] exactly when it is the record of a match of one of the
    four patterns on some line [n], carrying the line number [n] and the
    number on the last figure heading on the lines 1 to [n] ([None] when
    there is none). The records come in the order of their lines, and the
    parser ends on the figure of the last heading of the text. *)
Theorem references_are_the_matches (self0 : Parser.TextColorParser) (text : string) :
  let self := Parser.parse_text self0 text in
  let lines := Str.split "010" text in
  (forall r,
      In r (Parser.references self)
      <-> exists (n : nat) line,
            lines !! n = Some line
            /\ In r (line_references (figure_at (take (S n) lines)) line
                       (Z.of_nat n + 1)))
  /\ StronglySorted Z.le (map Parser.ref_line (Parser.references self))
  /\ Forall (fun r => 1 <= Parser.ref_line r <= Z.of_nat (length lines))
       (Parser.references self)
  /\ Parser.current_figure self = figure_at lines.
Proof.
  intros self lines.
  destruct (read_lines lines [] (Parser.TCP [] ∅ None) read_nothing)
    as (Hcf & Hrefs & Hsorted & Hbound).
  cbn [app length] in *. fold self in Hcf, Hrefs, Hsorted, Hbound.
  split; [exact Hrefs|]. split; [exact Hsorted|]. split; [|exact Hcf].
  apply Forall_forall. intros r Hr.
  rewrite Forall_forall in Hbound. split; [|by apply Hbound].
  apply list_elem_of_In, Hrefs in Hr as (n & line & _ & Hin).
  apply line_references_line in Hin as [-> _]. lia.
Qed.

(* ===================================================================== *)
(** * The colour comparison of the consistency validator                  *)
(* ===================================================================== *)

Section ColorsMatchRelation.

Lemma class_unique cls1 cls2 x :
  In cls1 equivalence_classes -> In cls2 equivalence_classes ->
  In x cls1 -> In x cls2 -> cls1 = cls2.
Proof.
  unfold equivalence_classes. cbn [In]. intros H1 H2 Hx1 Hx2.
  repeat (destruct H1 as [<-|H1]); try contradiction;
    cbn [In] in Hx1; repeat (destruct Hx1 as [<-|Hx1]); try contradiction;
    repeat (destruct H2 as [<-|H2]); try contradiction;
    cbn [In] in Hx2; intuition discriminate.
Qed.

Lemma match_lowered_iff el al :
  match_lowered el al = true
  <-> el = al \/ exists cls, In cls equivalence_classes /\ In el cls /\ In al cls.
Proof. split; [apply match_lowered_sound|apply match_lowered_complete]. Qed.

Lemma match_lowered_sym el al :
  match_lowered el al = true -> match_lowered al el = true.
Proof.
  rewrite !match_lowered_iff. intros [->|(cls & Hcls & Hel & Hal)]; [by left|].
  right. by exists cls.
Qed.

Lemma match_lowered_trans el bl cl :
  match_lowered el bl = true -> match_lowered bl cl = true ->
  match_lowered el cl = true.
Proof.
  rewrite !match_lowered_iff.
  intros [->|(cls1 & Hcls1 & Hel & Hbl)]; [done|].
  intros [<-|(cls2 & Hcls2 & Hbl' & Hcl)]; [right; by exists cls1|].
  assert (cls1 = cls2) as <- by (by apply (class_unique _ _ bl)).
  right. by exists cls1.
Qed.

Lemma palette_key name hex_val :
  assoc name COLOR_PALETTE = Some hex_val -> In (name, hex_val) COLOR_PALETTE.
Proof.
  unfold COLOR_PALETTE. cbn -[String.eqb].
  repeat match goal with
    | |- context [String.eqb ?k name] =>
        destruct (String.eqb_spec k name) as [<-|?];
        [intros [= <-]; tauto|]
    end.
  discriminate.
Qed.

End ColorsMatchRelation.

(** X20. [_colors_match] is an equivalence relation on colour names:
    reflexive, symmetric and transitive. On the names of the palette it is
    the relation "same hex value": two palette names match exactly when
    [COLOR_PALETTE] gives them the same hex value, so [COLOR_EQUIVALENTS]
    and [COLOR_PALETTE] agree. *)
Theorem colors_match_is_an_equivalence :
  (forall a, _colors_match a a = true)
  /\ (forall a b, _colors_match a b = _colors_match b a)
  /\ (forall a b c, _colors_match a b = true -> _colors_match b c = true ->
                    _colors_match a c = true)
  /\ (forall a b hex_a hex_b,
         assoc a COLOR_PALETTE = Some hex_a ->
         assoc b COLOR_PALETTE = Some hex_b ->
         (_colors_match a b = true <-> hex_a = hex_b)).
Proof.
  split; [|split; [|split]].
  - intros a. rewrite colors_match_lowered. unfold match_lowered.
    by rewrite String.eqb_refl.
  - intros a b. rewrite !colors_match_lowered.
    destruct (match_lowered (Str.lower a) (Str.lower b)) eqn:Hab.
    + symmetry. by apply match_lowered_sym.
    + destruct (match_lowered (Str.lower b) (Str.lower a)) eqn:Hba; [|done].
      apply match_lowered_sym in Hba. congruence.
  - intros a b c. rewrite !colors_match_lowered. apply match_lowered_trans.
  - intros a b hex_a hex_b Ha%palette_key Hb%palette_key.
    unfold COLOR_PALETTE in Ha, Hb. cbn [In] in Ha, Hb.
    repeat (destruct Ha as [[= <- <-]|Ha]); try contradiction;
      repeat (destruct Hb as [[= <- <-]|Hb]); try contradiction;
      vm_compute; split; congruence.
Qed.

Lemma colors_match_is_an_equivalence_witness :
  _colors_match "Gold" "warning" = true
  /\ _colors_match "warning" "YELLOW" = true
  /\ _colors_match "Gold" "YELLOW" = true.
Proof.
  destruct colors_match_is_an_equivalence as (_ & _ & Htrans & _).
  split; [reflexivity|]. split; [reflexivity|].
  by apply (Htrans "Gold" "warning" "YELLOW").
Defined.

(* ===================================================================== *)
(** * The figure registry                                                 *)
(* ===================================================================== *)

Section RegistryFacts.

Lemma find_numbered {A : Type} (key : A -> Z) (n : Z) (l : list A) : forall s,
  map key l = seqZ s (Z.of_nat (length l)) ->
  List.find (fun x => key x =? n) l
  = if decide (s <= n) then l !! Z.to_nat (n - s) else None.
Proof.
  induction l as [|x l IH]; intros s Hl.
  { cbn. by case_decide. }
  cbn [length] in Hl. rewrite Nat2Z.inj_succ, seqZ_cons in Hl by lia.
  cbn [map] in Hl. injection Hl as Hx Hl.
  rewrite Z.pred_succ in Hl. cbn [List.find]. rewrite Hx.
  destruct (Z.eqb_spec s n) as [->|Hne].
  - rewrite decide_True by lia. by rewrite Z.sub_diag.
  - rewrite (IH (Z.succ s) Hl).
    destruct (decide (s <= n)) as [Hle|Hgt].
    + rewrite decide_True by lia.
      replace (Z.to_nat (n - s)) with (S (Z.to_nat (n - Z.succ s))) by lia.
      done.
    + by rewrite decide_False by lia.
Qed.

Lemma get_figure_numbered self n :
  registry_ok self ->
  get_figure self n
  = if decide (1 <= n) then figures self !! Z.to_nat (n - 1) else None.
Proof. intros (Hnum & _ & _). by apply find_numbered. Qed.

Lemma find_snoc {A : Type} (f : A -> bool) (l : list A) (x : A) :
  List.find f (l ++ [x])
  = match List.find f l with
    | Some y => Some y
    | None => if f x then Some x else None
    end.
Proof.
  induction l as [|y l IH]; cbn; [done|]. by destruct (f y).
Qed.

Lemma registry_ok_new : registry_ok new_registry.
Proof. split; [done|]. split; [done|]. intros f. cbn. apply lookup_empty. Qed.

Lemma add_figure_figures self sp ap anns leg dims sec title desc step :
  exists fig,
    add_figure self sp ap anns leg dims sec title desc step
    = (_next_number self,
       Registry (figures self ++ [fig]) (_next_number self + 1)
         (match colors_of_figure fig with
          | Some colors => <[_next_number self := colors]> (color_map self)
          | None => color_map self
          end))
    /\ figure_number fig = _next_number self
    /\ fig_color_map fig = (collect_colors anns ∅ None None).1.1
    /\ callouts_for_text fig = sort_by_number (collect_callouts anns)
    /\ fig_annotations fig = anns.
Proof.
  unfold add_figure.
  destruct (collect_colors anns ∅ None None) as [[colors first_desc] first_title].
  eexists (FigureData _ _ _ _ _ _ _ _ _ _ _ colors). split; [|by cbn].
  unfold colors_of_figure. cbn [fig_color_map].
  destruct (decide (colors = ∅)); reflexivity.
Qed.

Lemma registry_ok_add self sp ap anns leg dims sec title desc step :
  registry_ok self ->
  registry_ok (snd (add_figure self sp ap anns leg dims sec title desc step)).
Proof.
  intros (Hnum & Hnext & Hmap).
  destruct (add_figure_figures self sp ap anns leg dims sec title desc step)
    as (fig & -> & Hfig & _).
  unfold registry_ok, registry_len, get_figure in *.
  cbn [snd figures _next_number color_map].
  rewrite length_app, map_app, Nat2Z.inj_add. cbn [length map].
  split; [|split; [lia|]].
  - rewrite seqZ_app by lia. rewrite Hnum, Hfig, Hnext. f_equal.
    unfold seqZ. rewrite Nat2Z.id. cbn. f_equal. lia.
  - intros f. rewrite find_snoc, Hfig.
    pose proof (find_numbered figure_number f (figures self) 1 Hnum) as Hfind.
    destruct (Z.eqb_spec (_next_number self) f) as [<-|Hne].
    + rewrite Hfind, decide_True by lia.
      rewrite lookup_ge_None_2 by lia. cbn [mbind option_bind].
      destruct (colors_of_figure fig) as [colors|] eqn:Hcolors.
      * by rewrite lookup_insert_eq.
      * rewrite Hmap, Hfind, decide_True by lia.
        by rewrite lookup_ge_None_2 by lia.
    + assert ((match colors_of_figure fig with
               | Some colors => <[_next_number self := colors]> (color_map self)
               | None => color_map self
               end) !! f = color_map self !! f) as ->.
      { destruct (colors_of_figure fig); [|done]. by rewrite lookup_insert_ne. }
      rewrite Hmap. by destruct (List.find _ (figures self)).
Qed.

Lemma built_ok self : built self -> registry_ok self.
Proof.
  induction 1 as [|self sp ap anns leg dims sec title desc step _ IH].
  - apply registry_ok_new.
  - by apply registry_ok_add.
Qed.

End RegistryFacts.

(** X21. A registry built by [add_figure] numbers its figures 1, 2, ... in
    the order they were added: [_next_number] is the number of figures
    plus one, [get_figure n] is the [n]-th figure added (and [None] for
    any other [n]), and a further [add_figure] returns the next number,
    under which [get_figure] then finds the new figure, the look-up of
    every other number staying as it was. *)
Theorem figures_are_numbered_from_one (self : FigureRegistry) :
  built self ->
  map figure_number (figures self) = seqZ 1 (registry_len self)
  /\ _next_number self = registry_len self + 1
  /\ (forall n,
        get_figure self n
        = if decide (1 <= n) then figures self !! Z.to_nat (n - 1) else None)
  /\ (forall source_path annotated_path annotations legend_items dimensions
             section title description step_reference,
        let '(n, self') :=
          add_figure self source_path annotated_path annotations legend_items
            dimensions section title description step_reference in
        n = registry_len self + 1
        /\ registry_len self' = n
        /\ (exists fig,
              get_figure self' n = Some fig
              /\ figures self' = figures self ++ [fig]
              /\ fig_annotations fig = annotations)
        /\ (forall m, m <> n -> get_figure self' m = get_figure self m)).
Proof.
  intros Hbuilt. pose proof (built_ok self Hbuilt) as Hok.
  pose proof Hok as (Hnum & Hnext & _).
  split; [done|]. split; [done|].
  split; [intros n; by apply get_figure_numbered|].
  intros sp ap anns leg dims sec title desc step.
  pose proof (registry_ok_add self sp ap anns leg dims sec title desc step Hok)
    as Hok'.
  destruct (add_figure_figures self sp ap anns leg dims sec title desc step)
    as (fig & Hadd & Hfig & _ & _ & Hanns).
  rewrite Hadd in Hok' |- *. cbn [snd] in Hok'.
  split; [done|].
  assert (registry_len
            (Registry (figures self ++ [fig]) (_next_number self + 1)
               match colors_of_figure fig with
               | Some colors => <[_next_number self:=colors]> (color_map self)
               | None => color_map self
               end) = _next_number self) as Hlen.
  { unfold registry_len in *. cbn [figures]. rewrite length_app. cbn. lia. }
  split; [done|]. split.
  - exists fig. split; [|done].
    rewrite (get_figure_numbered _ _ Hok').
    unfold registry_len in *. rewrite decide_True by lia.
    cbn [figures]. rewrite lookup_app_r by lia.
    replace (Z.to_nat (_next_number self - 1) - length (figures self))%nat
      with 0%nat by lia.
    done.
  - intros m Hm. unfold get_figure. cbn [figures]. rewrite find_snoc, Hfig.
    destruct (List.find _ (figures self)); [done|].
    by destruct (Z.eqb_spec (_next_number self) m).
Qed.

Lemma figures_are_numbered_from_one_witness :
  built one_callout_registry
  /\ _next_number one_callout_registry = 2
  /\ option_map figure_number (get_figure one_callout_registry 1) = Some 1.
Proof.
  assert (built one_callout_registry) as Hbuilt by (apply built_add, built_new).
  destruct (figures_are_numbered_from_one one_callout_registry Hbuilt)
    as (_ & Hnext & Hget & _).
  split; [exact Hbuilt|]. split; [exact Hnext|].
  rewrite Hget. reflexivity.
Defined.

(** X22. The [color_map] of a built registry has an entry for figure [f]
    exactly when figure [f] exists and has at least one numbered
    annotation, and the entry is that figure's own [color_map]; no entry is
    an empty dictionary. *)
Theorem color_map_holds_the_figures_colors (self : FigureRegistry) (f : Z) :
  built self ->
  color_map self !! f
  = match get_figure self f with
    | Some fig =>
        if decide (fig_color_map fig = ∅) then None else Some (fig_color_map fig)
    | None => None
    end.
Proof.
  intros Hbuilt. destruct (built_ok self Hbuilt) as (_ & _ & Hmap).
  rewrite Hmap. by destruct (get_figure self f).
Qed.

Lemma color_map_holds_the_figures_colors_witness :
  built one_callout_registry
  /\ color_map one_callout_registry !! 1
     = Some {[ 1 := ColorEntry "red" "#C00000" "callout" ]}
  /\ color_map one_callout_registry !! 2 = None.
Proof.
  assert (built one_callout_registry) as Hbuilt by (apply built_add, built_new).
  split; [exact Hbuilt|]. split.
  - rewrite (color_map_holds_the_figures_colors _ 1 Hbuilt).
    vm_compute. reflexivity.
  - rewrite (color_map_holds_the_figures_colors _ 2 Hbuilt).
    vm_compute. reflexivity.
Defined.

Section FigureColors.

Lemma with_number_cons n ann anns :
  with_number n (ann :: anns)
  = (if bool_decide (ann_number ann = Some n) then [ann] else [])
    ++ with_number n anns.
Proof. unfold with_number. cbn. by case_bool_decide. Qed.

Lemma collect_colors_lookup n anns : forall acc first_desc first_title,
  (collect_colors anns acc first_desc first_title).1.1 !! n
  = match last (with_number n anns) with
    | Some ann => Some (color_entry_of ann)
    | None => acc !! n
    end.
Proof.
  induction anns as [|ann anns IH]; intros acc first_desc first_title; [done|].
  cbn [collect_colors]. rewrite IH, with_number_cons.
  destruct (last (with_number n anns)) as [a|] eqn:Hlast.
  - by rewrite last_app, Hlast.
  - apply last_None in Hlast. rewrite Hlast, app_nil_r.
    destruct (ann_number ann) as [number|] eqn:Hnumber.
    + destruct (decide (number = n)) as [->|Hne].
      * rewrite bool_decide_eq_true_2 by done. cbn [last].
        by rewrite lookup_insert_eq.
      * rewrite bool_decide_eq_false_2 by (intros [=]; done). cbn [last].
        by rewrite lookup_insert_ne.
    + by rewrite bool_decide_eq_false_2.
Qed.

End FigureColors.

(** X23. The colours [add_figure] files for a figure: annotation number
    [n] has an entry exactly when a descriptor carries that number, and
    the entry is that of the last such descriptor: its colour normalised
    (["teal"] when it gives none), the palette's hex value of that name
    (the colour as given when the name is no palette key), and its type
    (["callout"] when it gives none). *)
Theorem figure_colors_come_from_the_last_descriptor
    (self : FigureRegistry) (source_path annotated_path : string)
    (annotations : list annotation) (legend_items : option (list legend_item))
    (dimensions : option (Z * Z))
    (section title description step_reference : option string) (n : Z) :
  let self' :=
    snd (add_figure self source_path annotated_path annotations legend_items
           dimensions section title description step_reference) in
  exists fig,
    last (figures self') = Some fig
    /\ fig_color_map fig !! n
       = color_entry_of <$> last (with_number n annotations)
    /\ (forall e hex_val,
          fig_color_map fig !! n = Some e ->
          assoc (color_name e) COLOR_PALETTE = Some hex_val ->
          hex e = hex_val).
Proof.
  intros self'. subst self'.
  destruct (add_figure_figures self source_path annotated_path annotations
              legend_items dimensions section title description step_reference)
    as (fig & -> & _ & Hcolors & _).
  exists fig. cbn [snd figures]. split; [by rewrite last_snoc|].
  rewrite Hcolors, collect_colors_lookup, lookup_empty.
  split; [by destruct (last (with_number n annotations))|].
  intros e hex_val He Hassoc.
  destruct (last (with_number n annotations)) as [ann|]; [|done].
  injection He as <-. unfold color_entry_of in *. cbn [color_name hex] in *.
  by rewrite Hassoc.
Qed.

Section TextCallouts.

Lemma collect_callouts_numbers anns :
  map ct_number (collect_callouts anns)
  = map (fun a => get (ann_number a) 0) (List.filter is_text_callout anns).
Proof.
  induction anns as [|ann anns IH]; [done|].
  cbn [collect_callouts List.filter]. unfold is_text_callout, is_callout.
  destruct (ann_type ann) as [ty|]; [|done].
  destruct (ann_number ann) as [number|] eqn:Hnumber; cbn [truthy_int].
  - destruct (String.eqb ty "callout" && negb (number =? 0)); [|done].
    cbn [map ct_number]. by rewrite Hnumber, IH.
  - by rewrite andb_false_r.
Qed.

Lemma display_name_is_no_key color_name :
  ~ In (get (assoc color_name display_names) color_name) (keys display_names).
Proof.
  destruct (assoc color_name display_names) as [shown|] eqn:Hassoc; cbn [get].
  - revert Hassoc. unfold display_names. cbn -[String.eqb].
    repeat match goal with
      | |- context [String.eqb ?k color_name] =>
          destruct (String.eqb_spec k color_name) as [<-|?];
          [intros [= <-]; cbn; intuition discriminate|]
      end.
    discriminate.
  - revert Hassoc. unfold display_names. cbn -[String.eqb].
    repeat match goal with
      | |- context [String.eqb ?k color_name] =>
          destruct (String.eqb_spec k color_name) as [<-|?]; [discriminate|]
      end.
    intros _. cbn. intuition congruence.
Qed.

Lemma collect_callouts_entries anns :
  Forall (fun c => ct_number c <> 0
                   /\ ct_inline_reference c
                      = "(callout " +:+ Py.str (ct_number c) +:+ ")"
                   /\ ~ In (ct_color c) (keys display_names))
    (collect_callouts anns).
Proof.
  induction anns as [|ann anns IH]; [constructor|].
  cbn [collect_callouts].
  destruct (ann_type ann) as [ty|]; [|done].
  destruct (ann_number ann) as [number|]; [|done].
  destruct (String.eqb ty "callout"); cbn [andb]; [|done].
  destruct (Z.eqb_spec number 0) as [->|Hnz]; cbn [negb]; [done|].
  constructor; [|done]. cbn [ct_number ct_inline_reference ct_color].
  split; [done|]. split; [done|]. apply display_name_is_no_key.
Qed.

Lemma insert_by_number_perm c l : insert_by_number c l ≡ₚ c :: l.
Proof.
  induction l as [|d l IH]; cbn; [done|].
  destruct (ct_number c <? ct_number d); [done|].
  by rewrite IH, Permutation_swap.
Qed.

Lemma insert_by_number_sorted c l :
  StronglySorted Z.le (map ct_number l) ->
  StronglySorted Z.le (map ct_number (insert_by_number c l)).
Proof.
  induction l as [|d l IH]; cbn [insert_by_number map]; intros Hl.
  - repeat constructor.
  - apply StronglySorted_cons in Hl as [Hd Hl].
    destruct (Z.ltb_spec (ct_number c) (ct_number d)) as [Hlt|Hge]; cbn [map].
    + apply StronglySorted_cons. split.
      * constructor; [lia|]. eapply Forall_impl; [exact Hd|].
        intros z Hz. cbn beta in *. lia.
      * apply StronglySorted_cons. done.
    + apply StronglySorted_cons. split; [|by apply IH].
      rewrite (insert_by_number_perm c l). cbn [map]. constructor; [lia|done].
Qed.

Lemma sort_by_number_spec l : forall acc,
  StronglySorted Z.le (map ct_number acc) ->
  StronglySorted Z.le
    (map ct_number (fold_left (fun acc c => insert_by_number c acc) l acc))
  /\ fold_left (fun acc c => insert_by_number c acc) l acc ≡ₚ acc ++ l.
Proof.
  induction l as [|c l IH]; intros acc Hacc; cbn [fold_left].
  - by rewrite app_nil_r.
  - destruct (IH (insert_by_number c acc)) as [Hsorted Hperm];
      [by apply insert_by_number_sorted|].
    split; [done|]. rewrite Hperm, insert_by_number_perm.
    cbn [app]. apply Permutation_middle.
Qed.

End TextCallouts.

(** X24. The [callouts_for_text] of a figure [add_figure] registers are
    sorted by number; their numbers are those of the descriptors of type
    ["callout"] with a number other than 0, one entry for each; every
    entry has the inline reference ["(callout N)"] of its own number, and
    a display colour that is none of the names [critical], [warning],
    [info], [success], [primary]. *)
Theorem text_callouts_are_sorted
    (self : FigureRegistry) (source_path annotated_path : string)
    (annotations : list annotation) (legend_items : option (list legend_item))
    (dimensions : option (Z * Z))
    (section title description step_reference : option string) :
  let self' :=
    snd (add_figure self source_path annotated_path annotations legend_items
           dimensions section title description step_reference) in
  exists fig,
    last (figures self') = Some fig
    /\ StronglySorted Z.le (map ct_number (callouts_for_text fig))
    /\ map ct_number (callouts_for_text fig)
       ≡ₚ map (fun a => get (ann_number a) 0)
            (List.filter is_text_callout annotations)
    /\ Forall (fun c =>
                 ct_number c <> 0
                 /\ ct_inline_reference c
                    = "(callout " +:+ Py.str (ct_number c) +:+ ")"
                 /\ ~ In (ct_color c)
                        ["critical"; "warning"; "info"; "success"; "primary"])
         (callouts_for_text fig).
Proof.
  intros self'. subst self'.
  destruct (add_figure_figures self source_path annotated_path annotations
              legend_items dimensions section title description step_reference)
    as (fig & -> & _ & _ & Hcallouts & _).
  exists fig. cbn [snd figures]. split; [by rewrite last_snoc|].
  rewrite Hcallouts. unfold sort_by_number.
  destruct (sort_by_number_spec (collect_callouts annotations) [])
    as [Hsorted Hperm]; [constructor|].
  cbn [app] in Hperm.
  split; [done|]. split.
  - by rewrite Hperm, collect_callouts_numbers.
  - rewrite Hperm. apply collect_callouts_entries.
Qed.

(* ===================================================================== *)
(** * Hex colours                                                         *)
(* ===================================================================== *)

Section HexDigits.
Import Hex.



Lemma int16_raises s :
  (exists n, int16 s = Py.Ok n) \/ int16 s = Py.Raise Py.ValueError.
Proof.
  unfold int16.
  match goal with
  | |- context [match ?signed with Some n => Py.Ok n | None => _ end] =>
      destruct signed; eauto
  end.
Qed.

Lemma substring_beyond (n m : nat) (s : string) :
  (String.length s <= n)%nat -> String.substring n m s = EmptyString.
Proof.
  revert s m. induction n as [|n IH]; intros s m Hlen.
  - destruct s; [by destruct m|cbn in Hlen; lia].
  - destruct s as [|c s]; [done|]. cbn in *. apply IH. lia.
Qed.

End HexDigits.



(** X26. A colour with fewer than five characters after its leading
    ["#"]s, such as the short form ["#FFF"], makes [hex_to_rgb] and
    [hex_to_rgba] raise [ValueError]; they raise no other exception on any
    string. *)
Theorem hex_to_rgb_short_raises (hex_color : string) (alpha : Z) :
  ((String.length (Hex.lstrip_hash hex_color) <= 4)%nat ->
   hex_to_rgb hex_color = Py.Raise Py.ValueError
   /\ hex_to_rgba hex_color alpha = Py.Raise Py.ValueError)
  /\ (forall e, hex_to_rgb hex_color = Py.Raise e -> e = Py.ValueError)
  /\ (forall e, hex_to_rgba hex_color alpha = Py.Raise e -> e = Py.ValueError).
Proof.
  assert (forall e, hex_to_rgb hex_color = Py.Raise e -> e = Py.ValueError) as Hraise.
  { intros e. unfold hex_to_rgb.
    destruct (int16_raises (String.substring 0 2 (Hex.lstrip_hash hex_color)))
      as [[r ->]| ->]; cbn [Py.bind]; [|congruence].
    destruct (int16_raises (String.substring 2 2 (Hex.lstrip_hash hex_color)))
      as [[g ->]| ->]; cbn [Py.bind]; [|congruence].
    destruct (int16_raises (String.substring 4 2 (Hex.lstrip_hash hex_color)))
      as [[b ->]| ->]; cbn [Py.bind]; congruence. }
  assert ((String.length (Hex.lstrip_hash hex_color) <= 4)%nat ->
          hex_to_rgb hex_color = Py.Raise Py.ValueError) as Hshort.
  { intros Hlen. unfold hex_to_rgb.
    rewrite (substring_beyond 4 2 _ Hlen).
    destruct (int16_raises (String.substring 0 2 (Hex.lstrip_hash hex_color)))
      as [[r ->]| ->]; cbn [Py.bind]; [|done].
    destruct (int16_raises (String.substring 2 2 (Hex.lstrip_hash hex_color)))
      as [[g ->]| ->]; cbn [Py.bind]; done. }
  split; [|split; [exact Hraise|]].
  - intros Hlen. split; [by apply Hshort|].
    unfold hex_to_rgba. by rewrite Hshort.
  - intros e. unfold hex_to_rgba.
    destruct (hex_to_rgb hex_color) as [[[r g] b]|e'] eqn:Hrgb; cbn [Py.bind].
    + discriminate.
    + intros [= <-]. by apply Hraise.
Qed.

Lemma hex_to_rgb_short_raises_witness :
  (String.length (Hex.lstrip_hash "#FFF") <= 4)%nat
  /\ hex_to_rgb "#FFF" = Py.Raise Py.ValueError.
Proof.
  assert (String.length (Hex.lstrip_hash "#FFF") <= 4)%nat as Hlen
    by (vm_compute; lia).
  split; [exact Hlen|].
  destruct (hex_to_rgb_short_raises "#FFF" 255) as (Hshort & _).
  by destruct (Hshort Hlen).
Defined.

(* ===================================================================== *)
(** * The colour consistency check                                        *)
(* ===================================================================== *)

Section ConsistencyLoops.
Import Consistency.

Variable color_map : gmap pykey (gmap pykey color_entry).

Lemma handled_nil state : handled color_map [] state state.
Proof. unfold handled. cbn. by rewrite !app_nil_r. Qed.

Lemma handled_app es1 es2 a b c :
  handled color_map es1 a b -> handled color_map es2 b c ->
  handled color_map (es1 ++ es2) a c.
Proof.
  intros (He1 & Hw1 & Hm1 & Hk1) (He2 & Hw2 & Hm2 & Hk2). unfold handled.
  rewrite He2, Hw2, Hm2, Hk2, He1, Hw1, Hm1, Hk1.
  rewrite !flat_map_app, !List.filter_app, <- !app_assoc. done.
Qed.

Lemma handled_annotation fig_num state ann_num expected_color :
  handled color_map [(fig_num, ann_num, expected_color)] state
    (check_annotation color_map fig_num state (ann_num, expected_color)).
Proof.
  destruct state as [self errors].
  unfold handled, check_annotation, error_of, warning_of, verdict_of.
  cbn [flat_map List.filter].
  destruct (lookup_actual color_map fig_num ann_num) as [actual|].
  - destruct (_colors_match expected_color (color_name actual));
      cbn [fst snd warnings mismatches matches is_mismatching is_matching app];
      rewrite ?map_app, ?app_nil_r; done.
  - cbn [fst snd warnings mismatches matches is_mismatching is_matching app].
    by rewrite ?app_nil_r.
Qed.

Lemma handled_figure fig_num annotations : forall state,
  handled color_map (entries [(fig_num, annotations)]) state
    (check_figure color_map state (fig_num, annotations)).
Proof.
  unfold entries, check_figure. cbn [flat_map]. rewrite app_nil_r.
  induction annotations as [|[ann_num expected_color] annotations IH];
    intros state; cbn [map fold_left].
  - apply handled_nil.
  - apply (handled_app [_] _ _ _ _ (handled_annotation fig_num state _ _)), IH.
Qed.

Lemma handled_figures expected : forall state,
  handled color_map (entries expected) state
    (fold_left (check_figure color_map) expected state).
Proof.
  induction expected as [|[fig_num annotations] expected IH];
    intros state; cbn [fold_left].
  - apply handled_nil.
  - replace (entries ((fig_num, annotations) :: expected))
      with (entries [(fig_num, annotations)] ++ entries expected)
      by (unfold entries; cbn [flat_map]; by rewrite app_nil_r).
    eapply handled_app; [apply handled_figure|apply IH].
Qed.

Lemma error_of_nil e :
  error_of color_map e = [] <-> is_mismatching (verdict_of color_map e) = false.
Proof.
  destruct e as [[fig_num ann_num] expected_color]. unfold error_of.
  by destruct (verdict_of color_map (fig_num, ann_num, expected_color)).
Qed.

Lemma errors_nil es :
  flat_map (error_of color_map) es = []
  <-> Forall (fun e => is_mismatching (verdict_of color_map e) = false) es.
Proof.
  induction es as [|e es IH]; cbn [flat_map]; [by split; [constructor|]|].
  rewrite Forall_cons, <- IH, <- error_of_nil. split.
  - by intros [? ?]%app_eq_nil.
  - by intros [-> ->].
Qed.

Lemma errors_length es :
  length (flat_map (error_of color_map) es)
  = length (List.filter (fun e => is_mismatching (verdict_of color_map e)) es).
Proof.
  induction es as [|[[fig_num ann_num] expected_color] es IH]; [done|].
  cbn [flat_map List.filter]. rewrite length_app, IH. unfold error_of.
  by destruct (verdict_of color_map (fig_num, ann_num, expected_color)).
Qed.

Lemma verdicts_partition es :
  (length (List.filter (fun e => is_matching (verdict_of color_map e)) es)
   + length (List.filter (fun e => is_mismatching (verdict_of color_map e)) es)
   + length (flat_map (warning_of color_map) es))%nat
  = length es.
Proof.
  induction es as [|[[fig_num ann_num] expected_color] es IH]; [done|].
  cbn [flat_map List.filter]. rewrite length_app. unfold warning_of at 1.
  destruct (verdict_of color_map (fig_num, ann_num, expected_color));
    cbn [is_matching is_mismatching length app]; lia.
Qed.

End ConsistencyLoops.

(** X27. Where [validate] compares (the registry has a [color_map] that is
    not empty and the text has expected colours), it visits the expected
    annotations figure by figure: [errors] holds, in that order, one
    mismatch message for every expected annotation the registry has under
    a colour that does not match; the warnings are, in order, those of the
    expected annotations the registry lacks; [matches] and [mismatches]
    record the annotations found with a matching and with another colour.
    [is_valid] holds exactly when no expected annotation is found under
    another colour, and the counts of [get_summary] add up to the number
    of expected annotations. *)
Theorem validate_reports_the_mismatches
    (self : Consistency.ColorConsistencyValidator) (doc_content : string)
    (color_map : gmap pykey (gmap pykey color_entry)) :
  color_map <> ∅ ->
  Consistency._parse_expected_colors doc_content <> [] ->
  let es := Consistency.entries (Consistency._parse_expected_colors doc_content) in
  let '(is_valid, errors, warnings, self') :=
    Consistency.validate self doc_content (Some color_map) in
  errors = flat_map (Consistency.error_of color_map) es
  /\ warnings = flat_map (Consistency.warning_of color_map) es
  /\ Consistency.warnings self' = warnings
  /\ map Consistency.mismatch_key (Consistency.mismatches self')
     = List.filter
         (fun e => Consistency.is_mismatching (Consistency.verdict_of color_map e)) es
  /\ map Consistency.match_key (Consistency.matches self')
     = List.filter
         (fun e => Consistency.is_matching (Consistency.verdict_of color_map e)) es
  /\ (is_valid = true
      <-> Forall (fun e => Consistency.is_mismatching
                             (Consistency.verdict_of color_map e) = false) es)
  /\ Consistency.summary_is_valid (Consistency.get_summary self') = is_valid
  /\ Consistency.total_checked (Consistency.get_summary self')
     + Consistency.n_warnings (Consistency.get_summary self')
     = Z.of_nat (length es).
Proof.
  intros Hmap Hexpected es. unfold Consistency.validate.
  rewrite decide_False by done.
  pose proof (handled_figures color_map
                (Consistency._parse_expected_colors doc_content)
                (Consistency.CCV [] [] [], [])) as Hhandled.
  fold es in Hhandled.
  destruct (Consistency._parse_expected_colors doc_content) as [|item expected]
    eqn:Hparsed; [done|].
  destruct (fold_left (Consistency.check_figure color_map) (item :: expected)
              (Consistency.CCV [] [] [], [])) as [self' errors].
  destruct Hhandled as (Herrors & Hwarnings & Hmismatches & Hmatches).
  cbn [fst snd Consistency.warnings Consistency.mismatches Consistency.matches
         map app] in *.
  pose proof (errors_length color_map es) as Hlen.
  pose proof (verdicts_partition color_map es) as Hpart.
  rewrite <- Hmismatches, <- Hmatches, <- Hwarnings, !length_map in Hpart.
  rewrite <- Hmismatches, <- Herrors, length_map in Hlen.
  split; [done|]. split; [done|]. split; [done|]. split; [done|].
  split; [done|]. split; [|split].
  - rewrite <- (errors_nil color_map es), <- Herrors, Z.eqb_eq.
    destruct errors; cbn; split; (done || lia).
  - unfold Consistency.get_summary. cbn [Consistency.summary_is_valid].
    by rewrite Hlen.
  - unfold Consistency.get_summary.
    cbn [Consistency.total_checked Consistency.n_warnings]. lia.
Qed.

Lemma validate_reports_the_mismatches_witness :
  loaded_color_map <> ∅
  /\ Consistency._parse_expected_colors sample_text <> []
  /\ Consistency.validate (Consistency.CCV [] [] []) sample_text (Some loaded_color_map)
     = (false,
        ["COLOR MISMATCH: Figure 2 annotation 2: Text says 'blue' but image has 'green'"],
        [],
        Consistency.CCV
          [Consistency.MismatchRecord 2 2 "blue" "#2E74B5" "green" "#548235"]
          [Consistency.MatchRecord 1 1 "red" "critical"] []).
Proof.
  assert (loaded_color_map <> ∅) as Hmap.
  { intros H. apply (f_equal (fun m => m !! KStr "1")) in H.
    vm_compute in H. discriminate. }
  assert (Consistency._parse_expected_colors sample_text <> []) as Hexpected.
  { vm_compute. discriminate. }
  split; [exact Hmap|]. split; [exact Hexpected|].
  pose proof (validate_reports_the_mismatches (Consistency.CCV [] [] []) sample_text
                loaded_color_map Hmap Hexpected) as H.
  destruct (Consistency.validate (Consistency.CCV [] [] []) sample_text
              (Some loaded_color_map)) as [[[is_valid errors] warnings] self'] eqn:Hv.
  destruct H as (Herrors & _).
  vm_compute in Hv. injection Hv as <- <- <- <-. reflexivity.
Defined.

Section ValidateCases.
Import Consistency.

Lemma validate_cases self doc_content registry :
  validate self doc_content registry
  = match registry with
    | None => (true, [], ["Color validation skipped - no registry found"], CCV [] [] [])
    | Some color_map =>
        if decide (color_map = ∅) then
          (true, [], ["Color validation skipped - no color_map in registry"],
           CCV [] [] [])
        else
          match _parse_expected_colors doc_content with
          | [] =>
              (true, [], ["No color references found in document text"],
               CCV [] [] ["No color references found in document text"])
          | expected =>
              let state :=
                fold_left (check_figure color_map) expected (CCV [] [] [], []) in
              (Z.of_nat (length (snd state)) =? 0, snd state,
               warnings (fst state), fst state)
          end
    end.
Proof.
  unfold validate. destruct registry as [color_map|]; [|done].
  case_decide; [done|].
  destruct (_parse_expected_colors doc_content) as [|item expected]; [done|].
  by destruct (fold_left (check_figure color_map) (item :: expected) (CCV [] [] [], [])).
Qed.

Lemma mismatch_exists color_map es :
  flat_map (error_of color_map) es <> []
  <-> exists fig_num ann_num expected_color actual,
        In (fig_num, ann_num, expected_color) es
        /\ lookup_actual color_map fig_num ann_num = Some actual
        /\ _colors_match expected_color (color_name actual) = false.
Proof.
  induction es as [|[[fig_num ann_num] expected_color] es IH]; cbn [flat_map].
  { split; [done|]. by intros (? & ? & ? & ? & [] & _). }
  split.
  - intros Hne. unfold error_of, verdict_of in Hne.
    destruct (lookup_actual color_map fig_num ann_num) as [actual|] eqn:Hactual.
    + destruct (_colors_match expected_color (color_name actual)) eqn:Hmatch.
      * cbn [app] in Hne. apply IH in Hne as (f & n & c & a & Hin & H).
        exists f, n, c, a. split; [by right|done].
      * exists fig_num, ann_num, expected_color, actual. split; [by left|done].
    + cbn [app] in Hne. apply IH in Hne as (f & n & c & a & Hin & H).
      exists f, n, c, a. split; [by right|done].
  - intros (f & n & c & a & [[= <- <- <-]|Hin] & Hactual & Hmatch).
    + unfold error_of, verdict_of. by rewrite Hactual, Hmatch.
    + intros [_ Hnil]%app_eq_nil. revert Hnil. apply IH.
      by exists f, n, c, a.
Qed.

End ValidateCases.

(** X28. [validate] fails only on a mismatch: [is_valid] is [False]
    exactly when the registry file exists and files some expected
    annotation of the text under a colour that does not match, and
    exactly when [errors] is not empty. Without a registry file, with no
    [color_map] in it, or with no expected colour in the text, it returns
    [True] with no error and one warning that says so. The lists of an
    earlier call are dropped. *)
Theorem validate_fails_only_on_a_mismatch
    (self : Consistency.ColorConsistencyValidator) (doc_content : string)
    (registry : option (gmap pykey (gmap pykey color_entry))) :
  let es := Consistency.entries (Consistency._parse_expected_colors doc_content) in
  let '(is_valid, errors, warnings, self') :=
    Consistency.validate self doc_content registry in
  (is_valid = true <-> errors = [])
  /\ (is_valid = false
      <-> exists color_map fig_num ann_num expected_color actual,
            registry = Some color_map
            /\ In (fig_num, ann_num, expected_color) es
            /\ lookup_actual color_map fig_num ann_num = Some actual
            /\ _colors_match expected_color (color_name actual) = false)
  /\ (registry = None ->
      (is_valid, errors, warnings)
      = (true, [], ["Color validation skipped - no registry found"]))
  /\ (registry = Some ∅ ->
      (is_valid, errors, warnings)
      = (true, [], ["Color validation skipped - no color_map in registry"]))
  /\ (registry <> None -> registry <> Some ∅ ->
      Consistency._parse_expected_colors doc_content = [] ->
      (is_valid, errors, warnings)
      = (true, [], ["No color references found in document text"]))
  /\ Consistency.validate (Consistency.CCV [] [] []) doc_content registry
     = (is_valid, errors, warnings, self').
Proof.
  intros es. rewrite (validate_cases (Consistency.CCV [] [] [])), validate_cases.
  destruct registry as [color_map|]; cycle 1.
  { split; [done|]. split; [|done]. split; [done|].
    by intros (? & ? & ? & ? & ? & [=] & _). }
  destruct (decide (color_map = ∅)) as [->|Hmap].
  { split; [done|]. split; [|done].
    split; [done|].
    intros (color_map & f & n & c & actual & [= <-] & _ & Hactual & _).
    unfold lookup_actual in Hactual. by rewrite !lookup_empty in Hactual. }
  pose proof (handled_figures color_map
                (Consistency._parse_expected_colors doc_content)
                (Consistency.CCV [] [] [], [])) as Hhandled.
  pose proof (mismatch_exists color_map es) as Hexists.
  fold es in Hhandled.
  destruct (Consistency._parse_expected_colors doc_content) as [|item expected].
  { split; [done|]. split.
    { split; [done|]. by intros (cm & f & n & c & actual & _ & [] & _). }
    split; [done|]. split; [by intros [= ->]|]. split; done. }
  destruct (fold_left (Consistency.check_figure color_map) (item :: expected)
              (Consistency.CCV [] [] [], [])) as [self' errors].
  destruct Hhandled as (Herrors & _). cbn [fst snd app] in *.
  rewrite <- Herrors in Hexists.
  split; [|split].
  - rewrite Z.eqb_eq. destruct errors; cbn; split; (done || lia).
  - rewrite <- not_true_iff_false, Z.eqb_eq.
    assert (Z.of_nat (length errors) = 0 <-> errors = []) as ->
      by (destruct errors; cbn; split; (done || lia)).
    rewrite Hexists. split.
    + intros (f & n & c & a & H). by exists color_map, f, n, c, a.
    + intros (cm & f & n & c & a & [= <-] & H). by exists f, n, c, a.
  - split; [done|]. split; [by intros [= ->]|]. split; [done|]. done.
Qed.

Lemma validate_fails_only_on_a_mismatch_witness :
  let '(is_valid, errors, warnings, self') :=
    Consistency.validate (Consistency.CCV [] [] []) sample_text (Some loaded_color_map) in
  is_valid = false
  /\ lookup_actual loaded_color_map 2 2 = Some (ColorEntry "green" "#548235" "arrow")
  /\ _colors_match "blue" "green" = false.
Proof.
  pose proof (validate_fails_only_on_a_mismatch (Consistency.CCV [] [] []) sample_text
                (Some loaded_color_map)) as H.
  destruct (Consistency.validate (Consistency.CCV [] [] []) sample_text
              (Some loaded_color_map)) as [[[is_valid errors] warnings] self'].
  destruct H as (_ & Hfails & _).
  split; [|split; reflexivity].
  apply Hfails.
  exists loaded_color_map, 2, 2, "blue", (ColorEntry "green" "#548235" "arrow").
  split; [reflexivity|]. split; [vm_compute; tauto|]. split; reflexivity.
Defined.

Section OrderedDictionaries.
Import Consistency.
Context {A : Type}.

Lemma od_get_None (k : Z) (d : odict A) :
  od_get k d = None <-> ~ In k (map fst d).
Proof.
  induction d as [|[k' v] d IH]; cbn; [tauto|].
  destruct (Z.eqb_spec k' k) as [->|Hne]; [split; [done|tauto]|].
  rewrite IH. tauto.
Qed.

Lemma od_get_Some_in (k : Z) (d : odict A) (v : A) :
  od_get k d = Some v -> In (k, v) d.
Proof.
  induction d as [|[k' w] d IH]; cbn; [done|].
  destruct (Z.eqb_spec k' k) as [->|Hne]; [intros [= ->]; by left|].
  intros H. right. by apply IH.
Qed.

Lemma od_set_new (k : Z) (v : A) (d : odict A) :
  od_get k d = None -> od_set k v d = d ++ [(k, v)].
Proof.
  induction d as [|[k' w] d IH]; cbn; [done|].
  destruct (k' =? k); [done|]. intros H. by rewrite IH.
Qed.

Lemma od_set_keys (k : Z) (v : A) (d : odict A) :
  is_Some (od_get k d) -> map fst (od_set k v d) = map fst d.
Proof.
  induction d as [|[k' w] d IH]; cbn; [by intros [? ?]|].
  destruct (k' =? k); [done|]. intros H. cbn. by rewrite IH.
Qed.

Lemma od_set_Forall (P : Z * A -> Prop) (k : Z) (v : A) (d : odict A) :
  Forall P d -> P (k, v) -> Forall P (od_set k v d).
Proof.
  intros Hd Hv. induction Hd as [|[k' w] d Hw Hd IH]; cbn.
  - by constructor.
  - destruct (Z.eqb_spec k' k) as [->|Hne]; by constructor.
Qed.

Lemma od_set_not_nil (k : Z) (v : A) (d : odict A) : od_set k v d <> [].
Proof. destruct d as [|[k' w] d]; cbn; [done|]. by destruct (k' =? k). Qed.

Lemma od_set_distinct (k : Z) (v : A) (d : odict A) :
  distinct_keys d -> distinct_keys (od_set k v d).
Proof.
  unfold distinct_keys. intros Hd.
  destruct (od_get k d) as [w|] eqn:Hget.
  - by rewrite od_set_keys.
  - rewrite od_set_new, map_app by done. cbn.
    apply NoDup_app. split; [done|]. split; [|apply NoDup_singleton].
    intros k' Hin ->%list_elem_of_singleton.
    by apply od_get_None in Hget; apply Hget, list_elem_of_In.
Qed.

End OrderedDictionaries.

Section ExpectedIsWellFormed.
Import Consistency.

Lemma od_set_new_figure (fig ann_num : Z) (color : string)
    (result : odict (odict string)) :
  od_get fig result = None ->
  od_set fig
    (od_set ann_num color (get (od_get fig (od_set fig [] result)) []))
    (od_set fig [] result)
  = result ++ [(fig, [(ann_num, color)])].
Proof.
  induction result as [|[k v] result IH]; cbn -[Z.eqb].
  - by rewrite !Z.eqb_refl.
  - destruct (k =? fig) eqn:Hk; [done|]. intros H. cbn -[Z.eqb]. rewrite Hk.
    by rewrite IH.
Qed.

Lemma well_formed_expect current_figure line result m :
  well_formed result -> well_formed (expect current_figure line result m).
Proof.
  intros [Hkeys Hitems]. unfold expect.
  destruct (truthy_int current_figure) eqn:Htruthy; [|done].
  apply truthy_int_Some in Htruthy as (fig & -> & Hnz). cbn [get].
  set (color := Str.lower (Parser.group_str line m 1)).
  set (ann_num := get (Parser.group_int line m 3) 1).
  destruct (od_get fig result) as [inner|] eqn:Hget.
  - rewrite Hget. cbn [get]. split; [by apply od_set_distinct|].
    apply od_set_Forall; [done|]. cbn [fst snd].
    split; [done|]. split; [apply od_set_not_nil|].
    apply od_set_distinct.
    apply od_get_Some_in in Hget. rewrite Forall_forall in Hitems.
    by apply list_elem_of_In, Hitems in Hget as (_ & _ & Hinner).
  - match goal with
    | |- well_formed ?t =>
        replace t with (result ++ [(fig, [(ann_num, color)])])
          by (symmetry; exact (od_set_new_figure fig ann_num color result Hget))
    end.
    split.
    + unfold distinct_keys. rewrite map_app. cbn.
      apply NoDup_app. split; [done|]. split; [|apply NoDup_singleton].
      intros k' Hin ->%list_elem_of_singleton.
      by apply od_get_None in Hget; apply Hget, list_elem_of_In.
    + apply Forall_app. split; [done|]. constructor; [|constructor].
      cbn [fst snd]. split; [done|]. split; [done|].
      unfold distinct_keys. cbn. apply NoDup_singleton.
Qed.

Lemma well_formed_line state line :
  well_formed (fst state) -> well_formed (fst (expect_line state line)).
Proof.
  destruct state as [result current_figure]. cbn [fst expect_line].
  intros Hresult. apply fold_left_invariant; [|done].
  intros s m. apply well_formed_expect.
Qed.

Lemma well_formed_lines lines : forall state,
  well_formed (fst state) -> well_formed (fst (fold_left expect_line lines state)).
Proof.
  induction lines as [|line lines IH]; intros state Hstate; cbn [fold_left]; [done|].
  by apply IH, well_formed_line.
Qed.

Lemma entries_figure expected fig_num ann_num color :
  In (fig_num, ann_num, color) (entries expected) ->
  exists annotations,
    In (fig_num, annotations) expected /\ In (ann_num, color) annotations.
Proof.
  unfold entries. rewrite in_flat_map.
  intros ([f annotations] & Hitem & Hin).
  apply in_map_iff in Hin as ([n c] & [= <- <- <-] & Hin).
  by exists annotations.
Qed.

Lemma entries_distinct expected :
  well_formed expected ->
  NoDup (map (fun e => (e.1.1, e.1.2)) (entries expected)).
Proof.
  intros [Hkeys Hitems]. unfold distinct_keys in Hkeys.
  induction expected as [|[fig_num annotations] expected IH]; [constructor|].
  cbn [map fst] in Hkeys. apply NoDup_cons in Hkeys as [Hfresh Hkeys].
  apply Forall_cons in Hitems as [(_ & _ & Hanns) Hitems].
  unfold entries. cbn [flat_map]. rewrite map_app, map_map.
  apply NoDup_app. split; [|split; [|by apply IH]].
  - cbn [fst snd] in Hanns. unfold distinct_keys in Hanns.
    clear -Hanns. induction annotations as [|[n c] annotations IH]; [constructor|].
    cbn [map fst] in *. apply NoDup_cons in Hanns as [Hfresh Hanns].
    apply NoDup_cons. split; [|by apply IH].
    intros Hin%list_elem_of_In%in_map_iff. destruct Hin as ([n' c'] & [= ->] & Hin).
    apply Hfresh, list_elem_of_In, in_map_iff. by exists (n, c').
  - intros [f n] Hin1%list_elem_of_In%in_map_iff Hin2%list_elem_of_In%in_map_iff.
    destruct Hin1 as ([n1 c1] & [= <- <-] & _).
    destruct Hin2 as ([[f2 n2] c2] & [= -> ->] & Hin2).
    apply entries_figure in Hin2 as (annotations' & Hitem & _).
    apply Hfresh, list_elem_of_In, in_map_iff. by exists (fig_num, annotations').
Qed.

End ExpectedIsWellFormed.

(** X29. The expected colours the validator reads from a text name no
    figure twice and no figure 0, and under each figure at least one
    annotation, none twice: [validate] reports on each expected annotation
    once. *)
Theorem expected_annotations_are_distinct (text : string) :
  let expected := Consistency._parse_expected_colors text in
  NoDup (map fst expected)
  /\ Forall (fun item => fst item <> 0 /\ snd item <> []
                         /\ NoDup (map fst (snd item))) expected
  /\ NoDup (map (fun e => (e.1.1, e.1.2)) (Consistency.entries expected)).
Proof.
  intros expected.
  assert (Consistency.well_formed expected) as Hwf.
  { apply (well_formed_lines _ ([], None)). split; constructor. }
  split; [apply Hwf|]. split; [apply Hwf|]. by apply entries_distinct.
Qed.
